(** * bitcoin-intel: the aggregation and normalisation core of [src/index.ts]

    A shallow embedding of the six query handlers (overview, address,
    transaction, fees, blocks, address-report) and of the helpers they use,
    followed by the properties of the specification that concern them.

    Numbers.  The source computes on JavaScript numbers.  The model is
    exact: the provider fields that are unsigned integers (satoshi sums,
    counts, sizes, weights, Unix seconds) are carried as [N], signed integers
    (balances, the millisecond clock, the caller's limit) as [Z], and every
    quotient as a rational [Q].  A quotient that the source rounds to a
    double is exact here; where a quotient is printed, the properties below
    bound the printed value by half a unit of its last place and leave the
    direction of exact ties open, and the section on rounding shows that
    they survive it: the properties of printed amounts, rates and times
    state the print of the rounded quotient too, for every rounding that is
    monotone, exact on the integers up to 2^53 and within half a unit in
    the last place, as [binary64], the rounding to the nearest double, is
    proved to be.  Printed magnitudes stay below 10^21, where
    [toFixed] and template literals change to the exponent notation.
    Division by zero, which the source can reach, yields the non-finite
    values of [JS.number].

    Clock.  The source reads the system clock where it needs the time; a
    handler body is a computation over the stream of readings of one
    request, [Clock].

    Providers.  Every [fetchJSON] of a request settles to what the snapshot
    [Upstream] holds for its URL; the responses are typed after the
    providers' schemas, with [option] for the properties the source treats
    as optional.  An answer that lacks a member the source reads
    unconditionally is outside the model. *)

From Stdlib Require Import ZArith NArith QArith Qround Qabs Lia Lqa List Bool.
From Stdlib Require Import String Ascii DecimalString.
Import ListNotations.

Open Scope string_scope.
Open Scope Z_scope.

(** ** The JavaScript built-ins the handlers call *)
Module JS.

(** A number as the handlers can produce one: a finite value, an infinity
    or NaN.  All zeros of the handlers are positive zeros. *)
Inductive number : Type :=
| Fin (q : Q)
| Infinity (negative : bool)
| NaN.

Definition of_Z (z : Z) : number := Fin (inject_Z z).
Definition of_N (n : N) : number := Fin (inject_Z (Z.of_N n)).

Definition Qltb (a b : Q) : bool := negb (Qle_bool b a).

(** The operator [/], without the rounding of the quotient to a double:
    at or next to a decimal tie the source can print the other neighbour
    of the exact quotient. *)
Definition div (a b : number) : number :=
  match a, b with
  | Fin x, Fin y =>
      if Qeq_bool y 0
      then (if Qeq_bool x 0 then NaN else Infinity (Qltb x 0))
      else Fin (x / y)
  | Fin _, Infinity _ => Fin 0
  | Infinity s, Fin y => Infinity (xorb s (Qltb y 0))
  | _, _ => NaN
  end.

(** The operator [*], without the rounding of the product to a double. *)
Definition mul (a b : number) : number :=
  match a, b with
  | Fin x, Fin y => Fin (x * y)
  | Infinity s, Fin y | Fin y, Infinity s =>
      if Qeq_bool y 0 then NaN else Infinity (xorb s (Qltb y 0))
  | Infinity s, Infinity t => Infinity (xorb s t)
  | _, _ => NaN
  end.

(** [Math.ceil] and [Math.round] (halves go up). *)
Definition Math_ceil (x : number) : number :=
  match x with
  | Fin q => of_Z (Qceiling q)
  | other => other
  end.

Definition Math_round (x : number) : number :=
  match x with
  | Fin q => of_Z (Qfloor (q + (1 # 2)))
  | other => other
  end.

(** Decimal digits. *)
Definition string_of_N (n : N) : string :=
  NilZero.string_of_uint (N.to_uint n).

Definition digit (d : N) : ascii := ascii_of_N (48 + d).

(** The [f] low decimal digits of [n], most significant first. *)
Fixpoint fixed_digits (f : nat) (n : N) : string :=
  match f with
  | O => EmptyString
  | S k => fixed_digits k (n / 10) ++ String (digit (n mod 10)) EmptyString
  end.

(** The sign that [toFixed] and [toString] print. *)
Definition sign (negative : bool) : string :=
  if negative then "-" else EmptyString.

(** [n / 10^f] written with [f] decimals. *)
Definition decimal (f : nat) (n : N) : string :=
  let p := (10 ^ N.of_nat f)%N in
  match f with
  | O => string_of_N n
  | S _ => string_of_N (n / p) ++ "." ++ fixed_digits f (n mod p)
  end.

(** The integer [n] for which [n / 10^f - a] is closest to zero, the larger
    one of two ([a] is not negative). *)
Definition nearest (f : nat) (a : Q) : N :=
  Z.to_N (Qfloor (a * inject_Z (10 ^ Z.of_nat f) + (1 # 2))).

(** [Number.prototype.toFixed]. *)
Definition toFixed (f : nat) (x : number) : string :=
  match x with
  | Fin q =>
      sign (Qltb q 0) ++ decimal f (nearest f (Qabs q))
  | Infinity false => "Infinity"
  | Infinity true => "-Infinity"
  | NaN => "NaN"
  end.

(** A number in a template literal; integers only. *)
Definition toString (z : Z) : string :=
  sign (z <? 0) ++ string_of_N (Z.abs_N z).

(** The operators [-] and [<]. *)
Definition sub (a b : number) : number :=
  match a, b with
  | Fin x, Fin y => Fin (x - y)
  | Infinity s, Fin _ => Infinity s
  | Fin _, Infinity s => Infinity (negb s)
  | Infinity s, Infinity t => if Bool.eqb s t then NaN else Infinity s
  | _, _ => NaN
  end.

Definition lt (a b : number) : bool :=
  match a, b with
  | Fin x, Fin y => Qltb x y
  | Infinity true, Fin _ | Infinity true, Infinity false => true
  | Fin _, Infinity false => true
  | _, _ => false
  end.

(** Truthiness of an optional number and of an optional string. *)
Definition truthy (o : option N) : bool :=
  match o with
  | Some n => negb (n =? 0)%N
  | None => false
  end.

Definition Boolean (o : option string) : bool :=
  match o with
  | Some s => negb (String.eqb s EmptyString)
  | None => false
  end.

(** [Array.prototype.slice(0, e)]. *)
Definition slice0 {A : Type} (e : Z) (l : list A) : list A :=
  let len := Z.of_nat (List.length l) in
  let final := if e <? 0 then Z.max (len + e) 0 else Z.min e len in
  firstn (Z.to_nat (Z.max final 0)) l.

(** The string of [Date.prototype.toISOString] for the instant [ms]
    (milliseconds since the epoch). *)
Inductive isoString : Type := ISO (ms : Z).

(** [x === a] for an optional string property [x]. *)
Definition same (x : option string) (a : string) : bool :=
  match x with
  | Some s => String.eqb s a
  | None => false
  end.

End JS.

(** ** Promises, exceptions and the clock *)

Inductive error : Type :=
| ApiError (status : Z)   (* fetchJSON: the response is not ok *)
| FetchError              (* fetch or response.json() rejects *)
| TypeError               (* a property of undefined is read *)
| RangeError.             (* toISOString of an invalid date *)

(** How a promise settles; also how a handler ends. *)
Inductive settled (A : Type) : Type :=
| Fulfilled (value : A)
| Rejected (reason : error).
Arguments Fulfilled {A} value.
Arguments Rejected {A} reason.

(** [clock i] is what the [i]-th reading of the system time during one
    request returns, in milliseconds. *)
Definition Clock : Type := nat -> Z.

(** A handler body: it reads the clock, counts its readings, and may throw. *)
Definition M (A : Type) : Type := Clock -> nat -> settled (A * nat).

Definition ret {A : Type} (a : A) : M A :=
  fun _ n => Fulfilled (a, n).

Definition bind {A B : Type} (m : M A) (k : A -> M B) : M B :=
  fun clock n =>
    match m clock n with
    | Fulfilled (a, n') => k a clock n'
    | Rejected e => Rejected e
    end.

Definition throw {A : Type} (e : error) : M A :=
  fun _ _ => Rejected e.

Definition await {A : Type} (p : settled A) : M A :=
  fun _ n =>
    match p with
    | Fulfilled a => Fulfilled (a, n)
    | Rejected e => Rejected e
    end.

Definition Date_now : M Z :=
  fun clock n => Fulfilled (clock n, S n).

Definition run {A : Type} (m : M A) (clock : Clock) : settled A :=
  match m clock O with
  | Fulfilled (a, _) => Fulfilled a
  | Rejected e => Rejected e
  end.

Declare Scope js_scope.
Delimit Scope js_scope with js.
Notation "x <- m ;; k" := (bind m (fun x => k))
  (at level 100, m at next level, right associativity) : js_scope.
Notation "' p <- m ;; k" := (bind m (fun x => match x with p => k end))
  (at level 100, p pattern, m at next level, right associativity) : js_scope.
Open Scope js_scope.

(** [new Date().toISOString()]. *)
Definition new_Date_toISOString : M JS.isoString :=
  now <- Date_now ;; ret (JS.ISO now).

(** [new Date(seconds * 1000).toISOString()]; a time value beyond
    8.64e15 ms is an invalid date, on which [toISOString] throws. *)
Definition Date_of_seconds_toISOString (seconds : N) : M JS.isoString :=
  let ms := Z.of_N seconds * 1000 in
  if ms <=? 8640000000000000 then ret (JS.ISO ms) else throw RangeError.

(** [Promise.all] of three promises.  When several reject, the source
    surfaces the one that settles first; the model names the first in
    declaration order, and no property below says which reason wins when
    more than one of the promises rejects. *)
Definition Promise_all3 {A B C : Type}
    (a : settled A) (b : settled B) (c : settled C) : settled (A * B * C) :=
  match a, b, c with
  | Fulfilled x, Fulfilled y, Fulfilled z => Fulfilled (x, y, z)
  | Rejected e, _, _ => Rejected e
  | _, Rejected e, _ => Rejected e
  | _, _, Rejected e => Rejected e
  end.

(** [p.then(f)] and [p.catch(() => d)]. *)
Definition then_ {A B : Type} (p : settled A) (f : A -> B) : settled B :=
  match p with
  | Fulfilled a => Fulfilled (f a)
  | Rejected e => Rejected e
  end.

Definition catch {A : Type} (p : settled A) (d : A) : settled A :=
  match p with
  | Fulfilled a => Fulfilled a
  | Rejected _ => Fulfilled d
  end.

(** [Array.prototype.map] and [Array.prototype.some] with a callback that
    has effects. *)
Fixpoint mapM {A B : Type} (f : A -> M B) (l : list A) : M (list B) :=
  match l with
  | [] => ret []
  | a :: r => b <- f a ;; bs <- mapM f r ;; ret (b :: bs)
  end.

Fixpoint someM {A : Type} (f : A -> M bool) (l : list A) : M bool :=
  match l with
  | [] => ret false
  | a :: r => b <- f a ;; if b then ret true else someM f r
  end.

(** [l[i].p]: reading a property of the [i]-th element; beyond the end the
    element is undefined and the read throws. *)
Definition at_index {A : Type} (l : list A) (i : Z) : M A :=
  match (if i <? 0 then None else nth_error l (Z.to_nat i)) with
  | Some a => ret a
  | None => throw TypeError
  end.

(** ** The providers' responses *)

Module FeesRecommended.
Record t : Type := {
  fastestFee : N; halfHourFee : N; hourFee : N; economyFee : N; minimumFee : N }.
End FeesRecommended.

Module Stats.
Record data_t : Type := {
  difficulty : Q;
  hashrate_24h : string;
  mempool_transactions : N;
  mempool_size : N;
  market_price_usd : Q }.
Record t : Type := { data : data_t }.
End Stats.

Module Block.
Record pool_t : Type := { name : option string }.
Record extras_t : Type := {
  pool : option pool_t; reward : option N; totalFees : option N }.
Record t : Type := {
  height : N; id : string; timestamp : N;
  tx_count : N; size : N; weight : N;
  extras : option extras_t }.
End Block.

Module Mempool.
Record t : Type := { count : N; vsize : N; total_fee : N }.
End Mempool.

Module Address.
Record stats_t : Type := {
  funded_txo_count : N; funded_txo_sum : N;
  spent_txo_count : N; spent_txo_sum : N;
  tx_count : N }.
Record t : Type := { chain_stats : stats_t; mempool_stats : stats_t }.
End Address.

Module Tx.
Record out_t : Type := { scriptpubkey_address : option string; value : N }.
Record in_t : Type := { prevout : option out_t }.
Record status_t : Type := {
  confirmed : bool; block_height : option N; block_time : option N }.
Record t : Type := {
  txid : string; status : status_t;
  size : N; weight : N; fee : N;
  vin : list in_t; vout : list out_t }.
End Tx.

Module Ticker.
Record currency_t : Type := { last : Q }.
Record t : Type := { USD : currency_t }.
End Ticker.

(** One snapshot of the providers: what each [fetchJSON] of a request
    settles to. *)
Record Upstream : Type := {
  (* https://mempool.space/api/v1/fees/recommended *)
  api_fees_recommended : settled FeesRecommended.t;
  (* https://api.blockchair.com/bitcoin/stats *)
  api_stats : settled Stats.t;
  (* https://mempool.space/api/v1/blocks *)
  api_blocks : settled (list Block.t);
  (* https://mempool.space/api/mempool *)
  api_mempool : settled Mempool.t;
  (* https://mempool.space/api/address/<address> *)
  api_address : string -> settled Address.t;
  (* https://mempool.space/api/address/<address>/txs *)
  api_address_txs : string -> settled (list Tx.t);
  (* https://mempool.space/api/tx/<txid> *)
  api_tx : string -> settled Tx.t;
  (* https://blockchain.info/ticker *)
  api_ticker : settled Ticker.t }.

(** ** Helpers *)

(** [satsToBtc].  The quotient is exact here; the double quotient of the
    source prints the same string for amounts below 2^52 sats in magnitude
    ([satsToBtc_rounded]) and can print a neighbour of it beyond. *)
Definition satsToBtc (sats : Z) : string :=
  JS.toFixed 8 (JS.div (JS.of_Z sats) (JS.of_Z 100000000)).

(** [reduce((sum, x) => sum + f(x), 0)]. *)
Definition sum_of {A : Type} (f : A -> N) (l : list A) : N :=
  fold_left (fun sum x => (sum + f x)%N) l 0%N.

(** ** Free endpoint: network overview *)

Module Overview.
Record network_t : Type := {
  blockHeight : N; difficulty : Q; hashrate : string;
  mempoolTxs : N; mempoolSize : N }.
Record fees_t : Type := {
  fastest : N; halfHour : N; hour : N; economy : N; minimum : N;
  unit : string }.
Record price_t : Type := { usd : Q }.
Record latestBlock_t : Type := {
  height : N; timestamp : JS.isoString; txCount : N; size : N }.
Record output : Type := {
  network : network_t;
  fees : fees_t;
  price : price_t;
  latestBlock : latestBlock_t;
  fetchedAt : JS.isoString;
  dataSources : list string }.

Definition handler (up : Upstream) : M output :=
  '(fees, stats, blocks) <-
    await (Promise_all3 (api_fees_recommended up) (api_stats up) (api_blocks up)) ;;
  latestBlock <- at_index blocks 0 ;;
  let networkStats := Stats.data stats in
  timestamp <- Date_of_seconds_toISOString (Block.timestamp latestBlock) ;;
      fetchedAt <- new_Date_toISOString ;;
      ret {|
        network := {|
          blockHeight := Block.height latestBlock;
          difficulty := Stats.difficulty networkStats;
          hashrate := Stats.hashrate_24h networkStats;
          mempoolTxs := Stats.mempool_transactions networkStats;
          mempoolSize := Stats.mempool_size networkStats |};
        fees := {|
          fastest := FeesRecommended.fastestFee fees;
          halfHour := FeesRecommended.halfHourFee fees;
          hour := FeesRecommended.hourFee fees;
          economy := FeesRecommended.economyFee fees;
          minimum := FeesRecommended.minimumFee fees;
          unit := "sat/vB" |};
        price := {| usd := Stats.market_price_usd networkStats |};
        latestBlock := {|
          height := Block.height latestBlock;
          timestamp := timestamp;
          txCount := Block.tx_count latestBlock;
          size := Block.size latestBlock |};
        fetchedAt := fetchedAt;
        dataSources := ["mempool.space"; "blockchair.com"] |}.
End Overview.

(** ** Paid endpoint 1: address lookup *)

Module AddressLookup.
Record input : Type := { address : string }.
Record balance_t : Type := {
  confirmed : string; unconfirmed : string; total : string; sats : Z }.
Record transactions_t : Type := {
  tx_confirmed : N; tx_unconfirmed : N; tx_total : N }.
Record output : Type := {
  out_address : string;
  balance : balance_t;
  transactions : transactions_t;
  received : string;
  spent : string;
  fetchedAt : JS.isoString }.

Definition handler (ctx : input) (up : Upstream) : M output :=
  data <- await (api_address up (address ctx)) ;;
  let chain := Address.chain_stats data in
  let pool := Address.mempool_stats data in
  let chainBalance :=
    Z.of_N (Address.funded_txo_sum chain) - Z.of_N (Address.spent_txo_sum chain) in
  let mempoolBalance :=
    Z.of_N (Address.funded_txo_sum pool) - Z.of_N (Address.spent_txo_sum pool) in
  let totalBalance := chainBalance + mempoolBalance in
  fetchedAt <- new_Date_toISOString ;;
  ret {|
    out_address := address ctx;
    balance := {|
      confirmed := satsToBtc chainBalance;
      unconfirmed := satsToBtc mempoolBalance;
      total := satsToBtc totalBalance;
      sats := totalBalance |};
    transactions := {|
      tx_confirmed := Address.tx_count chain;
      tx_unconfirmed := Address.tx_count pool;
      tx_total := (Address.tx_count chain + Address.tx_count pool)%N |};
    received := satsToBtc (Z.of_N (Address.funded_txo_sum chain));
    spent := satsToBtc (Z.of_N (Address.spent_txo_sum chain));
    fetchedAt := fetchedAt |}.
End AddressLookup.

(** ** Paid endpoint 2: transaction details *)

Module Transaction.
Record input : Type := { txid : string }.
Record fee_t : Type := { sats : N; btc : string; satPerVb : string }.
Record side_t : Type := { count : nat; totalBtc : string }.
Record addresses_t : Type := {
  addr_inputs : list string; addr_outputs : list string }.
Record output : Type := {
  out_txid : string;
  confirmed : bool;
  blockHeight : option N;
  blockTime : option JS.isoString;
  size : N;
  weight : N;
  vsize : JS.number;
  fee : fee_t;
  inputs : side_t;
  outputs : side_t;
  addresses : addresses_t;
  fetchedAt : JS.isoString }.

(** [v.prevout?.value || 0] and [v.prevout?.scriptpubkey_address]. *)
Definition prevout_value (v : Tx.in_t) : N :=
  match Tx.prevout v with
  | Some p => Tx.value p
  | None => 0%N
  end.

Definition prevout_address (v : Tx.in_t) : option string :=
  match Tx.prevout v with
  | Some p => Tx.scriptpubkey_address p
  | None => None
  end.

(** [.filter(Boolean)] on a list of optional strings. *)
Definition filter_Boolean (l : list (option string)) : list string :=
  flat_map (fun o => match o with
                     | Some s => if JS.Boolean o then [s] else []
                     | None => []
                     end) l.

Definition handler (ctx : input) (up : Upstream) : M output :=
  tx <- await (api_tx up (txid ctx)) ;;
  let totalInput := sum_of prevout_value (Tx.vin tx) in
  let totalOutput := sum_of Tx.value (Tx.vout tx) in
  blockTime <-
    match Tx.block_time (Tx.status tx) with
    | Some t =>
        if JS.truthy (Some t)
        then (iso <- Date_of_seconds_toISOString t ;; ret (Some iso))
        else ret None
    | None => ret None
    end ;;
  let vsize := JS.Math_ceil (JS.div (JS.of_N (Tx.weight tx)) (JS.of_Z 4)) in
  fetchedAt <- new_Date_toISOString ;;
  ret {|
    out_txid := Tx.txid tx;
    confirmed := Tx.confirmed (Tx.status tx);
    blockHeight :=
      (if JS.truthy (Tx.block_height (Tx.status tx))
       then Tx.block_height (Tx.status tx) else None);
    blockTime := blockTime;
    size := Tx.size tx;
    weight := Tx.weight tx;
    vsize := vsize;
    fee := {|
      sats := Tx.fee tx;
      btc := satsToBtc (Z.of_N (Tx.fee tx));
      satPerVb :=
        JS.toFixed 2
          (JS.div (JS.of_N (Tx.fee tx))
             (JS.Math_ceil (JS.div (JS.of_N (Tx.weight tx)) (JS.of_Z 4)))) |};
    inputs := {|
      count := List.length (Tx.vin tx);
      totalBtc := satsToBtc (Z.of_N totalInput) |};
    outputs := {|
      count := List.length (Tx.vout tx);
      totalBtc := satsToBtc (Z.of_N totalOutput) |};
    addresses := {|
      addr_inputs :=
        filter_Boolean (map prevout_address (JS.slice0 5 (Tx.vin tx)));
      addr_outputs :=
        filter_Boolean (map Tx.scriptpubkey_address (JS.slice0 5 (Tx.vout tx))) |};
    fetchedAt := fetchedAt |}.
End Transaction.

(** ** Paid endpoint 3: fee estimates *)

Module Fees.
Inductive minutes : Type := Minutes (n : N) | variable.
Record tier_t : Type := { satsPerVb : N; estimatedMinutes : minutes }.
Record recommended_t : Type := {
  fastest : tier_t; halfHour : tier_t; hour : tier_t;
  economy : tier_t; minimum : tier_t }.
Record mempool_t : Type := {
  count : N; vsize : N; totalFee : N; sizeMb : string }.
Record costEstimates_t : Type := {
  note : string; cost_fastest : string; cost_economy : string }.
Record block_t : Type := { height : N; txCount : N; size : N; weight : N }.
Record output : Type := {
  recommended : recommended_t;
  mempool : mempool_t;
  costEstimates : costEstimates_t;
  recentBlocks : list block_t;
  avgBlockTime : string;
  fetchedAt : JS.isoString }.

Definition handler (up : Upstream) : M output :=
  '(fees, mempool, blocks) <-
    await (Promise_all3 (api_fees_recommended up) (api_mempool up)
             (then_ (api_blocks up) (JS.slice0 6))) ;;
  let length := Z.of_nat (List.length blocks) in
  avgBlockTime <-
    (if 1 <? length
     then
       first <- at_index blocks 0 ;;
       last <- at_index blocks (length - 1) ;;
       ret (JS.div
              (JS.div
                 (JS.sub (JS.of_N (Block.timestamp first))
                    (JS.of_N (Block.timestamp last)))
                 (JS.of_Z (length - 1)))
              (JS.of_Z 60))
     else ret (JS.of_Z 10)) ;;
  fetchedAt <- new_Date_toISOString ;;
  ret {|
    recommended := {|
      fastest := {| satsPerVb := FeesRecommended.fastestFee fees;
                    estimatedMinutes := Minutes 10 |};
      halfHour := {| satsPerVb := FeesRecommended.halfHourFee fees;
                     estimatedMinutes := Minutes 30 |};
      hour := {| satsPerVb := FeesRecommended.hourFee fees;
                 estimatedMinutes := Minutes 60 |};
      economy := {| satsPerVb := FeesRecommended.economyFee fees;
                    estimatedMinutes := Minutes 120 |};
      minimum := {| satsPerVb := FeesRecommended.minimumFee fees;
                    estimatedMinutes := variable |} |};
    mempool := {|
      count := Mempool.count mempool;
      vsize := Mempool.vsize mempool;
      totalFee := Mempool.total_fee mempool;
      sizeMb :=
        JS.toFixed 2 (JS.div (JS.of_N (Mempool.vsize mempool)) (JS.of_Z 1000000)) |};
    costEstimates := {|
      note := "Estimates for typical P2PKH transaction (225 vbytes)";
      cost_fastest :=
        JS.toString (Z.of_N (FeesRecommended.fastestFee fees * 225)) ++ " sats";
      cost_economy :=
        JS.toString (Z.of_N (FeesRecommended.economyFee fees * 225)) ++ " sats" |};
    recentBlocks :=
      map (fun b => {| height := Block.height b;
                       txCount := Block.tx_count b;
                       size := Block.size b;
                       weight := Block.weight b |}) blocks;
    avgBlockTime := JS.toFixed 1 avgBlockTime ++ " minutes";
    fetchedAt := fetchedAt |}.
End Fees.

(** ** Paid endpoint 4: recent blocks *)

Module Blocks.
Record input : Type := { limit : Z }.

(** The input schema: the limit is optional and defaults to 10. *)
Definition parse (limit : option Z) : input :=
  {| limit := match limit with Some l => l | None => 10 end |}.

Record block_t : Type := {
  height : N; hash : string; timestamp : JS.isoString;
  txCount : N; size : N; weight : N;
  miner : string; reward : option string; fees : option string }.
Record summary_t : Type := {
  blocksReturned : nat;
  totalTransactions : N;
  avgTxPerBlock : JS.number;
  totalSizeMb : string;
  heightRange : string }.
Record output : Type := {
  blocks : list block_t;
  summary : summary_t;
  fetchedAt : JS.isoString }.

(** [b.extras?.pool?.name || 'Unknown']. *)
Definition miner_of (b : Block.t) : string :=
  match Block.extras b with
  | Some x =>
      match Block.pool x with
      | Some p =>
          match Block.name p with
          | Some s => if JS.Boolean (Some s) then s else "Unknown"
          | None => "Unknown"
          end
      | None => "Unknown"
      end
  | None => "Unknown"
  end.

(** [b.extras?.f ? satsToBtc(b.extras.f) : null]. *)
Definition extras_btc (f : Block.extras_t -> option N) (b : Block.t)
  : option string :=
  match Block.extras b with
  | Some x =>
      match f x with
      | Some v => if JS.truthy (Some v) then Some (satsToBtc (Z.of_N v)) else None
      | None => None
      end
  | None => None
  end.

Definition block_of (b : Block.t) : M block_t :=
  timestamp <- Date_of_seconds_toISOString (Block.timestamp b) ;;
  ret {| height := Block.height b;
         hash := Block.id b;
         timestamp := timestamp;
         txCount := Block.tx_count b;
         size := Block.size b;
         weight := Block.weight b;
         miner := miner_of b;
         reward := extras_btc Block.reward b;
         fees := extras_btc Block.totalFees b |}.

Definition handler (ctx : input) (up : Upstream) : M output :=
  let limit := Z.min (limit ctx) 15 in
  blocks <- await (api_blocks up) ;;
  let recentBlocks := JS.slice0 limit blocks in
  let totalTxs := sum_of Block.tx_count recentBlocks in
  let totalSize := sum_of Block.size recentBlocks in
  let length := Z.of_nat (List.length recentBlocks) in
  out_blocks <- mapM block_of recentBlocks ;;
  oldest <- at_index recentBlocks (length - 1) ;;
  newest <- at_index recentBlocks 0 ;;
  fetchedAt <- new_Date_toISOString ;;
  ret {|
    blocks := out_blocks;
    summary := {|
      blocksReturned := List.length recentBlocks;
      totalTransactions := totalTxs;
      avgTxPerBlock :=
        JS.Math_round (JS.div (JS.of_N totalTxs) (JS.of_Z length));
      totalSizeMb := JS.toFixed 2 (JS.div (JS.of_N totalSize) (JS.of_Z 1000000));
      heightRange :=
        JS.toString (Z.of_N (Block.height oldest)) ++ " - " ++
        JS.toString (Z.of_N (Block.height newest)) |};
    fetchedAt := fetchedAt |}.
End Blocks.

(** ** Paid endpoint 5: address report *)

Module AddressReport.
Record input : Type := { address : string }.
Record balance_t : Type := { btc : string; sats : Z; usd : string }.
Record activity_t : Type := {
  totalTransactions : N; totalReceived : string; totalSpent : string;
  utxoCount : Z }.
Record classification_t : Type := {
  isActive : bool; isWhale : bool; hasRecentActivity : bool }.
Record recentTx_t : Type := {
  txid : string; confirmed : bool; blockHeight : option N;
  timestamp : option JS.isoString; type : string; amount : string }.
Record pricing_t : Type := { btcUsd : Q }.
Record output : Type := {
  out_address : string;
  balance : balance_t;
  activity : activity_t;
  classification : classification_t;
  recentTransactions : list recentTx_t;
  pricing : pricing_t;
  fetchedAt : JS.isoString }.

Definition pays (a : string) (v : Tx.out_t) : bool :=
  JS.same (Tx.scriptpubkey_address v) a.

Definition spends (a : string) (v : Tx.in_t) : bool :=
  JS.same (Transaction.prevout_address v) a.

(** The callback of [txs.slice(0, 10).map]. *)
Definition recentTx_of (a : string) (tx : Tx.t) : M recentTx_t :=
  let isIncoming := existsb (pays a) (Tx.vout tx) in
  let isOutgoing := existsb (spends a) (Tx.vin tx) in
  let amount :=
    if isIncoming
    then sum_of Tx.value (filter (pays a) (Tx.vout tx))
    else 0%N in
  timestamp <-
    match Tx.block_time (Tx.status tx) with
    | Some t =>
        if JS.truthy (Some t)
        then (iso <- Date_of_seconds_toISOString t ;; ret (Some iso))
        else ret None
    | None => ret None
    end ;;
  ret {| txid := Tx.txid tx;
         confirmed := Tx.confirmed (Tx.status tx);
         blockHeight := Tx.block_height (Tx.status tx);
         timestamp := timestamp;
         type := if isOutgoing then "outgoing" else "incoming";
         amount := satsToBtc (Z.of_N amount) |}.

(** The callback of [txs.some]:
    [block_time && (Date.now() / 1000 - block_time) < 86400 * 30]. *)
Definition recent (tx : Tx.t) : M bool :=
  match Tx.block_time (Tx.status tx) with
  | Some t =>
      if JS.truthy (Some t)
      then
        now <- Date_now ;;
        ret (JS.lt
               (JS.sub (JS.div (JS.of_Z now) (JS.of_Z 1000)) (JS.of_N t))
               (JS.of_Z (86400 * 30)))
      else ret false
  | None => ret false
  end.

Definition handler (ctx : input) (up : Upstream) : M output :=
  '(addressData, txs, ticker) <-
    await (Promise_all3 (api_address up (address ctx))
             (catch (api_address_txs up (address ctx)) [])
             (api_ticker up)) ;;
  let chain := Address.chain_stats addressData in
  let chainBalance :=
    Z.of_N (Address.funded_txo_sum chain) - Z.of_N (Address.spent_txo_sum chain) in
  let btcPrice := Ticker.last (Ticker.USD ticker) in
  let usdValue :=
    JS.mul (JS.div (JS.of_Z chainBalance) (JS.of_Z 100000000)) (JS.Fin btcPrice) in
  recentTxs <- mapM (recentTx_of (address ctx)) (JS.slice0 10 txs) ;;
  hasRecentActivity <- someM recent txs ;;
  fetchedAt <- new_Date_toISOString ;;
  ret {|
    out_address := address ctx;
    balance := {|
      btc := satsToBtc chainBalance;
      sats := chainBalance;
      usd := JS.toFixed 2 usdValue |};
    activity := {|
      totalTransactions := Address.tx_count chain;
      totalReceived := satsToBtc (Z.of_N (Address.funded_txo_sum chain));
      totalSpent := satsToBtc (Z.of_N (Address.spent_txo_sum chain));
      utxoCount :=
        Z.of_N (Address.funded_txo_count chain)
        - Z.of_N (Address.spent_txo_count chain) |};
    classification := {|
      isActive := (10 <? Address.tx_count chain)%N;
      isWhale := 100000000000 <? chainBalance;
      hasRecentActivity := hasRecentActivity |};
    recentTransactions := recentTxs;
    pricing := {| btcUsd := btcPrice |};
    fetchedAt := fetchedAt |}.
End AddressReport.

(** ** Vocabulary of the properties *)

(** An amount of [sats] written in coins: the sign, the whole coins, the
    point and the eight decimals. *)
Definition btc_decimal (sats : Z) : string :=
  JS.sign (sats <? 0)
  ++ JS.string_of_N (Z.abs_N sats / 100000000) ++ "."
  ++ JS.fixed_digits 8 (Z.abs_N sats mod 100000000).

(** The number that a string of decimal digits denotes, continuing from
    [acc]. *)
Fixpoint digits_value (s : string) (acc : N) : N :=
  match s with
  | EmptyString => acc
  | String c r => digits_value r (10 * acc + (N_of_ascii c - 48))%N
  end.

(** Half a unit in the last place of a double, relative to its value, and
    a range of magnitudes well inside that of the normal doubles. *)
Definition half_ulp : Q := 1 # 9007199254740992.

Definition in_range (q : Q) : Prop :=
  (q == 0)%Q
  \/ ((1 # 1000000000000000000000000000000) <= Qabs q
      <= (1000000000000000000000000000000 # 1))%Q.

(** [x] clamped to the inclusive range from [lo] to [hi]. *)
Definition clamp (lo hi x : Z) : Z := Z.max lo (Z.min x hi).

(** A block time that [toISOString] can print. *)
Definition valid_date (seconds : N) : Prop :=
  Z.of_N seconds * 1000 <= 8640000000000000.

(** The blocks query with this limit succeeds and returns [k] blocks. *)
Definition returns_blocks (limit : Z) (up : Upstream) (clock : Clock) (k : Z)
  : Prop :=
  exists out,
    run (Blocks.handler {| Blocks.limit := limit |} up) clock = Fulfilled out
    /\ Z.of_nat (List.length (Blocks.blocks out)) = k
    /\ Z.of_nat (Blocks.blocksReturned (Blocks.summary out)) = k.

(** A computation that never reads the clock: it ends the same way whatever
    the clock shows, and leaves the count of readings as it found it. *)
Definition clock_free {A : Type} (m : M A) : Prop :=
  exists r : settled A,
    forall clock n,
      m clock n = match r with
                  | Fulfilled a => Fulfilled (a, n)
                  | Rejected e => Rejected e
                  end.

(** The address report of [a] when its history is empty. *)
Definition report_without_history
    (a : string) (data : Address.t) (tk : Ticker.t) (now : Z)
  : AddressReport.output :=
  let chain := Address.chain_stats data in
  let confirmed :=
    Z.of_N (Address.funded_txo_sum chain) - Z.of_N (Address.spent_txo_sum chain) in
  {| AddressReport.out_address := a;
     AddressReport.balance :=
       {| AddressReport.btc := satsToBtc confirmed;
          AddressReport.sats := confirmed;
          AddressReport.usd :=
            JS.toFixed 2
              (JS.mul (JS.div (JS.of_Z confirmed) (JS.of_Z 100000000))
                 (JS.Fin (Ticker.last (Ticker.USD tk)))) |};
     AddressReport.activity :=
       {| AddressReport.totalTransactions := Address.tx_count chain;
          AddressReport.totalReceived :=
            satsToBtc (Z.of_N (Address.funded_txo_sum chain));
          AddressReport.totalSpent :=
            satsToBtc (Z.of_N (Address.spent_txo_sum chain));
          AddressReport.utxoCount :=
            Z.of_N (Address.funded_txo_count chain)
            - Z.of_N (Address.spent_txo_count chain) |};
     AddressReport.classification :=
       {| AddressReport.isActive := (10 <? Address.tx_count chain)%N;
          AddressReport.isWhale := 100000000000 <? confirmed;
          AddressReport.hasRecentActivity := false |};
     AddressReport.recentTransactions := [];
     AddressReport.pricing :=
       {| AddressReport.btcUsd := Ticker.last (Ticker.USD tk) |};
     AddressReport.fetchedAt := JS.ISO now |}.

(** Less than 86,400 x 30 seconds lie between the block time [t] (seconds)
    and the instant [now] (milliseconds). *)
Definition within_30_days (now : Z) (t : N) : Prop :=
  now - 1000 * Z.of_N t < 1000 * (86400 * 30).

(** How often the clock has been read when [txs.some] reaches the [i]-th
    transaction: once for each earlier transaction with a block time. *)
Definition readings_before (txs : list Tx.t) (i : nat) : nat :=
  List.length
    (filter (fun tx => JS.truthy (Tx.block_time (Tx.status tx))) (firstn i txs)).

(** Some transaction of [txs] has a block time within 30 days of [capture]. *)
Definition recent_at (capture : Z) (txs : list Tx.t) : Prop :=
  exists tx t,
    In tx txs /\ Tx.block_time (Tx.status tx) = Some t /\ within_30_days capture t.

(** The capture time of an address report: the instant of [fetchedAt]. *)
Definition capture_time (out : AddressReport.output) : Z :=
  match AddressReport.fetchedAt out with JS.ISO ms => ms end.

(** Some input of [tx] spends an output of the address [a]. *)
Definition spends_from (a : string) (tx : Tx.t) : Prop :=
  exists v p,
    In v (Tx.vin tx) /\ Tx.prevout v = Some p
    /\ Tx.scriptpubkey_address p = Some a.

(** No output of [tx] pays the address [a]. *)
Definition pays_nothing_to (a : string) (tx : Tx.t) : Prop :=
  forall v, In v (Tx.vout tx) -> Tx.scriptpubkey_address v <> Some a.

(** The sats that the outputs of [tx] pay to the address [a]. *)
Definition paid_to (a : string) (tx : Tx.t) : N :=
  sum_of Tx.value
    (filter (fun v => JS.same (Tx.scriptpubkey_address v) a) (Tx.vout tx)).

(** What a client sees of a settled query when it ignores the part of the
    output that [erase] blanks: the output, or that the query failed. *)
Definition observed {A : Type} (erase : A -> A) (r : settled A) : option A :=
  match r with
  | Fulfilled out => Some (erase out)
  | Rejected _ => None
  end.

(** A handler body whose observable end depends neither on the clock nor on
    how often the clock was read before. *)
Definition outcome {A : Type} (erase : A -> A) (r : settled (A * nat))
  : option A :=
  match r with
  | Fulfilled (out, _) => Some (erase out)
  | Rejected _ => None
  end.

Definition steady {A : Type} (erase : A -> A) (m : M A) : Prop :=
  forall clock1 clock2 n1 n2,
    outcome erase (m clock1 n1) = outcome erase (m clock2 n2).

(** The outputs with the fetch timestamp blanked. *)
Definition epoch : JS.isoString := JS.ISO 0.

Definition timeless_overview (o : Overview.output) : Overview.output :=
  {| Overview.network := Overview.network o;
     Overview.fees := Overview.fees o;
     Overview.price := Overview.price o;
     Overview.latestBlock := Overview.latestBlock o;
     Overview.fetchedAt := epoch;
     Overview.dataSources := Overview.dataSources o |}.

Definition timeless_address (o : AddressLookup.output) : AddressLookup.output :=
  {| AddressLookup.out_address := AddressLookup.out_address o;
     AddressLookup.balance := AddressLookup.balance o;
     AddressLookup.transactions := AddressLookup.transactions o;
     AddressLookup.received := AddressLookup.received o;
     AddressLookup.spent := AddressLookup.spent o;
     AddressLookup.fetchedAt := epoch |}.

Definition timeless_transaction (o : Transaction.output) : Transaction.output :=
  {| Transaction.out_txid := Transaction.out_txid o;
     Transaction.confirmed := Transaction.confirmed o;
     Transaction.blockHeight := Transaction.blockHeight o;
     Transaction.blockTime := Transaction.blockTime o;
     Transaction.size := Transaction.size o;
     Transaction.weight := Transaction.weight o;
     Transaction.vsize := Transaction.vsize o;
     Transaction.fee := Transaction.fee o;
     Transaction.inputs := Transaction.inputs o;
     Transaction.outputs := Transaction.outputs o;
     Transaction.addresses := Transaction.addresses o;
     Transaction.fetchedAt := epoch |}.

Definition timeless_fees (o : Fees.output) : Fees.output :=
  {| Fees.recommended := Fees.recommended o;
     Fees.mempool := Fees.mempool o;
     Fees.costEstimates := Fees.costEstimates o;
     Fees.recentBlocks := Fees.recentBlocks o;
     Fees.avgBlockTime := Fees.avgBlockTime o;
     Fees.fetchedAt := epoch |}.

Definition timeless_blocks (o : Blocks.output) : Blocks.output :=
  {| Blocks.blocks := Blocks.blocks o;
     Blocks.summary := Blocks.summary o;
     Blocks.fetchedAt := epoch |}.

Definition timeless_report (o : AddressReport.output) : AddressReport.output :=
  {| AddressReport.out_address := AddressReport.out_address o;
     AddressReport.balance := AddressReport.balance o;
     AddressReport.activity := AddressReport.activity o;
     AddressReport.classification := AddressReport.classification o;
     AddressReport.recentTransactions := AddressReport.recentTransactions o;
     AddressReport.pricing := AddressReport.pricing o;
     AddressReport.fetchedAt := epoch |}.

(** The address report with the fetch timestamp and the recency flag
    blanked. *)
Definition timeless_report_without_recency (o : AddressReport.output)
  : AddressReport.output :=
  {| AddressReport.out_address := AddressReport.out_address o;
     AddressReport.balance := AddressReport.balance o;
     AddressReport.activity := AddressReport.activity o;
     AddressReport.classification :=
       {| AddressReport.isActive :=
            AddressReport.isActive (AddressReport.classification o);
          AddressReport.isWhale :=
            AddressReport.isWhale (AddressReport.classification o);
          AddressReport.hasRecentActivity := false |};
     AddressReport.recentTransactions := AddressReport.recentTransactions o;
     AddressReport.pricing := AddressReport.pricing o;
     AddressReport.fetchedAt := epoch |}.

(** The two providers of the overview and the three responses it fetches. *)
Inductive provider : Type := MempoolSpace | Blockchair.

Inductive response : Type := FeesResponse | StatsResponse | BlocksResponse.

Definition provider_of (r : response) : provider :=
  match r with
  | FeesResponse | BlocksResponse => MempoolSpace
  | StatsResponse => Blockchair
  end.

(** Two snapshots agree on a response, and on all responses of a provider. *)
Definition same_response (r : response) (u1 u2 : Upstream) : Prop :=
  match r with
  | FeesResponse => api_fees_recommended u1 = api_fees_recommended u2
  | StatsResponse => api_stats u1 = api_stats u2
  | BlocksResponse => api_blocks u1 = api_blocks u2
  end.

Definition same_provider (p : provider) (u1 u2 : Upstream) : Prop :=
  forall r, provider_of r = p -> same_response r u1 u2.

(** A field of the overview is a function of what [same] keeps fixed. *)
Definition derived_from {X : Type}
    (same : Upstream -> Upstream -> Prop) (field : Overview.output -> X) : Prop :=
  forall u1 u2 clock1 clock2 o1 o2,
    same u1 u2 ->
    run (Overview.handler u1) clock1 = Fulfilled o1 ->
    run (Overview.handler u2) clock2 = Fulfilled o2 ->
    field o1 = field o2.

Definition overview_height (o : Overview.output) : N :=
  Overview.blockHeight (Overview.network o).

Definition overview_difficulty (o : Overview.output) : Q :=
  Overview.difficulty (Overview.network o).

(** ** A snapshot of the providers used in the examples *)

Module Sample.

Definition block (i : nat) : Block.t :=
  {| Block.height := 800000 - N.of_nat i;
     Block.id := "00000000000000000002a7c4";
     Block.timestamp := 1700000000 - 540 * N.of_nat i;
     Block.tx_count := 2000;
     Block.size := 1500000;
     Block.weight := 3990000;
     Block.extras := None |}.

(** Fifteen blocks, the newest first, nine minutes apart. *)
Definition blocks : list Block.t := map block (seq 0 15).

Definition fees : FeesRecommended.t :=
  {| FeesRecommended.fastestFee := 20;
     FeesRecommended.halfHourFee := 15;
     FeesRecommended.hourFee := 10;
     FeesRecommended.economyFee := 5;
     FeesRecommended.minimumFee := 1 |}.

Definition stats : Stats.t :=
  {| Stats.data :=
       {| Stats.difficulty := 67957790298897 # 1;
          Stats.hashrate_24h := "486000000000000000000";
          Stats.mempool_transactions := 40000;
          Stats.mempool_size := 120000000;
          Stats.market_price_usd := 65000 # 1 |} |}.

Definition mempool : Mempool.t :=
  {| Mempool.count := 40000; Mempool.vsize := 1234567; Mempool.total_fee := 9000000 |}.

Definition no_stats : Address.stats_t :=
  {| Address.funded_txo_count := 0; Address.funded_txo_sum := 0;
     Address.spent_txo_count := 0; Address.spent_txo_sum := 0;
     Address.tx_count := 0 |}.

(** The address of the specification's scenario: 5 coins received, 2 spent,
    5 transactions, nothing in the mempool. *)
Definition address_data : Address.t :=
  {| Address.chain_stats :=
       {| Address.funded_txo_count := 3; Address.funded_txo_sum := 500000000;
          Address.spent_txo_count := 2; Address.spent_txo_sum := 200000000;
          Address.tx_count := 5 |};
     Address.mempool_stats := no_stats |}.

Definition me : string := "bc1qme".
Definition other : string := "bc1qother".

Definition pay (a : string) (v : N) : Tx.out_t :=
  {| Tx.scriptpubkey_address := Some a; Tx.value := v |}.

(** A confirmed payment of 50,000 sats to [me]. *)
Definition tx_in : Tx.t :=
  {| Tx.txid := "aa";
     Tx.status := {| Tx.confirmed := true; Tx.block_height := Some 799990%N;
                     Tx.block_time := Some 1699990000%N |};
     Tx.size := 225; Tx.weight := 801; Tx.fee := 201;
     Tx.vin := [ {| Tx.prevout := Some (pay other 60000) |} ];
     Tx.vout := [ pay me 50000; pay other 9799 ] |}.

(** An unconfirmed spend by [me] that pays nothing back to [me]. *)
Definition tx_out : Tx.t :=
  {| Tx.txid := "bb";
     Tx.status := {| Tx.confirmed := false; Tx.block_height := None;
                     Tx.block_time := None |};
     Tx.size := 225; Tx.weight := 900; Tx.fee := 450;
     Tx.vin := [ {| Tx.prevout := Some (pay me 50000) |} ];
     Tx.vout := [ pay other 49550 ] |}.

Definition ticker : Ticker.t := {| Ticker.USD := {| Ticker.last := 65000 # 1 |} |}.

(** The providers with this address record and this history. *)
Definition providers (a : settled Address.t) (txs : settled (list Tx.t))
  : Upstream :=
  {| api_fees_recommended := Fulfilled fees;
     api_stats := Fulfilled stats;
     api_blocks := Fulfilled blocks;
     api_mempool := Fulfilled mempool;
     api_address := fun _ => a;
     api_address_txs := fun _ => txs;
     api_tx := fun _ => Fulfilled tx_in;
     api_ticker := Fulfilled ticker |}.

Definition snapshot : Upstream :=
  providers (Fulfilled address_data) (Fulfilled [tx_in; tx_out]).

(** The same, with the transaction history unavailable. *)
Definition snapshot_without_txs : Upstream :=
  providers (Fulfilled address_data) (Rejected (ApiError 503)).

(** The same, with the address lookup unavailable. *)
Definition snapshot_without_address : Upstream :=
  providers (Rejected (ApiError 503)) (Fulfilled [tx_in; tx_out]).

(** A payment to [me] confirmed 30 days, less one millisecond, before the
    first reading of [clock_edge]. *)
Definition tx_edge : Tx.t :=
  {| Tx.txid := "cc";
     Tx.status := {| Tx.confirmed := true; Tx.block_height := Some 795000%N;
                     Tx.block_time := Some 1697408000%N |};
     Tx.size := 225; Tx.weight := 801; Tx.fee := 201;
     Tx.vin := [ {| Tx.prevout := Some (pay other 60000) |} ];
     Tx.vout := [ pay me 50000 ] |}.

Definition snapshot_edge : Upstream :=
  providers (Fulfilled address_data) (Fulfilled [tx_edge]).

Definition clock_edge : Clock := fun i => 1699999999999 + Z.of_nat i.

(** An address with [count] confirmed transactions that received [funded]
    sats and spent none. *)
Definition address_with (count funded : N) : Address.t :=
  {| Address.chain_stats :=
       {| Address.funded_txo_count := 1; Address.funded_txo_sum := funded;
          Address.spent_txo_count := 0; Address.spent_txo_sum := 0;
          Address.tx_count := count |};
     Address.mempool_stats := no_stats |}.

(** The snapshot with another answer of the statistics provider, and with
    another list of blocks. *)
Definition snapshot_other_stats : Upstream :=
  {| api_fees_recommended := Fulfilled fees;
     api_stats :=
       Fulfilled
         {| Stats.data :=
              {| Stats.difficulty := 70000000000000 # 1;
                 Stats.hashrate_24h := "500000000000000000000";
                 Stats.mempool_transactions := 40000;
                 Stats.mempool_size := 120000000;
                 Stats.market_price_usd := 65000 # 1 |} |};
     api_blocks := Fulfilled blocks;
     api_mempool := Fulfilled mempool;
     api_address := fun _ => Fulfilled address_data;
     api_address_txs := fun _ => Fulfilled [tx_in; tx_out];
     api_tx := fun _ => Fulfilled tx_in;
     api_ticker := Fulfilled ticker |}.

Definition snapshot_other_blocks : Upstream :=
  {| api_fees_recommended := Fulfilled fees;
     api_stats := Fulfilled stats;
     api_blocks := Fulfilled (map block (seq 1 15));
     api_mempool := Fulfilled mempool;
     api_address := fun _ => Fulfilled address_data;
     api_address_txs := fun _ => Fulfilled [tx_in; tx_out];
     api_tx := fun _ => Fulfilled tx_in;
     api_ticker := Fulfilled ticker |}.

(** A clock that stands still during the request. *)
Definition clock_still : Clock := fun _ => 1700000000000.

(** A clock that advances one millisecond per reading. *)
Definition clock : Clock := fun i => 1700000000000 + Z.of_nat i.

End Sample.

From Stdlib Require Import DecimalPos DecimalN Qpower.

(** ** The helper [fetchJSON] over the raw response *)

Module Http.

(** What [fetch] resolves to: the status line and what [response.json()]
    settles to. *)
Record response (A : Type) : Type := { status : Z; json : settled A }.
Arguments status {A} r.
Arguments json {A} r.

(** [response.ok]: the status is in the range 200-299. *)
Definition ok {A : Type} (r : response A) : bool :=
  (200 <=? status r) && (status r <=? 299).

End Http.

(** [fetchJSON]: a response that is not ok throws the error of its status;
    the body is read only of an ok response. *)
Definition fetchJSON {A : Type} (fetched : settled (Http.response A)) : settled A :=
  match fetched with
  | Fulfilled response =>
      if negb (Http.ok response)
      then Rejected (ApiError (Http.status response))
      else Http.json response
  | Rejected e => Rejected e
  end.

(** ** Free analytics endpoints *)

(** The payment tracker and its queries belong to the analytics package; the
    route takes them as they come.  The body of a request, as far as the
    routes read it; the limit an integer. *)
Module Analytics.

Record body : Type := { windowMs : option Z; limit : option Z }.

(** The object [{}]. *)
Definition no_body : body := {| windowMs := None; limit := None |}.

(** [body.limit || 50]. *)
Definition limit_or_50 (b : body) : Z :=
  match limit b with
  | Some l => if l =? 0 then 50 else l
  | None => 50
  end.

(** The route [analytics-transactions]. *)
Definition transactions {Tracker T : Type}
    (getAllTransactions : Tracker -> option Z -> settled (list T))
    (tracker : option Tracker) (request_json : settled body)
  : settled (list T) :=
  match tracker with
  | None => Fulfilled []
  | Some tr =>
      match catch request_json no_body with
      | Fulfilled body =>
          then_ (getAllTransactions tr (windowMs body))
            (JS.slice0 (limit_or_50 body))
      | Rejected e => Rejected e
      end
  end.

End Analytics.

(** ** The registration document *)

Module Registration.

Record service_t : Type := {
  name : string; endpoint : string; version : option string }.

Record t : Type := {
  type : string;
  doc_name : string;
  description : string;
  image : string;
  services : list service_t;
  x402Support : bool;
  active : bool;
  registrations : list string;
  supportedTrust : list string }.

(** [process.env.RAILWAY_PUBLIC_DOMAIN ? `https://${...}` : '...']. *)
Definition baseUrl (domain : option string) : string :=
  match domain with
  | Some d =>
      if JS.Boolean (Some d)
      then "https://" ++ d
      else "https://bitcoin-intel-production.up.railway.app"
  | None => "https://bitcoin-intel-production.up.railway.app"
  end.

Definition document (domain : option string) : t :=
  let baseUrl := baseUrl domain in
  {| type := "https://eips.ethereum.org/EIPS/eip-8004#registration-v1";
     doc_name := "bitcoin-intel";
     description :=
       "Bitcoin blockchain intelligence - wallet lookups, transaction details, fee estimates, and network stats. 1 free + 5 paid x402 endpoints.";
     image := baseUrl ++ "/icon.png";
     services :=
       [ {| name := "web"; endpoint := baseUrl; version := None |};
         {| name := "A2A";
            endpoint := baseUrl ++ "/.well-known/agent.json";
            version := Some "0.3.0" |} ];
     x402Support := true;
     active := true;
     registrations := [];
     supportedTrust := ["reputation"] |}.

End Registration.

(** ** More vocabulary *)

(** The number that the digits of a printed amount denote, the point passed
    over. *)
Fixpoint decimal_value (s : string) (acc : N) : N :=
  match s with
  | EmptyString => acc
  | String c r =>
      if Ascii.eqb c "."
      then decimal_value r acc
      else decimal_value r (10 * acc + (N_of_ascii c - 48))%N
  end.

(** Reading back what [satsToBtc] prints. *)
Definition number_of_string (s : string) : Z :=
  match s with
  | String c r =>
      if Ascii.eqb c "-"
      then - Z.of_N (decimal_value r 0)
      else Z.of_N (decimal_value s 0)
  | EmptyString => 0
  end.

(** The sum of a list of numbers, and of the values of a list of outputs. *)
Definition total (l : list N) : N := fold_right N.add 0%N l.

(** The addresses a transaction query lists for five optional addresses:
    those that are there and not empty, in order. *)
Fixpoint present (l : list (option string)) : list string :=
  match l with
  | [] => []
  | Some a :: r => if String.eqb a EmptyString then present r else a :: present r
  | None :: r => present r
  end.

(** A decimal digit, and a string of decimal digits. *)
Definition is_digit (c : ascii) : bool :=
  ((48 <=? N_of_ascii c) && (N_of_ascii c <=? 57))%N.

Fixpoint all_digits (s : string) : bool :=
  match s with
  | EmptyString => true
  | String c r => is_digit c && all_digits r
  end.

(** Digits up to a point, and exactly [f] digits after it. *)
Fixpoint digits_point (f : nat) (s : string) : bool :=
  match s with
  | EmptyString => false
  | String c r =>
      if Ascii.eqb c "."
      then Nat.eqb (String.length r) f && all_digits r
      else is_digit c && digits_point f r
  end.

(** A number written with exactly [f] decimals: an optional "-", at least
    one digit, the point and [f] digits. *)
Definition unsigned_fixed (f : nat) (s : string) : bool :=
  match s with
  | String c _ => is_digit c && digits_point f s
  | EmptyString => false
  end.

Definition is_fixed (f : nat) (s : string) : bool :=
  match s with
  | String c r =>
      if Ascii.eqb c "-" then unsigned_fixed f r else unsigned_fixed f s
  | EmptyString => false
  end.

(** The amounts in sats that a double carries through the division by
    100,000,000 without loss: more than twice the coins that can exist. *)
Definition exact_amount (sats : Z) : Prop := Z.abs sats < 2 ^ 52.

(** The statistics of an address whose two sums are exact amounts; their
    difference, the balance, is one then. *)
Definition exact_stats (s : Address.stats_t) : Prop :=
  exact_amount (Z.of_N (Address.funded_txo_sum s))
  /\ exact_amount (Z.of_N (Address.spent_txo_sum s)).

(** A rounding of the rationals that has what the rounding of doubles has
    on the magnitudes the handlers meet: it is monotone, exact on the
    integers up to 2^53 and, between 1e-30 and 1e30, off by at most half a
    unit in the last place. *)
Definition rounds_like_double (fl : Q -> Q) : Prop :=
  (forall p q : Q, (p <= q)%Q -> (fl p <= fl q)%Q)
  /\ (forall z : Z, Z.abs z <= 2 ^ 53 -> (fl (inject_Z z) == inject_Z z)%Q)
  /\ (forall q, in_range q -> (Qabs (fl q - q) <= Qabs q * half_ulp)%Q).

(** The rounding of doubles itself.  [binary64 q] is the double nearest to
    [q], the one with the even significand of two that are as near: the
    value that the source has for a decimal literal and for the result of
    [/] and [*].  The significand has 53 bits, [exponent q] being the power
    of two of its last place; the exponent is not bounded here, which
    leaves out overflow and the subnormal numbers, far from the magnitudes
    of the handlers. *)
Definition round_half_even (x : Q) : Z :=
  let f := Qfloor x in
  match (x - inject_Z f ?= 1 # 2)%Q with
  | Lt => f
  | Gt => f + 1
  | Eq => if Z.even f then f else f + 1
  end.

Definition exponent (q : Q) : Z :=
  let e0 := Z.log2 (Z.abs (Qnum q)) - Z.log2 (Z.pos (Qden q)) - 52 in
  if Qle_bool (2 ^ (52 + e0)) (Qabs q) then e0 else e0 - 1.

Definition binary64 (q : Q) : Q :=
  if Qeq_bool q 0 then 0%Q
  else (inject_Z (round_half_even (q * 2 ^ (- exponent q))) * 2 ^ exponent q)%Q.

(** The string [s] is the amount of [sats] in coins with eight decimals:
    it is the decimal of the amount, it reads back to the amount, a
    negative amount carries its sign, and the division rounded as doubles
    are prints the same. *)
Definition prints_btc (sats : Z) (s : string) : Prop :=
  s = btc_decimal sats
  /\ number_of_string s = sats
  /\ is_fixed 8 s = true
  /\ (sats < 0 -> String.prefix "-" s = true)
  /\ forall fl, rounds_like_double fl ->
       JS.toFixed 8 (JS.Fin (fl (inject_Z sats / inject_Z 100000000)%Q)) = s.

(** ** Arithmetic of the built-ins *)

Section Numbers.

Lemma Qltb_lt (a b : Q) : JS.Qltb a b = true <-> (a < b)%Q.
Proof.
  unfold JS.Qltb. rewrite negb_true_iff.
  split; intro H.
  - apply Qnot_le_lt. intro L. apply Qle_bool_iff in L. congruence.
  - destruct (Qle_bool b a) eqn:E; [ | reflexivity ].
    apply Qle_bool_iff in E. exfalso. exact (Qlt_not_le _ _ H E).
Qed.

Lemma Qeq_bool_inject_Z (a b : Z) :
  Qeq_bool (inject_Z a) (inject_Z b) = (a =? b).
Proof.
  destruct (a =? b) eqn:E.
  - apply Z.eqb_eq in E. subst b. apply Qeq_bool_iff. reflexivity.
  - destruct (Qeq_bool (inject_Z a) (inject_Z b)) eqn:F; [ | reflexivity ].
    apply Qeq_bool_iff in F. apply -> inject_Z_injective in F.
    apply Z.eqb_neq in E. exfalso. exact (E F).
Qed.

(** Division of two integers, the divisor positive. *)
Lemma div_of_Z (a b : Z) :
  0 < b -> JS.div (JS.of_Z a) (JS.of_Z b) = JS.Fin (inject_Z a / inject_Z b).
Proof.
  intro Hb. unfold JS.div, JS.of_Z.
  change 0%Q with (inject_Z 0). rewrite Qeq_bool_inject_Z.
  destruct (b =? 0) eqn:E; [ lia | reflexivity ].
Qed.

Lemma Qltb_ratio (a b : Z) :
  0 < b -> JS.Qltb (inject_Z a / inject_Z b) 0 = (a <? 0).
Proof.
  intro Hb.
  assert (Hq : (0 < inject_Z b)%Q) by (change 0%Q with (inject_Z 0); rewrite <- Zlt_Qlt; lia).
  destruct (a <? 0) eqn:E.
  - apply Qltb_lt. apply Qlt_shift_div_r; [ exact Hq | ].
    rewrite Qmult_0_l. change 0%Q with (inject_Z 0). rewrite <- Zlt_Qlt. lia.
  - destruct (JS.Qltb _ 0) eqn:F; [ | reflexivity ].
    apply Qltb_lt in F.
    assert (0 <= inject_Z a / inject_Z b)%Q.
    { apply Qle_shift_div_l; [ exact Hq | ].
      rewrite Qmult_0_l. change 0%Q with (inject_Z 0). rewrite <- Zle_Qle. lia. }
    exfalso. exact (Qlt_not_le _ _ F H).
Qed.

Lemma Qfloor_unique (x : Q) (z : Z) :
  (inject_Z z <= x)%Q -> (x < inject_Z (z + 1))%Q -> Qfloor x = z.
Proof.
  intros Hlo Hhi.
  assert (H1 := Qfloor_le x). assert (H2 := Qlt_floor x).
  assert (A : (inject_Z z < inject_Z (Qfloor x + 1))%Q) by lra.
  assert (B : (inject_Z (Qfloor x) < inject_Z (z + 1))%Q) by lra.
  rewrite <- Zlt_Qlt in A, B. lia.
Qed.

Lemma Qabs_ratio (a b : Z) :
  0 < b -> (Qabs (inject_Z a / inject_Z b) * inject_Z b == inject_Z (Z.abs a))%Q.
Proof.
  intro Hb.
  assert (Hq : ~ (inject_Z b == 0)%Q).
  { change 0%Q with (inject_Z 0). rewrite inject_Z_injective. lia. }
  unfold Qdiv. rewrite Qabs_Qmult, Qabs_Qinv.
  assert (Ea : (Qabs (inject_Z a) == inject_Z (Z.abs a))%Q) by reflexivity.
  assert (Eb : (Qabs (inject_Z b) == inject_Z b)%Q).
  { apply Qabs_pos. change 0%Q with (inject_Z 0). rewrite <- Zle_Qle. lia. }
  rewrite Ea, Eb. field. exact Hq.
Qed.

Lemma Qltb_ratio_lt (a b c : Z) :
  0 < b -> JS.Qltb (inject_Z a / inject_Z b) (inject_Z c) = (a <? c * b).
Proof.
  intro Hb.
  assert (Hq : (0 < inject_Z b)%Q)
    by (change 0%Q with (inject_Z 0); rewrite <- Zlt_Qlt; lia).
  destruct (a <? c * b) eqn:E.
  - apply Qltb_lt. apply Qlt_shift_div_r; [ exact Hq | ].
    rewrite <- inject_Z_mult, <- Zlt_Qlt. lia.
  - destruct (JS.Qltb _ _) eqn:F; [ | reflexivity ].
    apply Qltb_lt in F.
    assert (inject_Z c <= inject_Z a / inject_Z b)%Q.
    { apply Qle_shift_div_l; [ exact Hq | ].
      rewrite <- inject_Z_mult, <- Zle_Qle. lia. }
    exfalso. exact (Qlt_not_le _ _ F H).
Qed.

(** The integer that [toFixed] prints for a ratio of integers. *)
Lemma nearest_ratio (f : nat) (a b : Z) :
  0 < b ->
  JS.nearest f (Qabs (inject_Z a / inject_Z b))
  = Z.to_N ((2 * Z.abs a * 10 ^ Z.of_nat f + b) / (2 * b)).
Proof.
  intro Hb. unfold JS.nearest. f_equal.
  rewrite Zdiv_Qdiv. apply Qfloor_comp.
  assert (Hq : ~ (inject_Z b == 0)%Q).
  { change 0%Q with (inject_Z 0). rewrite inject_Z_injective. lia. }
  unfold Qdiv at 1. rewrite Qabs_Qmult, Qabs_Qinv.
  assert (Ha : (Qabs (inject_Z a) == inject_Z (Z.abs a))%Q) by reflexivity.
  assert (Hb' : (Qabs (inject_Z b) == inject_Z b)%Q).
  { apply Qabs_pos. change 0%Q with (inject_Z 0). rewrite <- Zle_Qle. lia. }
  rewrite Ha, Hb'.
  rewrite !inject_Z_plus, !inject_Z_mult.
  change (inject_Z 2) with 2%Q.
  field. exact Hq.
Qed.

Lemma span_per_minute (a b k : Z) :
  k <> 0 ->
  ((inject_Z a - inject_Z b) / inject_Z k / inject_Z 60
   == inject_Z (a - b) / inject_Z (60 * k))%Q.
Proof.
  intro Hk.
  assert (Hq : ~ (inject_Z k == 0)%Q).
  { change 0%Q with (inject_Z 0). rewrite inject_Z_injective. exact Hk. }
  replace (a - b) with (a + - b) by lia.
  rewrite inject_Z_plus, inject_Z_opp, inject_Z_mult.
  field. exact Hq.
Qed.

(** [toFixed] of a finite number that is the ratio of two integers. *)
Lemma toFixed_ratio (f : nat) (q : Q) (a b : Z) :
  0 < b ->
  (q == inject_Z a / inject_Z b)%Q ->
  JS.toFixed f (JS.Fin q)
  = JS.sign (a <? 0)
    ++ JS.decimal f (Z.to_N ((2 * Z.abs a * 10 ^ Z.of_nat f + b) / (2 * b))).
Proof.
  intros Hb E. unfold JS.toFixed.
  assert (Es : JS.Qltb q 0 = JS.Qltb (inject_Z a / inject_Z b) 0).
  { unfold JS.Qltb. rewrite E. reflexivity. }
  assert (En : JS.nearest f (Qabs q)
               = JS.nearest f (Qabs (inject_Z a / inject_Z b))).
  { unfold JS.nearest. f_equal. apply Qfloor_comp. rewrite E. reflexivity. }
  rewrite Es, En, Qltb_ratio, nearest_ratio by exact Hb. reflexivity.
Qed.

Lemma nearest_bounds (A b : Z) :
  0 <= A -> 0 < b ->
  let n := (2 * A + b) / (2 * b) in
  0 <= n /\ - b <= 2 * (A - n * b) < b.
Proof.
  intros HA Hb n.
  assert (H := Z.div_mod (2 * A + b) (2 * b) ltac:(lia)).
  assert (R := Z.mod_pos_bound (2 * A + b) (2 * b) ltac:(lia)).
  fold n in H.
  split; [ apply Z.div_pos; lia | nia ].
Qed.

(** The printed integer is a nearest one: [n / 10^f] is within half a unit
    of the last place of [|a| / b]. *)
Lemma nearest_is_nearest (f : nat) (a b : Z) :
  0 < b ->
  let n := Z.to_N ((2 * Z.abs a * 10 ^ Z.of_nat f + b) / (2 * b)) in
  - b <= 2 * (Z.abs a * 10 ^ Z.of_nat f - Z.of_N n * b) <= b.
Proof.
  intros Hb n.
  assert (Hp : 0 < 10 ^ Z.of_nat f) by (apply Z.pow_pos_nonneg; lia).
  destruct (nearest_bounds (Z.abs a * 10 ^ Z.of_nat f) b ltac:(nia) Hb) as [H0 H1].
  subst n.
  replace (2 * Z.abs a * 10 ^ Z.of_nat f) with (2 * (Z.abs a * 10 ^ Z.of_nat f))
    by ring.
  rewrite Z2N.id by exact H0. lia.
Qed.

(** [satsToBtc] loses nothing: it prints the integer amount with the
    point moved eight places. *)
Lemma satsToBtc_exact (sats : Z) :
  satsToBtc sats
  = JS.sign (sats <? 0) ++ JS.decimal 8 (Z.abs_N sats).
Proof.
  unfold satsToBtc. rewrite div_of_Z by lia.
  unfold JS.toFixed. rewrite Qltb_ratio by lia. rewrite nearest_ratio by lia.
  do 2 f_equal.
  replace ((2 * Z.abs sats * 10 ^ Z.of_nat 8 + 100000000) / (2 * 100000000))
    with (Z.abs sats).
  - unfold Z.abs_N. destruct sats; reflexivity.
  - apply Z.div_unique with (r := 100000000); [ lia | ].
    change (10 ^ Z.of_nat 8) with 100000000. lia.
Qed.

Lemma satsToBtc_btc_decimal (sats : Z) : satsToBtc sats = btc_decimal sats.
Proof. rewrite satsToBtc_exact. reflexivity. Qed.

Lemma satsToBtc_of_N (n : N) : satsToBtc (Z.of_N n) = JS.decimal 8 n.
Proof.
  rewrite satsToBtc_exact.
  replace (Z.of_N n <? 0) with false by (symmetry; apply Z.ltb_ge; lia).
  rewrite Zabs2N.id. reflexivity.
Qed.


(** The decimals that [toFixed] prints: exactly [f] digits, and they denote
    the low part of the printed integer. *)
Lemma string_length_app (s t : string) :
  String.length (s ++ t) = (String.length s + String.length t)%nat.
Proof.
  induction s as [ | c s IH ]; cbn; [ reflexivity | rewrite IH; reflexivity ].
Qed.

Lemma fixed_digits_length (f : nat) (n : N) :
  String.length (JS.fixed_digits f n) = f.
Proof.
  revert n. induction f as [ | f IH ]; intro n; cbn [JS.fixed_digits].
  - reflexivity.
  - rewrite string_length_app, IH. cbn. lia.
Qed.

Lemma digits_value_app (s t : string) (acc : N) :
  digits_value (s ++ t) acc = digits_value t (digits_value s acc).
Proof.
  revert acc. induction s as [ | c s IH ]; intro acc; cbn; [ reflexivity | apply IH ].
Qed.

Lemma digit_value (d : N) : (d < 10)%N -> (N_of_ascii (JS.digit d) - 48 = d)%N.
Proof.
  intro H. unfold JS.digit. rewrite N_ascii_embedding by lia. lia.
Qed.

Lemma fixed_digits_value (f : nat) (n : N) :
  digits_value (JS.fixed_digits f n) 0 = (n mod 10 ^ N.of_nat f)%N.
Proof.
  revert n. induction f as [ | f IH ]; intro n; cbn [JS.fixed_digits].
  - cbn. rewrite N.mod_1_r. reflexivity.
  - rewrite digits_value_app, IH. cbn [digits_value].
    rewrite digit_value by (apply N.mod_upper_bound; lia).
    rewrite Nat2N.inj_succ, N.pow_succ_r'.
    rewrite N.Div0.mod_mul_r. lia.
Qed.

End Numbers.

(** ** Reading printed numbers back *)

Section Printing.

Lemma decimal_value_app (s t : string) (acc : N) :
  decimal_value (s ++ t) acc = decimal_value t (decimal_value s acc).
Proof.
  revert acc. induction s as [ | c s IH ]; intro acc; cbn; [ reflexivity | ].
  destruct (Ascii.eqb c "."); apply IH.
Qed.

Lemma digit_not_point (d : N) : (d < 10)%N -> Ascii.eqb (JS.digit d) "." = false.
Proof.
  intro H. apply Ascii.eqb_neq. intro E.
  apply (f_equal N_of_ascii) in E. unfold JS.digit in E.
  rewrite N_ascii_embedding in E by lia.
  change (N_of_ascii ".") with 46%N in E. lia.
Qed.

Lemma decimal_value_fixed_digits (f : nat) (n acc : N) :
  decimal_value (JS.fixed_digits f n) acc
  = (acc * 10 ^ N.of_nat f + n mod 10 ^ N.of_nat f)%N.
Proof.
  revert n acc. induction f as [ | f IH ]; intros n acc; cbn [JS.fixed_digits].
  - cbn [decimal_value]. change (N.of_nat 0) with 0%N.
    rewrite N.pow_0_r, N.mod_1_r. lia.
  - rewrite decimal_value_app, IH. cbn [decimal_value].
    rewrite digit_not_point by (apply N.mod_upper_bound; lia).
    rewrite digit_value by (apply N.mod_upper_bound; lia).
    rewrite Nat2N.inj_succ, N.pow_succ_r by lia.
    assert (P : (0 < 10 ^ N.of_nat f)%N) by (apply N.neq_0_lt_0, N.pow_nonzero; lia).
    rewrite N.Div0.mod_mul_r.
    generalize dependent (10 ^ N.of_nat f)%N. intros p _ _.
    generalize ((n / 10) mod p)%N (n mod 10)%N. intros. lia.
Qed.

Lemma decimal_value_uint_acc (d : Decimal.uint) (acc : positive) :
  decimal_value (NilEmpty.string_of_uint d) (N.pos acc)
  = N.pos (Pos.of_uint_acc d acc).
Proof.
  revert acc. induction d; intro acc; cbn [NilEmpty.string_of_uint decimal_value Pos.of_uint_acc];
    [ reflexivity | .. ];
    (match goal with |- context [Ascii.eqb ?c "."] => change (Ascii.eqb c ".") with false end);
    cbv iota; rewrite <- IHd; f_equal.
  all: match goal with
       | |- context [N_of_ascii ?c] =>
           let v := eval vm_compute in (N_of_ascii c) in
           change (N_of_ascii c) with v
       end; lia.
Qed.

Lemma decimal_value_uint (d : Decimal.uint) :
  decimal_value (NilEmpty.string_of_uint d) 0 = N.of_uint d.
Proof.
  unfold N.of_uint.
  induction d; cbn [NilEmpty.string_of_uint decimal_value Pos.of_uint];
    [ reflexivity | exact IHd | .. ];
    (match goal with |- context [Ascii.eqb ?c "."] => change (Ascii.eqb c ".") with false end);
    cbv iota; rewrite <- decimal_value_uint_acc; f_equal.
Qed.

Lemma string_of_N_digits (n : N) :
  JS.string_of_N n = NilEmpty.string_of_uint (N.to_uint n).
Proof.
  unfold JS.string_of_N, NilZero.string_of_uint.
  destruct (N.to_uint n) eqn:E; try reflexivity.
  exfalso. destruct n as [ | p ]; [ discriminate | ].
  cbn in E. exact (DecimalPos.Unsigned.to_uint_nonnil p E).
Qed.

Lemma decimal_value_string_of_N (n : N) :
  decimal_value (JS.string_of_N n) 0 = n.
Proof.
  rewrite string_of_N_digits, decimal_value_uint. apply DecimalN.Unsigned.of_to.
Qed.

Lemma string_of_N_head (n : N) (t : string) :
  exists c r, JS.string_of_N n ++ t = String c r /\ Ascii.eqb c "-" = false.
Proof.
  rewrite string_of_N_digits.
  destruct (N.to_uint n) eqn:E; cbn [NilEmpty.string_of_uint append];
    try (eexists _, _; split; reflexivity).
  exfalso. destruct n as [ | p ]; [ discriminate | ].
  cbn in E. exact (DecimalPos.Unsigned.to_uint_nonnil p E).
Qed.

Lemma number_of_string_sign (negative : bool) (s : string) :
  (exists c r, s = String c r /\ Ascii.eqb c "-" = false) ->
  number_of_string (JS.sign negative ++ s)
  = if negative then - Z.of_N (decimal_value s 0) else Z.of_N (decimal_value s 0).
Proof.
  intros (c & r & -> & Hc). destruct negative; cbn [JS.sign append].
  - reflexivity.
  - unfold number_of_string. rewrite Hc. reflexivity.
Qed.

Lemma decimal_value_decimal (f : nat) (n : N) :
  decimal_value (JS.decimal f n) 0 = n.
Proof.
  unfold JS.decimal. destruct f as [ | f ]; [ apply decimal_value_string_of_N | ].
  rewrite decimal_value_app, decimal_value_string_of_N.
  cbn [append decimal_value]. change (Ascii.eqb "." ".") with true. cbv iota.
  rewrite decimal_value_fixed_digits, N.Div0.mod_mod.
  rewrite N.mul_comm. symmetry. apply N.Div0.div_mod.
Qed.

Lemma decimal_head (f : nat) (n : N) :
  exists c r, JS.decimal f n = String c r /\ Ascii.eqb c "-" = false.
Proof.
  unfold JS.decimal. destruct f as [ | f ].
  - destruct (string_of_N_head n EmptyString) as (c & r & E & Hc).
    exists c, r. split; [ | exact Hc ]. rewrite <- E.
    clear. induction (JS.string_of_N n) as [ | a s IH ]; cbn; [ reflexivity | ].
    rewrite <- IH. reflexivity.
  - apply string_of_N_head.
Qed.

Lemma number_of_satsToBtc (sats : Z) : number_of_string (satsToBtc sats) = sats.
Proof.
  rewrite satsToBtc_exact, number_of_string_sign by apply decimal_head.
  rewrite decimal_value_decimal.
  destruct (sats <? 0) eqn:E; [ apply Z.ltb_lt in E | apply Z.ltb_ge in E ];
    rewrite N2Z.inj_abs_N; lia.
Qed.

End Printing.

(** ** The shape of printed numbers *)

Section Shapes.

Lemma is_digit_digit (d : N) : (d < 10)%N -> is_digit (JS.digit d) = true.
Proof.
  intro H. unfold is_digit, JS.digit. rewrite N_ascii_embedding by lia.
  apply andb_true_iff. split; apply N.leb_le; lia.
Qed.

Lemma is_digit_not_point (c : ascii) : is_digit c = true -> Ascii.eqb c "." = false.
Proof.
  unfold is_digit. intro H. apply andb_true_iff in H. destruct H as [H _].
  apply N.leb_le in H. apply Ascii.eqb_neq. intros ->.
  change (N_of_ascii ".") with 46%N in H. lia.
Qed.

Lemma is_digit_not_minus (c : ascii) : is_digit c = true -> Ascii.eqb c "-" = false.
Proof.
  unfold is_digit. intro H. apply andb_true_iff in H. destruct H as [H _].
  apply N.leb_le in H. apply Ascii.eqb_neq. intros ->.
  change (N_of_ascii "-") with 45%N in H. lia.
Qed.

Lemma all_digits_fixed_digits (f : nat) (n : N) :
  all_digits (JS.fixed_digits f n) = true.
Proof.
  revert n. induction f as [ | f IH ]; intro n; cbn [JS.fixed_digits];
    [ reflexivity | ].
  specialize (IH (n / 10)%N).
  induction (JS.fixed_digits f (n / 10)) as [ | c s IHs ]; cbn [append all_digits].
  - rewrite is_digit_digit by (apply N.mod_upper_bound; lia). reflexivity.
  - cbn [all_digits] in IH. apply andb_true_iff in IH. destruct IH as [Hc Hs].
    rewrite Hc. exact (IHs Hs).
Qed.

Lemma all_digits_uint (d : Decimal.uint) :
  all_digits (NilEmpty.string_of_uint d) = true.
Proof.
  induction d; cbn [NilEmpty.string_of_uint all_digits];
    [ reflexivity | .. ]; exact IHd.
Qed.

Lemma all_digits_string_of_N (n : N) : all_digits (JS.string_of_N n) = true.
Proof. rewrite string_of_N_digits. apply all_digits_uint. Qed.

Lemma digits_point_app (f : nat) (w r : string) :
  all_digits w = true ->
  digits_point f (w ++ String "." r)
  = Nat.eqb (String.length r) f && all_digits r.
Proof.
  induction w as [ | c w IH ]; cbn [append digits_point all_digits]; intro H.
  - reflexivity.
  - apply andb_true_iff in H. destruct H as [Hc Hw].
    rewrite (is_digit_not_point c Hc), Hc. exact (IH Hw).
Qed.

Lemma append_empty (s : string) : s ++ EmptyString = s.
Proof.
  induction s as [ | a s IH ]; cbn; [ reflexivity | rewrite IH; reflexivity ].
Qed.

Lemma unsigned_fixed_decimal (f : nat) (n : N) :
  unsigned_fixed (S f) (JS.decimal (S f) n) = true.
Proof.
  unfold JS.decimal.
  assert (Hw := all_digits_string_of_N (n / 10 ^ N.of_nat (S f))).
  destruct (string_of_N_head (n / 10 ^ N.of_nat (S f)) EmptyString)
    as (c & t & E & _).
  rewrite append_empty in E. rewrite E in Hw |- *.
  change ((String c t) ++ "." ++ JS.fixed_digits (S f) (n mod 10 ^ N.of_nat (S f)))
    with ((String c t)
          ++ String "." (JS.fixed_digits (S f) (n mod 10 ^ N.of_nat (S f)))).
  unfold unsigned_fixed.
  rewrite digits_point_app by exact Hw.
  rewrite fixed_digits_length, Nat.eqb_refl, all_digits_fixed_digits.
  cbn [append]. cbn [all_digits] in Hw. apply andb_true_iff in Hw.
  rewrite (proj1 Hw). reflexivity.
Qed.

Lemma is_fixed_signed (f : nat) (negative : bool) (n : N) :
  is_fixed (S f) (JS.sign negative ++ JS.decimal (S f) n) = true.
Proof.
  assert (U := unsigned_fixed_decimal f n).
  destruct negative; cbn [JS.sign append].
  - exact U.
  - unfold is_fixed. destruct (JS.decimal (S f) n) as [ | c r ] eqn:E;
      [ discriminate | ].
    unfold unsigned_fixed in U. apply andb_true_iff in U.
    rewrite (is_digit_not_minus c (proj1 U)).
    unfold unsigned_fixed. apply andb_true_iff. exact U.
Qed.

End Shapes.

(** ** The printed quotients under the rounding of doubles

    The source rounds every quotient to a double before it prints or compares
    it.  Let [fl] be any rounding that is monotone, exact on the integers up
    to 2^53 and, on magnitudes between 1e-30 and 1e30, off by at most half a
    unit in the last place, as the rounding of doubles is.  With the
    quotients rounded by [fl] the amounts print exactly as in the exact
    model, the virtual size is the same, the fee rate and the average block
    time are still a nearest value of their last place, the value in
    dollars is off by at most four units in the last place of a double more
    than half a cent, and the recency test decides the same. *)

Section Rounding.

Variable fl : Q -> Q.
Hypothesis fl_mono : forall p q : Q, (p <= q)%Q -> (fl p <= fl q)%Q.
Hypothesis fl_exact :
  forall z : Z, Z.abs z <= 2 ^ 53 -> (fl (inject_Z z) == inject_Z z)%Q.
Hypothesis fl_error :
  forall q, in_range q -> (Qabs (fl q - q) <= Qabs q * half_ulp)%Q.

Lemma fl_comp (p q : Q) : (p == q)%Q -> (fl p == fl q)%Q.
Proof.
  intro E. apply Qle_antisym; apply fl_mono; rewrite E; apply Qle_refl.
Qed.

Lemma fl_zero (q : Q) : (q == 0)%Q -> (fl q == 0)%Q.
Proof.
  intro E. rewrite (fl_comp _ _ E). apply (fl_exact 0). discriminate.
Qed.

(** A ratio of integers below 2^53 is in range. *)
Lemma ratio_bounds (a b : Z) :
  0 < b <= 2 ^ 53 -> 0 < Z.abs a <= 2 ^ 53 ->
  ((1 # 9007199254740992) <= Qabs (inject_Z a / inject_Z b)
   <= (9007199254740992 # 1))%Q.
Proof.
  intros Hb Ha.
  assert (B0 : (inject_Z 1 <= inject_Z b)%Q) by (rewrite <- Zle_Qle; lia).
  assert (B1 : (inject_Z b <= inject_Z (2 ^ 53))%Q) by (rewrite <- Zle_Qle; lia).
  assert (A0 : (inject_Z 1 <= inject_Z (Z.abs a))%Q) by (rewrite <- Zle_Qle; lia).
  assert (A1 : (inject_Z (Z.abs a) <= inject_Z (2 ^ 53))%Q)
    by (rewrite <- Zle_Qle; lia).
  change (inject_Z (2 ^ 53)) with (9007199254740992 # 1)%Q in B1, A1.
  change (inject_Z 1) with 1%Q in B0, A0.
  assert (E := Qabs_ratio a b ltac:(lia)).
  set (y := Qabs (inject_Z a / inject_Z b)) in *.
  assert (Y0 : (0 <= y)%Q) by apply Qabs_nonneg.
  split.
  - (* y b >= 1 and b <= 2^53 *)
    apply Qnot_lt_le. intro C.
    assert (D : (y * inject_Z b < (1 # 9007199254740992) * inject_Z b)%Q)
      by (apply Qmult_lt_compat_r; lra).
    lra.
  - (* y b <= 2^53 and b >= 1 *)
    assert (D : (1 * y <= inject_Z b * y)%Q)
      by (apply Qmult_le_compat_r; lra).
    lra.
Qed.

Lemma ratio_in_range (a b : Z) :
  0 < b <= 2 ^ 53 -> Z.abs a <= 2 ^ 53 -> in_range (inject_Z a / inject_Z b).
Proof.
  intros Hb Ha.
  destruct (Z.eq_dec a 0) as [-> | Hnz].
  - left. unfold Qdiv. change (inject_Z 0) with 0%Q. ring.
  - right. assert (B := ratio_bounds a b Hb ltac:(lia)). split; lra.
Qed.

Lemma rounded_bounds (q : Q) :
  in_range q ->
  (Qabs q - Qabs q * half_ulp <= Qabs (fl q) <= Qabs q + Qabs q * half_ulp)%Q.
Proof.
  intro R. assert (E := fl_error q R).
  assert (T1 := Qabs_triangle_reverse (fl q) q).
  assert (T2 := Qabs_triangle_reverse q (fl q)).
  rewrite (Qabs_Qminus q (fl q)) in T2.
  split; lra.
Qed.

(** Rounding keeps the sign. *)
Lemma rounded_sign (q : Q) : in_range q -> JS.Qltb (fl q) 0 = JS.Qltb q 0.
Proof.
  intro R. assert (E := fl_error q R). apply Qabs_Qle_condition in E.
  assert (P := Qabs_nonneg q). unfold half_ulp in E.
  destruct (JS.Qltb q 0) eqn:Hq.
  - apply Qltb_lt in Hq. apply Qltb_lt.
    assert (A : (Qabs q == - q)%Q) by (apply Qabs_neg; lra).
    lra.
  - destruct (JS.Qltb (fl q) 0) eqn:Hf; [ | reflexivity ].
    apply Qltb_lt in Hf.
    assert (Hq' : (0 <= q)%Q).
    { apply Qnot_lt_le. intro C. apply Qltb_lt in C. congruence. }
    assert (A : (Qabs q == q)%Q) by (apply Qabs_pos; exact Hq').
    lra.
Qed.

(** The error of a rounded value, scaled by a positive [d]. *)
Lemma rounded_scaled (q d a : Q) :
  in_range q -> (0 < d)%Q -> (Qabs q * d == a)%Q ->
  (Qabs (Qabs (fl q) * d - a) <= a * half_ulp)%Q.
Proof.
  intros R Hd Ha. assert (B := rounded_bounds q R).
  apply Qabs_Qle_condition. rewrite <- Ha.
  split.
  - setoid_replace (Qabs (fl q) * d - Qabs q * d)%Q
      with ((Qabs (fl q) - Qabs q) * d)%Q by ring.
    setoid_replace (- (Qabs q * d * half_ulp))%Q
      with ((- (Qabs q * half_ulp)) * d)%Q by ring.
    apply Qmult_le_compat_r; lra.
  - setoid_replace (Qabs (fl q) * d - Qabs q * d)%Q
      with ((Qabs (fl q) - Qabs q) * d)%Q by ring.
    setoid_replace (Qabs q * d * half_ulp)%Q
      with ((Qabs q * half_ulp) * d)%Q by ring.
    apply Qmult_le_compat_r; lra.
Qed.

(** If [y] is [a / d] up to the relative error [eta], small against the
    last place printed, [toFixed] still prints a nearest integer. *)
Lemma nearest_robust (f : nat) (y eta : Q) (a d : Z) :
  0 <= a -> 0 < d -> (0 <= y)%Q ->
  (Qabs (y * inject_Z d - inject_Z a) <= inject_Z a * eta)%Q ->
  (inject_Z (2 * 10 ^ Z.of_nat f * a) * eta < 1)%Q ->
  - d <= 2 * (a * 10 ^ Z.of_nat f - Z.of_N (JS.nearest f y) * d) <= d.
Proof.
  intros Ha Hd Hy Herr Hsmall.
  unfold JS.nearest.
  set (P := 10 ^ Z.of_nat f) in *.
  assert (HP : 0 < P) by (apply Z.pow_pos_nonneg; lia).
  set (k := Qfloor (y * inject_Z P + (1 # 2))).
  assert (K1 : (inject_Z k <= y * inject_Z P + (1 # 2))%Q) by apply Qfloor_le.
  assert (K2 : (y * inject_Z P + (1 # 2) < inject_Z (k + 1))%Q) by apply Qlt_floor.
  rewrite inject_Z_plus in K2. change (inject_Z 1) with 1%Q in K2.
  assert (P0 : (0 < inject_Z P)%Q).
  { change 0%Q with (inject_Z 0). rewrite <- Zlt_Qlt. exact HP. }
  assert (V0 : (0 < inject_Z d)%Q).
  { change 0%Q with (inject_Z 0). rewrite <- Zlt_Qlt. exact Hd. }
  assert (YP : (0 <= y * inject_Z P)%Q) by (apply Qmult_le_0_compat; lra).
  assert (Hk : 0 <= k).
  { assert (A : (inject_Z (-1) < inject_Z k)%Q)
      by (change (inject_Z (-1)) with (-1 # 1)%Q; lra).
    rewrite <- Zlt_Qlt in A. lia. }
  rewrite Z2N.id by exact Hk.
  apply Qabs_Qle_condition in Herr.
  set (W := (y * inject_Z d)%Q) in *.
  set (E := (inject_Z a * eta)%Q) in *.
  (* the bounds of the floor, times [d] *)
  assert (A1 : (inject_Z (k * d) <= inject_Z P * W + (1 # 2) * inject_Z d)%Q).
  { rewrite inject_Z_mult. unfold W.
    setoid_replace (inject_Z P * (y * inject_Z d) + (1 # 2) * inject_Z d)%Q
      with ((y * inject_Z P + (1 # 2)) * inject_Z d)%Q by ring.
    apply Qmult_le_compat_r; [ exact K1 | lra ]. }
  assert (A2 : (inject_Z P * W + (1 # 2) * inject_Z d
                < inject_Z (k * d) + inject_Z d)%Q).
  { rewrite inject_Z_mult. unfold W.
    setoid_replace (inject_Z P * (y * inject_Z d) + (1 # 2) * inject_Z d)%Q
      with ((y * inject_Z P + (1 # 2)) * inject_Z d)%Q by ring.
    setoid_replace (inject_Z k * inject_Z d + inject_Z d)%Q
      with ((inject_Z k + 1) * inject_Z d)%Q by ring.
    apply Qmult_lt_compat_r; [ exact V0 | exact K2 ]. }
  (* the error of [y], times [P] *)
  assert (B1 : (inject_Z (a * P) - inject_Z P * E <= inject_Z P * W)%Q).
  { rewrite inject_Z_mult.
    setoid_replace (inject_Z a * inject_Z P - inject_Z P * E)%Q
      with (inject_Z P * (inject_Z a - E))%Q by ring.
    apply Qmult_le_l; [ exact P0 | lra ]. }
  assert (B2 : (inject_Z P * W <= inject_Z (a * P) + inject_Z P * E)%Q).
  { rewrite inject_Z_mult.
    setoid_replace (inject_Z a * inject_Z P + inject_Z P * E)%Q
      with (inject_Z P * (inject_Z a + E))%Q by ring.
    apply Qmult_le_l; [ exact P0 | lra ]. }
  assert (S1 : ((2 # 1) * (inject_Z P * E) < 1)%Q).
  { setoid_replace ((2 # 1) * (inject_Z P * E))%Q
      with (inject_Z (2 * P * a) * eta)%Q; [ exact Hsmall | ].
    unfold E. rewrite !inject_Z_mult. change (inject_Z 2) with (2 # 1)%Q. ring. }
  assert (R1 : (inject_Z (2 * (a * P - k * d)) < inject_Z (d + 1))%Q).
  { rewrite inject_Z_mult, inject_Z_plus. unfold Z.sub.
    rewrite inject_Z_plus, inject_Z_opp.
    change (inject_Z 2) with (2 # 1)%Q. change (inject_Z 1) with 1%Q. lra. }
  assert (R2 : (inject_Z (2 * (k * d - a * P)) < inject_Z (d + 1))%Q).
  { rewrite inject_Z_mult, inject_Z_plus. unfold Z.sub.
    rewrite inject_Z_plus, inject_Z_opp.
    change (inject_Z 2) with (2 # 1)%Q. change (inject_Z 1) with 1%Q. lra. }
  rewrite <- Zlt_Qlt in R1, R2. lia.
Qed.

(** [satsToBtc] with the quotient rounded: amounts below 2^52 sats, more
    than twice the coins that can exist, print exactly. *)
Lemma satsToBtc_rounded (sats : Z) :
  Z.abs sats < 2 ^ 52 ->
  JS.toFixed 8 (JS.Fin (fl (inject_Z sats / inject_Z 100000000)))
  = btc_decimal sats.
Proof.
  intro Hs.
  assert (R : in_range (inject_Z sats / inject_Z 100000000))
    by (apply ratio_in_range; lia).
  unfold JS.toFixed.
  rewrite (rounded_sign _ R), Qltb_ratio by lia.
  change (btc_decimal sats)
    with (JS.sign (sats <? 0) ++ JS.decimal 8 (Z.abs_N sats)).
  do 2 f_equal. unfold JS.nearest.
  replace (Z.abs_N sats) with (Z.to_N (Z.abs sats)) by (destruct sats; reflexivity).
  f_equal.
  set (q := (inject_Z sats / inject_Z 100000000)%Q) in *.
  assert (B := rounded_scaled q (inject_Z 100000000) (inject_Z (Z.abs sats))
                 R ltac:(reflexivity) (Qabs_ratio sats 100000000 ltac:(lia))).
  apply Qabs_Qle_condition in B.
  assert (S0 : (0 <= inject_Z (Z.abs sats))%Q).
  { change 0%Q with (inject_Z 0). rewrite <- Zle_Qle. lia. }
  assert (S1 : (inject_Z (Z.abs sats) < inject_Z (2 ^ 52))%Q).
  { rewrite <- Zlt_Qlt. exact Hs. }
  change (inject_Z (2 ^ 52)) with (4503599627370496 # 1)%Q in S1.
  change (inject_Z (10 ^ Z.of_nat 8)) with (inject_Z 100000000).
  unfold half_ulp in B.
  apply Qfloor_unique.
  - lra.
  - rewrite inject_Z_plus. change (inject_Z 1) with 1%Q. lra.
Qed.


Lemma Qltb_sixtieth (x : Q) : JS.Qltb (x / inject_Z 60) 0 = JS.Qltb x 0.
Proof.
  destruct (JS.Qltb x 0) eqn:Hx.
  - apply Qltb_lt in Hx. apply Qltb_lt.
    apply Qlt_shift_div_r; [ reflexivity | lra ].
  - destruct (JS.Qltb (x / inject_Z 60) 0) eqn:Hy; [ | reflexivity ].
    apply Qltb_lt in Hy.
    assert (0 <= x)%Q.
    { apply Qnot_lt_le. intro C. apply Qltb_lt in C. congruence. }
    assert (0 <= x / inject_Z 60)%Q
      by (apply Qle_shift_div_l; [ reflexivity | lra ]).
    lra.
Qed.

(** The first quotient of the average, rounded, and its sixtieth are in
    range. *)
Lemma sixtieth_in_range (span k : Z) :
  0 < k <= 2 ^ 53 -> Z.abs span <= 2 ^ 53 ->
  in_range (fl (inject_Z span / inject_Z k) / inject_Z 60).
Proof.
  intros Hk Hs.
  destruct (Z.eq_dec span 0) as [-> | Hnz].
  - left. rewrite (fl_zero (inject_Z 0 / inject_Z k)).
    + reflexivity.
    + unfold Qdiv. change (inject_Z 0) with 0%Q. ring.
  - right.
    assert (R := ratio_bounds span k Hk ltac:(lia)).
    assert (B := rounded_bounds _ (ratio_in_range span k Hk Hs)).
    set (q := (inject_Z span / inject_Z k)%Q) in *.
    assert (E60 : (Qabs (fl q / inject_Z 60) * (60 # 1) == Qabs (fl q))%Q).
    { unfold Qdiv. rewrite Qabs_Qmult, Qabs_Qinv.
      change (Qabs (inject_Z 60)) with (60 # 1)%Q. field. }
    unfold half_ulp in B. split; lra.
Qed.

(** The average block time with both quotients rounded: for spans below
    2^47 seconds it is still a nearest number of tenths of a minute. *)
Lemma average_block_time_rounded (span k : Z) :
  0 < k <= 2 ^ 53 -> 60 * Z.abs span < 2 ^ 53 ->
  exists n : N,
    JS.toFixed 1 (JS.Fin (fl (fl (inject_Z span / inject_Z k) / inject_Z 60)))
    = JS.sign (span <? 0) ++ JS.decimal 1 n
    /\ - (6 * k) <= 2 * (Z.abs span - Z.of_N n * (6 * k)) <= 6 * k.
Proof.
  intros Hk Hsmall.
  assert (R1 : in_range (inject_Z span / inject_Z k))
    by (apply ratio_in_range; lia).
  assert (R2 := sixtieth_in_range span k Hk ltac:(lia)).
  set (x := fl (inject_Z span / inject_Z k)) in *.
  set (y := fl (x / inject_Z 60)).
  exists (JS.nearest 1 (Qabs y)). split.
  - unfold JS.toFixed, y. rewrite (rounded_sign _ R2), Qltb_sixtieth.
    unfold x. rewrite (rounded_sign _ R1), Qltb_ratio by lia. reflexivity.
  - assert (K0 : (0 < inject_Z k)%Q).
    { change 0%Q with (inject_Z 0). rewrite <- Zlt_Qlt. lia. }
    assert (S0 : (0 <= inject_Z (Z.abs span))%Q).
    { change 0%Q with (inject_Z 0). rewrite <- Zle_Qle. lia. }
    (* the first quotient, times [k] *)
    assert (B1 := rounded_scaled (inject_Z span / inject_Z k) (inject_Z k)
                    (inject_Z (Z.abs span)) R1 K0 (Qabs_ratio span k ltac:(lia))).
    fold x in B1. apply Qabs_Qle_condition in B1.
    (* the second quotient, times [60 k] *)
    assert (E2 : (Qabs (x / inject_Z 60) * inject_Z (60 * k)
                  == Qabs x * inject_Z k)%Q).
    { unfold Qdiv. rewrite Qabs_Qmult, Qabs_Qinv, inject_Z_mult.
      change (Qabs (inject_Z 60)) with (inject_Z 60). field. }
    assert (K60 : (0 < inject_Z (60 * k))%Q).
    { change 0%Q with (inject_Z 0). rewrite <- Zlt_Qlt. lia. }
    assert (B2 := rounded_scaled (x / inject_Z 60) (inject_Z (60 * k))
                    (Qabs x * inject_Z k) R2 K60 E2).
    fold y in B2. apply Qabs_Qle_condition in B2.
    assert (R := nearest_robust 1 (Qabs y) (3 # 9007199254740992)
                   (Z.abs span) (60 * k) ltac:(lia) ltac:(lia) (Qabs_nonneg _)).
    change (10 ^ Z.of_nat 1) with 10 in R.
    assert (S1 : (inject_Z (2 * 10 * Z.abs span) < inject_Z (2 ^ 53 / 3))%Q)
      by (rewrite <- Zlt_Qlt; change (2 ^ 53 / 3) with 3002399751580330; lia).
    change (inject_Z (2 ^ 53 / 3)) with (3002399751580330 # 1)%Q in S1.
    unfold half_ulp in B1, B2.
    assert (R' := R ltac:(apply Qabs_Qle_condition; split; lra) ltac:(lra)).
    lia.
Qed.

Lemma Qltb_comp (a a' b : Q) : (a == a')%Q -> JS.Qltb a b = JS.Qltb a' b.
Proof. intro E. unfold JS.Qltb. rewrite E. reflexivity. Qed.

(** The comparison of the recency test with the quotient and the
    difference rounded: it decides as in the exact model. *)
Lemma recent_comparison_rounded (now : Z) (t : N) :
  0 <= now < 2 ^ 50 -> Z.of_N t < 2 ^ 50 ->
  JS.Qltb (fl (fl (inject_Z now / inject_Z 1000) - inject_Z (Z.of_N t)))
    (inject_Z (86400 * 30)) = true
  <-> within_30_days now t.
Proof.
  intros Hnow Ht. unfold within_30_days.
  set (s := Z.of_N t) in *. assert (Hs : 0 <= s) by (unfold s; lia).
  assert (Hdiv := Z.div_mod now 1000 ltac:(lia)).
  assert (Hmod := Z.mod_pos_bound now 1000 ltac:(lia)).
  set (m := now / 1000) in *. set (r := now mod 1000) in *.
  destruct (Z.eq_dec r 0) as [Hr | Hr].
  - (* whole seconds: both operations are exact *)
    assert (E1 : (inject_Z now / inject_Z 1000 == inject_Z m)%Q).
    { replace now with (1000 * m) by lia. rewrite inject_Z_mult. field. }
    assert (X : (fl (inject_Z now / inject_Z 1000) == inject_Z m)%Q).
    { rewrite (fl_comp _ _ E1). apply fl_exact. lia. }
    assert (E2 : (fl (inject_Z now / inject_Z 1000) - inject_Z s
                  == inject_Z (m - s))%Q).
    { rewrite X. unfold Z.sub. rewrite inject_Z_plus, inject_Z_opp. ring. }
    assert (Y : (fl (fl (inject_Z now / inject_Z 1000) - inject_Z s)
                 == inject_Z (m - s))%Q).
    { rewrite (fl_comp _ _ E2). apply fl_exact. lia. }
    rewrite (Qltb_comp _ _ _ Y), Qltb_lt, <- Zlt_Qlt. lia.
  - (* a fraction of a second: the difference is at least 7/8 ms away from
       the threshold, on whose two sides [fl] is nearly exact *)
    assert (R : in_range (inject_Z now / inject_Z 1000))
      by (apply ratio_in_range; lia).
    set (e := (inject_Z now / inject_Z 1000)%Q) in *.
    set (x := fl e).
    set (y := fl (x - inject_Z s)).
    assert (N0 : (0 <= inject_Z now)%Q).
    { change 0%Q with (inject_Z 0). rewrite <- Zle_Qle. lia. }
    assert (N1 : (inject_Z now < inject_Z (2 ^ 50))%Q)
      by (rewrite <- Zlt_Qlt; lia).
    change (inject_Z (2 ^ 50)) with (1125899906842624 # 1)%Q in N1.
    assert (Q0 : (Qabs e == e)%Q).
    { apply Qabs_pos. apply Qle_shift_div_l; [ reflexivity | lra ]. }
    assert (Ex := fl_error e R). fold x in Ex.
    rewrite Q0 in Ex. apply Qabs_Qle_condition in Ex.
    assert (D : (e * inject_Z 1000 == inject_Z now)%Q) by (unfold e; field).
    change (inject_Z 1000) with (1000 # 1)%Q in D.
    unfold half_ulp in Ex.
    change (inject_Z (86400 * 30)) with (2592000 # 1)%Q.
    rewrite Qltb_lt.
    assert (Es : (inject_Z (now - 1000 * s)
                  == inject_Z now - (1000 # 1) * inject_Z s)%Q).
    { unfold Z.sub. rewrite inject_Z_plus, inject_Z_opp, inject_Z_mult.
      reflexivity. }
    destruct (Z_lt_le_dec (now - 1000 * s) (1000 * (86400 * 30))) as [Hlt | Hge].
    + split; [ intros _; exact Hlt | intros _ ].
      assert (G : (inject_Z (now - 1000 * s) <= inject_Z 2591999999)%Q)
        by (rewrite <- Zle_Qle; lia).
      rewrite Es in G. change (inject_Z 2591999999) with (2591999999 # 1)%Q in G.
      set (c := (20735999993 # 8000)%Q).
      assert (M : (y <= fl c)%Q) by (apply fl_mono; unfold c; lra).
      assert (Rc : in_range c) by (right; split; discriminate).
      assert (Ec := fl_error c Rc). apply Qabs_Qle_condition in Ec.
      change (Qabs c) with c in Ec. unfold half_ulp, c in *. lra.
    + split; [ intro C | intro C; lia ].
      exfalso.
      assert (G : (inject_Z 2592000001 <= inject_Z (now - 1000 * s))%Q)
        by (rewrite <- Zle_Qle; lia).
      rewrite Es in G. change (inject_Z 2592000001) with (2592000001 # 1)%Q in G.
      set (c := (20736000007 # 8000)%Q).
      assert (M : (fl c <= y)%Q) by (apply fl_mono; unfold c; lra).
      assert (Rc : in_range c) by (right; split; discriminate).
      assert (Ec := fl_error c Rc). apply Qabs_Qle_condition in Ec.
      change (Qabs c) with c in Ec. unfold half_ulp, c in *. lra.
Qed.


(** The value in dollars with the quotient, the price and the product
    rounded: the printed cents are within one half, and four units in the
    last place of the value, of the exact product. *)
Lemma usd_rounded (bal : Z) (price rate : Q) :
  Z.abs bal < 2 ^ 52 ->
  ((1 # 1000000000000) <= price <= (1000000000000 # 1))%Q ->
  (Qabs (rate - price) <= price * half_ulp)%Q ->
  let V := (Qabs (inject_Z bal / inject_Z 100000000) * price)%Q in
  exists n : N,
    JS.toFixed 2
      (JS.Fin (fl (fl (inject_Z bal / inject_Z 100000000) * rate)))
    = JS.sign (bal <? 0) ++ JS.decimal 2 n
    /\ (Qabs (inject_Z (Z.of_N n) - (100 # 1) * V)
        <= (1 # 2) + (400 # 1) * V * half_ulp)%Q.
Proof.
  intros Hbal Hprice Hrate V.
  set (x := (inject_Z bal / inject_Z 100000000)%Q) in *.
  assert (R : in_range x) by (apply ratio_in_range; lia).
  assert (Bx := rounded_bounds x R).
  assert (X0 := Qabs_nonneg x).
  assert (A0 := Qabs_nonneg (fl x)).
  apply Qabs_Qle_condition in Hrate. unfold half_ulp in Hrate, Bx.
  assert (Hr0 : (0 < rate)%Q) by lra.
  assert (Hr1 : (Qabs rate == rate)%Q) by (apply Qabs_pos; lra).
  set (y := (fl x * rate)%Q).
  assert (Ey : (Qabs y == Qabs (fl x) * rate)%Q).
  { unfold y. rewrite Qabs_Qmult, Hr1. reflexivity. }
  assert (Ex : (Qabs x * (100000000 # 1) == inject_Z (Z.abs bal))%Q)
    by (exact (Qabs_ratio bal 100000000 ltac:(lia))).
  assert (S1 : (inject_Z (Z.abs bal) < inject_Z (2 ^ 52))%Q)
    by (rewrite <- Zlt_Qlt; exact Hbal).
  change (inject_Z (2 ^ 52)) with (4503599627370496 # 1)%Q in S1.
  (* the product, between the products of the bounds *)
  assert (Up : (Qabs (fl x) * rate
                <= (Qabs x + Qabs x * (1 # 9007199254740992))
                   * (price + price * (1 # 9007199254740992)))%Q)
    by (apply Qmult_le_compat_nonneg; split; lra).
  assert (Lo : ((Qabs x - Qabs x * (1 # 9007199254740992))
                * (price - price * (1 # 9007199254740992))
                <= Qabs (fl x) * rate)%Q)
    by (apply Qmult_le_compat_nonneg; split; lra).
  setoid_replace ((Qabs x + Qabs x * (1 # 9007199254740992))
                  * (price + price * (1 # 9007199254740992)))%Q
    with (V * ((1 + (1 # 9007199254740992)) * (1 + (1 # 9007199254740992))))%Q
    in Up by (unfold V; ring).
  setoid_replace ((Qabs x - Qabs x * (1 # 9007199254740992))
                  * (price - price * (1 # 9007199254740992)))%Q
    with (V * ((1 - (1 # 9007199254740992)) * (1 - (1 # 9007199254740992))))%Q
    in Lo by (unfold V; ring).
  rewrite <- Ey in Up, Lo.
  assert (V0 : (0 <= V)%Q) by (unfold V; apply Qmult_le_0_compat; lra).
  (* the product is in range *)
  assert (Ry : in_range y).
  { destruct (Z.eq_dec bal 0) as [E0 | E0].
    - left. unfold y.
      assert (Z0 : (x == 0)%Q)
        by (unfold x; rewrite E0; unfold Qdiv; change (inject_Z 0) with 0%Q; ring).
      rewrite (fl_zero x Z0). ring.
    - right.
      assert (S0 : (inject_Z 1 <= inject_Z (Z.abs bal))%Q)
        by (rewrite <- Zle_Qle; lia).
      change (inject_Z 1) with 1%Q in S0.
      assert (L1 : ((1 # 200000000) * (1 # 2000000000000)
                    <= Qabs (fl x) * rate)%Q)
        by (apply Qmult_le_compat_nonneg; split; lra).
      assert (U1 : (Qabs (fl x) * rate
                    <= (100000000 # 1) * (2000000000000 # 1))%Q)
        by (apply Qmult_le_compat_nonneg; split; lra).
      rewrite <- Ey in L1, U1.
      split.
      + eapply Qle_trans; [ | exact L1 ]. discriminate.
      + eapply Qle_trans; [ exact U1 | ]. discriminate. }
  assert (By := rounded_bounds y Ry). unfold half_ulp in By.
  set (b := Qabs (fl y)) in *.
  assert (B0 : (0 <= b)%Q) by apply Qabs_nonneg.
  set (k := Qfloor (b * inject_Z (10 ^ Z.of_nat 2) + (1 # 2))).
  assert (K1 : (inject_Z k <= b * inject_Z (10 ^ Z.of_nat 2) + (1 # 2))%Q)
    by apply Qfloor_le.
  assert (K2 : (b * inject_Z (10 ^ Z.of_nat 2) + (1 # 2) < inject_Z (k + 1))%Q)
    by apply Qlt_floor.
  rewrite inject_Z_plus in K2.
  change (inject_Z 1) with 1%Q in K2.
  change (inject_Z (10 ^ Z.of_nat 2)) with (100 # 1)%Q in K1, K2.
  assert (Kpos : 0 <= k).
  { destruct (Z_lt_le_dec k 0) as [C | C]; [ exfalso | exact C ].
    assert (C' : (inject_Z k <= inject_Z (-1))%Q) by (rewrite <- Zle_Qle; lia).
    change (inject_Z (-1)) with (-1 # 1)%Q in C'. lra. }
  exists (Z.to_N k). split.
  - unfold JS.toFixed.
    rewrite (rounded_sign y Ry).
    assert (Sy : JS.Qltb y 0 = JS.Qltb (fl x) 0).
    { unfold y. destruct (JS.Qltb (fl x) 0) eqn:Hs.
      - apply Qltb_lt in Hs. apply Qltb_lt.
        setoid_replace 0%Q with (0 * rate)%Q by ring.
        apply Qmult_lt_compat_r; assumption.
      - destruct (JS.Qltb (fl x * rate) 0) eqn:Ht; [ | reflexivity ].
        apply Qltb_lt in Ht.
        assert (P : (0 <= fl x)%Q).
        { apply Qnot_lt_le. intro C. apply Qltb_lt in C. congruence. }
        assert (P' : (0 <= fl x * rate)%Q) by (apply Qmult_le_0_compat; lra).
        lra. }
    rewrite Sy, (rounded_sign x R). unfold x. rewrite Qltb_ratio by lia.
    reflexivity.
  - rewrite Z2N.id by exact Kpos.
    apply Qabs_Qle_condition. unfold half_ulp. split; lra.
Qed.

End Rounding.

(** The exact model is one such rounding. *)
Example exact_rounding :
  (forall p q : Q, (p <= q)%Q -> ((fun x => x) p <= (fun x => x) q)%Q)
  /\ (forall z : Z, Z.abs z <= 2 ^ 53 ->
      ((fun x => x) (inject_Z z) == inject_Z z)%Q)
  /\ (forall q, in_range q ->
      (Qabs ((fun x => x) q - q) <= Qabs q * half_ulp)%Q).
Proof.
  repeat split.
  - intros p q H. exact H.
  - intros q _. cbv beta.
    setoid_replace (q - q)%Q with 0%Q by ring.
    assert (P := Qabs_nonneg q). unfold half_ulp. change (Qabs 0) with 0%Q. lra.
Qed.

Lemma exact_rounds_like_double : rounds_like_double (fun q => q).
Proof. exact exact_rounding. Qed.

(** Within the exact amounts [satsToBtc] prints the amount in every
    respect. *)
Lemma satsToBtc_prints (sats : Z) :
  exact_amount sats -> prints_btc sats (satsToBtc sats).
Proof.
  intro H. unfold prints_btc.
  split; [ apply satsToBtc_btc_decimal | ].
  split; [ apply number_of_satsToBtc | ].
  split; [ rewrite satsToBtc_exact; apply (is_fixed_signed 7) | ].
  split.
  - intro Hneg. rewrite satsToBtc_exact.
    replace (sats <? 0) with true by (symmetry; apply Z.ltb_lt; exact Hneg).
    cbn [JS.sign append String.prefix].
    destruct (ascii_dec "-" "-") as [_ | C]; [ | congruence ].
    destruct (JS.decimal 8 (Z.abs_N sats)); reflexivity.
  - intros fl (_ & _ & Herr).
    rewrite (satsToBtc_rounded fl Herr sats H). symmetry.
    apply satsToBtc_btc_decimal.
Qed.

Lemma exact_stats_balance (s : Address.stats_t) :
  exact_stats s ->
  exact_amount
    (Z.of_N (Address.funded_txo_sum s) - Z.of_N (Address.spent_txo_sum s)).
Proof. unfold exact_stats, exact_amount. lia. Qed.

(** ** The rounding of doubles is such a rounding

    [binary64] rounds to the nearest of the numbers with a significand of
    53 bits.  It is monotone, exact on the integers up to 2^53 and off by
    at most half a unit in the last place, so that every property stated
    for a rounding [fl] holds of the doubles of the source. *)

Section Doubles.

Lemma round_half_even_cases (x : Q) :
  let f := Qfloor x in
  (inject_Z f <= x < inject_Z f + 1)%Q
  /\ ((round_half_even x = f /\ (x - inject_Z f <= 1 # 2)%Q
       /\ ((x - inject_Z f == 1 # 2)%Q -> Z.even f = true))
      \/ (round_half_even x = f + 1 /\ (1 # 2 <= x - inject_Z f)%Q
          /\ ((x - inject_Z f == 1 # 2)%Q -> Z.even f = false))).
Proof.
  intro f.
  assert (L := Qfloor_le x). assert (U := Qlt_floor x). fold f in L, U.
  rewrite inject_Z_plus in U. change (inject_Z 1) with 1%Q in U.
  split; [ split; assumption | ].
  unfold round_half_even. fold f.
  destruct (x - inject_Z f ?= 1 # 2)%Q eqn:E.
  - apply Qeq_alt in E. destruct (Z.even f) eqn:Ev.
    + left. split; [ reflexivity | ]. split; [ lra | intros _; reflexivity ].
    + right. split; [ reflexivity | ]. split; [ lra | intros _; reflexivity ].
  - apply Qlt_alt in E. left. split; [ reflexivity | ].
    split; [ lra | intro C; lra ].
  - apply Qgt_alt in E. right. split; [ reflexivity | ].
    split; [ lra | intro C; lra ].
Qed.

Lemma round_half_even_near (x : Q) :
  (Qabs (inject_Z (round_half_even x) - x) <= 1 # 2)%Q.
Proof.
  destruct (round_half_even_cases x) as [[L U] [(E & B & _) | (E & B & _)]];
    rewrite E; apply Qabs_Qle_condition;
    rewrite ?inject_Z_plus; change (inject_Z 1) with 1%Q; split; lra.
Qed.

Lemma round_half_even_mono (x y : Q) :
  (x <= y)%Q -> round_half_even x <= round_half_even y.
Proof.
  intro H. assert (F := Qfloor_resp_le x y H).
  destruct (round_half_even_cases x) as [[Lx Ux] Cx].
  destruct (round_half_even_cases y) as [[Ly Uy] Cy].
  destruct (Z.eq_dec (Qfloor x) (Qfloor y)) as [E | N].
  - rewrite <- E in *.
    destruct Cx as [(Ex & Bx & Tx) | (Ex & Bx & Tx)];
      destruct Cy as [(Ey & By & Ty) | (Ey & By & Ty)]; rewrite Ex, Ey; try lia.
    assert (Q1 : (x - inject_Z (Qfloor x) == 1 # 2)%Q).
    { clear Tx Ty Ex Ey E F. apply Qle_antisym; lra. }
    assert (Q2 : (y - inject_Z (Qfloor x) == 1 # 2)%Q).
    { clear Tx Ty Ex Ey E F. apply Qle_antisym; lra. }
    rewrite (Tx Q1) in Ty. specialize (Ty Q2). discriminate.
  - destruct Cx as [(Ex & _) | (Ex & _)];
      destruct Cy as [(Ey & _) | (Ey & _)]; rewrite Ex, Ey; lia.
Qed.

Lemma round_half_even_Z (k : Z) : round_half_even (inject_Z k) = k.
Proof.
  unfold round_half_even. rewrite Qfloor_Z.
  replace (inject_Z k - inject_Z k ?= 1 # 2)%Q with Lt; [ reflexivity | ].
  symmetry. apply -> Qlt_alt. lra.
Qed.

Local Open Scope Q_scope.

Lemma bracket (a N D P1 P2 X : Q) :
  0 < P1 -> 0 < P2 -> 0 < X -> 0 <= a ->
  P1 <= N -> N < 2 * P1 -> P2 <= D -> D < 2 * P2 ->
  X * P2 == P1 -> a * D == N ->
  X * (1#2) < a /\ a < 2 * X.
Proof.
  intros. split.
  - apply Qnot_le_lt. intro C.
    assert (a * D <= X * (1#2) * D) by (apply Qmult_le_compat_r; lra).
    assert (X * D < X * (2 * P2)) by (apply Qmult_lt_l; lra).
    lra.
  - apply Qnot_le_lt. intro C.
    assert (2 * X * D <= a * D) by (apply Qmult_le_compat_r; lra).
    assert (X * P2 <= X * D) by (apply Qmult_le_l; lra).
    lra.
Qed.

Lemma two_power_pos (k : Z) : 0 < 2 ^ k.
Proof. apply Qpower_0_lt. reflexivity. Qed.

Lemma two_power_succ (k : Z) : 2 ^ (k + 1) == 2 * 2 ^ k.
Proof.
  rewrite Qpower_plus by discriminate. change (2 ^ 1) with 2. ring.
Qed.

Lemma two_power_pred (k : Z) : 2 ^ (k - 1) == 2 ^ k * (1 # 2).
Proof.
  assert (E := two_power_succ (k - 1)).
  replace (k - 1 + 1)%Z with k in E by lia. rewrite E. ring.
Qed.

Lemma log2_bracket (n : Z) :
  (0 < n)%Z ->
  2 ^ Z.log2 n <= inject_Z n /\ inject_Z n < 2 * 2 ^ Z.log2 n.
Proof.
  intro H. destruct (Z.log2_spec n H) as [L U].
  assert (P := Z.log2_nonneg n).
  rewrite <- two_power_succ.
  change 2 with (inject_Z 2).
  rewrite <- !Zpower_Qpower by lia.
  rewrite <- Zle_Qle, <- Zlt_Qlt. split; [ exact L | ].
  replace (Z.log2 n + 1)%Z with (Z.succ (Z.log2 n)) by lia. exact U.
Qed.

Lemma exponent_spec (q : Q) :
  ~ q == 0 ->
  2 ^ (52 + exponent q) <= Qabs q /\ Qabs q < 2 ^ (53 + exponent q).
Proof.
  intro Hq.
  assert (Hn : (0 < Z.abs (Qnum q))%Z).
  { destruct q as [n d]. unfold Qeq in Hq. cbn in *. lia. }
  destruct (log2_bracket _ Hn) as [Ln Un].
  destruct (log2_bracket (Z.pos (Qden q)) eq_refl) as [Ld Ud].
  set (ln := Z.log2 (Z.abs (Qnum q))) in *.
  set (ld := Z.log2 (Z.pos (Qden q))) in *.
  assert (EX : 2 ^ (ln - ld) * 2 ^ ld == 2 ^ ln).
  { rewrite <- Qpower_plus by discriminate.
    replace (ln - ld + ld)%Z with ln by lia. reflexivity. }
  assert (EA : Qabs q * inject_Z (Z.pos (Qden q)) == inject_Z (Z.abs (Qnum q))).
  { destruct q as [n d]. unfold Qeq. cbn. lia. }
  destruct (bracket (Qabs q) _ _ _ _ _
              (two_power_pos ln) (two_power_pos ld) (two_power_pos (ln - ld))
              (Qabs_nonneg q) Ln Un Ld Ud EX EA) as [L U].
  unfold exponent. fold ln ld.
  replace (52 + (ln - ld - 52))%Z with (ln - ld)%Z by lia.
  destruct (Qle_bool (2 ^ (ln - ld)) (Qabs q)) eqn:T.
  - apply Qle_bool_iff in T.
    replace (52 + (ln - ld - 52))%Z with (ln - ld)%Z by lia.
    replace (53 + (ln - ld - 52))%Z with (ln - ld + 1)%Z by lia.
    rewrite two_power_succ. split; [ exact T | exact U ].
  - assert (T' : Qabs q < 2 ^ (ln - ld)).
    { apply Qnot_le_lt. intro C. apply Qle_bool_iff in C. congruence. }
    replace (52 + (ln - ld - 52 - 1))%Z with (ln - ld - 1)%Z by lia.
    replace (53 + (ln - ld - 52 - 1))%Z with (ln - ld)%Z by lia.
    rewrite two_power_pred. split; [ apply Qlt_le_weak; exact L | exact T' ].
Qed.

Lemma two_power_inv (e : Z) : 2 ^ (- e) * 2 ^ e == 1.
Proof.
  rewrite <- Qpower_plus by discriminate.
  replace (- e + e)%Z with 0%Z by lia. reflexivity.
Qed.

Lemma two_power_shift (a e : Z) : 2 ^ (a + e) == 2 ^ a * 2 ^ e.
Proof. apply Qpower_plus. discriminate. Qed.

Lemma binary64_zero (q : Q) : q == 0 -> binary64 q = 0.
Proof.
  intro H. unfold binary64.
  replace (Qeq_bool q 0) with true; [ reflexivity | ].
  symmetry. apply Qeq_bool_iff. exact H.
Qed.

Lemma binary64_nonzero (q : Q) :
  ~ q == 0 ->
  binary64 q
  = inject_Z (round_half_even (q * 2 ^ (- exponent q))) * 2 ^ exponent q.
Proof.
  intro H. unfold binary64.
  destruct (Qeq_bool q 0) eqn:E; [ | reflexivity ].
  apply Qeq_bool_iff in E. contradiction.
Qed.

Lemma binary64_error (q : Q) :
  Qabs (binary64 q - q) <= Qabs q * half_ulp.
Proof.
  destruct (Qeq_dec q 0) as [Z | NZ].
  - rewrite (binary64_zero q Z).
    setoid_replace (0 - q) with 0 by (rewrite Z; ring).
    assert (P := Qabs_nonneg q). change (Qabs 0) with 0. unfold half_ulp.
    apply Qmult_le_0_compat; [ exact P | discriminate ].
  - rewrite (binary64_nonzero q NZ).
    destruct (exponent_spec q NZ) as [L _].
    set (e := exponent q) in *.
    set (x := q * 2 ^ (- e)).
    assert (S := two_power_pos e).
    assert (I := two_power_inv e).
    assert (N := round_half_even_near x).
    set (m := inject_Z (round_half_even x)) in *.
    setoid_replace (m * 2 ^ e - q) with ((m - x) * 2 ^ e)
      by (unfold x; setoid_replace q with (q * (2 ^ (- e) * 2 ^ e)) at 1
            by (rewrite I; ring); ring).
    rewrite Qabs_Qmult. rewrite (Qabs_pos (2 ^ e)) by lra.
    rewrite two_power_shift in L.
    setoid_replace (2 ^ 52) with (4503599627370496 # 1) in L by reflexivity.
    assert (B : Qabs (m - x) * 2 ^ e <= (1 # 2) * 2 ^ e)
      by (apply Qmult_le_compat_r; lra).
    unfold half_ulp. lra.
Qed.

Lemma round_half_even_comp (x y : Q) :
  x == y -> round_half_even x = round_half_even y.
Proof.
  intro E. apply Z.le_antisymm; apply round_half_even_mono; rewrite E;
    apply Qle_refl.
Qed.

(** The significand of a nonzero number lies between 2^52 and 2^53. *)
Lemma scaled_bounds (q : Q) :
  ~ q == 0 ->
  let x := q * 2 ^ (- exponent q) in
  (0 < q -> (4503599627370496 # 1) <= x /\ x < (9007199254740992 # 1))
  /\ (q < 0 -> - (9007199254740992 # 1) < x /\ x <= - (4503599627370496 # 1)).
Proof.
  intros NZ x. destruct (exponent_spec q NZ) as [L U].
  set (e := exponent q) in *.
  assert (S := two_power_pos (- e)). assert (I := two_power_inv e).
  rewrite two_power_shift in L, U.
  setoid_replace (2 ^ 52) with (4503599627370496 # 1) in L by reflexivity.
  setoid_replace (2 ^ 53) with (9007199254740992 # 1) in U by reflexivity.
  assert (L' : (4503599627370496 # 1) <= Qabs q * 2 ^ (- e)).
  { setoid_replace (4503599627370496 # 1)
      with ((4503599627370496 # 1) * 2 ^ e * 2 ^ (- e))
      by (rewrite <- Qmult_assoc, (Qmult_comm (2 ^ e)), I; ring).
    apply Qmult_le_compat_r; lra. }
  assert (U' : Qabs q * 2 ^ (- e) < (9007199254740992 # 1)).
  { setoid_replace (9007199254740992 # 1)
      with ((9007199254740992 # 1) * 2 ^ e * 2 ^ (- e))
      by (rewrite <- Qmult_assoc, (Qmult_comm (2 ^ e)), I; ring).
    apply Qmult_lt_r; lra. }
  split; intro Hs.
  - rewrite Qabs_pos in L', U' by lra. split; assumption.
  - rewrite Qabs_neg in L', U' by lra. unfold x.
    split; [ | ].
    + setoid_replace (q * 2 ^ (- e)) with (- (- q * 2 ^ (- e))) by ring. lra.
    + setoid_replace (q * 2 ^ (- e)) with (- (- q * 2 ^ (- e))) by ring. lra.
Qed.

Lemma significand_bounds (q : Q) :
  ~ q == 0 ->
  let m := round_half_even (q * 2 ^ (- exponent q)) in
  (0 < q -> (4503599627370496 <= m <= 9007199254740992)%Z)
  /\ (q < 0 -> (- 9007199254740992 <= m <= - 4503599627370496)%Z).
Proof.
  intros NZ m. destruct (scaled_bounds q NZ) as [P N].
  split; intro Hs.
  - destruct (P Hs) as [L U]. split.
    + rewrite <- (round_half_even_Z 4503599627370496).
      apply round_half_even_mono. exact L.
    + rewrite <- (round_half_even_Z 9007199254740992).
      apply round_half_even_mono. apply Qlt_le_weak. exact U.
  - destruct (N Hs) as [L U]. split.
    + rewrite <- (round_half_even_Z (- 9007199254740992)).
      apply round_half_even_mono. apply Qlt_le_weak. exact L.
    + rewrite <- (round_half_even_Z (- 4503599627370496)).
      apply round_half_even_mono. exact U.
Qed.

(** A positive number is rounded within its binade, the upper end
    included; a negative one likewise. *)
Lemma binary64_binade (q : Q) :
  ~ q == 0 ->
  (0 < q -> 2 ^ (52 + exponent q) <= binary64 q <= 2 ^ (53 + exponent q))
  /\ (q < 0 ->
      - 2 ^ (53 + exponent q) <= binary64 q <= - 2 ^ (52 + exponent q)).
Proof.
  intro NZ. rewrite (binary64_nonzero q NZ).
  destruct (significand_bounds q NZ) as [P N].
  set (m := round_half_even (q * 2 ^ (- exponent q))) in *.
  set (e := exponent q).
  assert (S := two_power_pos e).
  rewrite !two_power_shift.
  setoid_replace (2 ^ 52) with (inject_Z 4503599627370496) by reflexivity.
  setoid_replace (2 ^ 53) with (inject_Z 9007199254740992) by reflexivity.
  split; intro Hs.
  - destruct (P Hs) as [L U]. split; apply Qmult_le_compat_r;
      try lra; rewrite <- Zle_Qle; assumption.
  - destruct (N Hs) as [L U].
    setoid_replace (- (inject_Z 9007199254740992 * 2 ^ e))
      with (inject_Z (- 9007199254740992) * 2 ^ e)
      by (change (inject_Z (- 9007199254740992))
            with (- inject_Z 9007199254740992); ring).
    setoid_replace (- (inject_Z 4503599627370496 * 2 ^ e))
      with (inject_Z (- 4503599627370496) * 2 ^ e)
      by (change (inject_Z (- 4503599627370496))
            with (- inject_Z 4503599627370496); ring).
    split; apply Qmult_le_compat_r; try lra; rewrite <- Zle_Qle; assumption.
Qed.

Lemma exponent_mono (p q : Q) :
  ~ p == 0 -> ~ q == 0 -> Qabs p <= Qabs q -> (exponent p <= exponent q)%Z.
Proof.
  intros Hp Hq H.
  destruct (exponent_spec p Hp) as [Lp _].
  destruct (exponent_spec q Hq) as [_ Uq].
  assert (T : 2 ^ (52 + exponent p) < 2 ^ (53 + exponent q)) by lra.
  apply Qpower_lt_compat_l_inv in T; [ lia | reflexivity ].
Qed.

Lemma binary64_mono (p q : Q) : p <= q -> binary64 p <= binary64 q.
Proof.
  intro H.
  destruct (Qeq_dec p 0) as [Zp | NZp].
  { rewrite (binary64_zero p Zp).
    destruct (Qeq_dec q 0) as [Zq | NZq].
    - rewrite (binary64_zero q Zq). apply Qle_refl.
    - assert (Hq : 0 < q) by (rewrite Zp in H; apply Qnot_le_lt; intro C;
                               apply NZq; apply Qle_antisym; assumption).
      destruct (binary64_binade q NZq) as [P _]. destruct (P Hq) as [L _].
      assert (S := two_power_pos (52 + exponent q)). lra. }
  destruct (Qeq_dec q 0) as [Zq | NZq].
  { rewrite (binary64_zero q Zq).
    assert (Hp : p < 0) by (rewrite Zq in H; apply Qnot_le_lt; intro C;
                             apply NZp; apply Qle_antisym; assumption).
    destruct (binary64_binade p NZp) as [_ N]. destruct (N Hp) as [_ U].
    assert (S := two_power_pos (52 + exponent p)). lra. }
  destruct (Qlt_le_dec p 0) as [Np | Pp]; destruct (Qlt_le_dec q 0) as [Nq | Pq].
  - (* both negative *)
    assert (E : (exponent q <= exponent p)%Z).
    { apply exponent_mono; try assumption.
      rewrite !Qabs_neg by lra. lra. }
    destruct (Z.eq_dec (exponent q) (exponent p)) as [Ee | Ne].
    + rewrite (binary64_nonzero p NZp), (binary64_nonzero q NZq), Ee.
      assert (S := two_power_pos (exponent p)).
      assert (S' := two_power_pos (- exponent p)).
      apply Qmult_le_compat_r; [ | lra ].
      rewrite <- Zle_Qle. apply round_half_even_mono.
      apply Qmult_le_compat_r; lra.
    + destruct (binary64_binade p NZp) as [_ N]. destruct (N Np) as [_ U].
      destruct (binary64_binade q NZq) as [_ N']. destruct (N' Nq) as [L _].
      assert (T : 2 ^ (53 + exponent q) <= 2 ^ (52 + exponent p))
        by (apply Qpower_le_compat_l; [ lia | discriminate ]).
      lra.
  - (* p negative, q not *)
    destruct (binary64_binade p NZp) as [_ N]. destruct (N Np) as [_ U].
    assert (Hq : 0 < q) by (apply Qnot_le_lt; intro C; apply NZq;
                             apply Qle_antisym; assumption).
    destruct (binary64_binade q NZq) as [P _]. destruct (P Hq) as [L _].
    assert (S := two_power_pos (52 + exponent p)).
    assert (S' := two_power_pos (52 + exponent q)). lra.
  - lra.
  - (* both positive *)
    assert (Hp : 0 < p) by (apply Qnot_le_lt; intro C; apply NZp;
                             apply Qle_antisym; assumption).
    assert (E : (exponent p <= exponent q)%Z).
    { apply exponent_mono; try assumption.
      rewrite !Qabs_pos by lra. lra. }
    destruct (Z.eq_dec (exponent p) (exponent q)) as [Ee | Ne].
    + rewrite (binary64_nonzero p NZp), (binary64_nonzero q NZq), Ee.
      assert (S := two_power_pos (exponent q)).
      assert (S' := two_power_pos (- exponent q)).
      apply Qmult_le_compat_r; [ | lra ].
      rewrite <- Zle_Qle. apply round_half_even_mono.
      apply Qmult_le_compat_r; lra.
    + destruct (binary64_binade p NZp) as [P _]. destruct (P Hp) as [_ U].
      assert (Hq : 0 < q) by lra.
      destruct (binary64_binade q NZq) as [P' _]. destruct (P' Hq) as [L _].
      assert (T : 2 ^ (53 + exponent p) <= 2 ^ (52 + exponent q))
        by (apply Qpower_le_compat_l; [ lia | discriminate ]).
      lra.
Qed.

Lemma binary64_exact (z : Z) :
  (Z.abs z <= 2 ^ 53)%Z -> binary64 (inject_Z z) == inject_Z z.
Proof.
  intro H.
  destruct (Z.eq_dec z 0) as [-> | NZ]; [ reflexivity | ].
  destruct (Z.eq_dec (Z.abs z) (2 ^ 53)) as [T | NT].
  { assert (C : z = 9007199254740992%Z \/ z = (- 9007199254740992)%Z) by lia.
    destruct C as [-> | ->]; vm_compute; reflexivity. }
  assert (NZq : ~ inject_Z z == 0).
  { intro C. apply NZ. unfold Qeq in C. cbn in C. lia. }
  rewrite (binary64_nonzero _ NZq).
  destruct (exponent_spec _ NZq) as [L _].
  set (e := exponent (inject_Z z)) in *.
  assert (A : Qabs (inject_Z z) == inject_Z (Z.abs z))
    by (unfold Qabs, inject_Z; reflexivity).
  assert (He : (e <= 0)%Z).
  { assert (B : inject_Z (Z.abs z) < 2 ^ 53).
    { setoid_replace (2 ^ 53) with (inject_Z (2 ^ 53)) by reflexivity.
      rewrite <- Zlt_Qlt. lia. }
    assert (T : 2 ^ (52 + e) < 2 ^ 53) by (rewrite A in L; lra).
    apply Qpower_lt_compat_l_inv in T; [ lia | reflexivity ]. }
  assert (P : 2 ^ (- e) == inject_Z (2 ^ (- e))).
  { rewrite Zpower_Qpower by lia. reflexivity. }
  rewrite (round_half_even_comp _ (inject_Z (z * 2 ^ (- e)))).
  - rewrite round_half_even_Z, inject_Z_mult, <- P.
    rewrite <- Qmult_assoc, two_power_inv. ring.
  - rewrite inject_Z_mult, <- P. reflexivity.
Qed.

End Doubles.

Lemma binary64_rounds_like_double : rounds_like_double binary64.
Proof.
  split; [ exact binary64_mono | ].
  split; [ exact binary64_exact | ].
  intros q _. apply binary64_error.
Qed.

(** Where the doubles of the source and the exact quotients part.  An
    amount beyond the exact ones prints a neighbour of its decimal, and two
    such amounts can print alike; at a decimal tie of the fee rate or of
    the average block time, and next to one of the value in dollars, the
    source prints the neighbour below.  Every one of these prints is within
    the bounds that the properties below state. *)
Example prints_of_doubles :
  let quotient (a b : Z) := binary64 (inject_Z a / inject_Z b) in
  (* satsToBtc beyond 2^52 sats *)
  satsToBtc 6710886400000002 = "67108864.00000002"
  /\ JS.toFixed 8 (JS.Fin (quotient 6710886400000002 100000000))
     = "67108864.00000001"
  /\ JS.toFixed 8 (JS.Fin (quotient 6710886400000001 100000000))
     = "67108864.00000001"
  (* a fee of 201 sats over 200 virtual bytes *)
  /\ JS.toFixed 2 (JS.div (JS.of_Z 201) (JS.of_Z 200)) = "1.01"
  /\ JS.toFixed 2 (JS.Fin (quotient 201 200)) = "1.00"
  (* two blocks 423 seconds apart *)
  /\ JS.toFixed 1 (JS.div (JS.div (JS.of_Z 423) (JS.of_Z 1)) (JS.of_Z 60))
     = "7.1"
  /\ JS.toFixed 1
       (JS.Fin (binary64 (quotient 423 1 / inject_Z 60))) = "7.0"
  (* 146,376.80517299 coins at 118,703.69 dollars *)
  /\ JS.toFixed 2
       (JS.mul (JS.div (JS.of_Z 14637680517299) (JS.of_Z 100000000))
          (JS.Fin (11870369 # 100)))
     = "17375466904.45"
  /\ JS.toFixed 2
       (JS.Fin (binary64 (quotient 14637680517299 100000000
                          * binary64 (11870369 # 100))))
     = "17375466904.44".
Proof. repeat split; vm_compute; reflexivity. Qed.
(** ** The handlers *)

Ltac run_handler :=
  cbv beta iota delta
    [run bind ret throw await Promise_all3 then_ catch
     new_Date_toISOString Date_now].

Section Monad.

Lemma bind_fulfilled {A B : Type} (m : M A) (k : A -> M B) clock n b n2 :
  bind m k clock n = Fulfilled (b, n2) ->
  exists a n1, m clock n = Fulfilled (a, n1) /\ k a clock n1 = Fulfilled (b, n2).
Proof.
  unfold bind. destruct (m clock n) as [[a n1] | e]; [ | discriminate ].
  intro H. exists a, n1. split; [ reflexivity | exact H ].
Qed.

Lemma at_index_in_range {A : Type} (l : list A) (i : Z) clock n :
  0 <= i < Z.of_nat (List.length l) ->
  exists a, at_index l i clock n = Fulfilled (a, n)
            /\ nth_error l (Z.to_nat i) = Some a.
Proof.
  intro H. unfold at_index.
  replace (i <? 0) with false by (symmetry; apply Z.ltb_ge; lia).
  destruct (nth_error l (Z.to_nat i)) as [a | ] eqn:E.
  - exists a. split; reflexivity.
  - apply nth_error_None in E. lia.
Qed.

Lemma slice0_length {A : Type} (e : Z) (l : list A) :
  0 <= e -> Z.of_nat (List.length (JS.slice0 e l)) = Z.min e (Z.of_nat (List.length l)).
Proof.
  intro H. unfold JS.slice0.
  replace (e <? 0) with false by (symmetry; apply Z.ltb_ge; lia).
  rewrite length_firstn. lia.
Qed.

Lemma Fulfilled_inj {A : Type} (a b : A) : Fulfilled a = Fulfilled b -> a = b.
Proof.
  intro H.
  exact (f_equal (fun r => match r with Fulfilled v => v | Rejected _ => a end) H).
Qed.

Lemma clock_free_ret {A : Type} (a : A) : clock_free (ret a).
Proof. exists (Fulfilled a). reflexivity. Qed.

Lemma clock_free_throw {A : Type} (e : error) : clock_free (@throw A e).
Proof. exists (Rejected e). reflexivity. Qed.

Lemma clock_free_bind {A B : Type} (m : M A) (k : A -> M B) :
  clock_free m -> (forall a, clock_free (k a)) -> clock_free (bind m k).
Proof.
  intros [[a | e] Hm] Hk.
  - destruct (Hk a) as [r Hr]. exists r. intros clock n.
    unfold bind. rewrite Hm. apply Hr.
  - exists (Rejected e). intros clock n. unfold bind. rewrite Hm. reflexivity.
Qed.

Lemma clock_free_mapM {A B : Type} (f : A -> M B) (l : list A) :
  (forall a, clock_free (f a)) -> clock_free (mapM f l).
Proof.
  intro Hf. induction l as [ | a l IH ]; cbn [mapM].
  - apply clock_free_ret.
  - apply clock_free_bind; [ apply Hf | intro b ].
    apply clock_free_bind; [ exact IH | intro bs ]. apply clock_free_ret.
Qed.

Lemma clock_free_at_index {A : Type} (l : list A) (i : Z) :
  clock_free (at_index l i).
Proof.
  unfold at_index.
  destruct (if i <? 0 then None else nth_error l (Z.to_nat i)).
  - apply clock_free_ret.
  - apply clock_free_throw.
Qed.

Lemma clock_free_Date_of_seconds (s : N) :
  clock_free (Date_of_seconds_toISOString s).
Proof.
  unfold Date_of_seconds_toISOString.
  destruct (Z.of_N s * 1000 <=? 8640000000000000).
  - apply clock_free_ret.
  - apply clock_free_throw.
Qed.

(** A clock-free computation that succeeds has not touched the count. *)
Lemma clock_free_count {A : Type} (m : M A) clock n a n' :
  clock_free m -> m clock n = Fulfilled (a, n') -> n' = n.
Proof.
  intros [[b | e] Hm] H; rewrite Hm in H; [ | discriminate ].
  injection H as _ H. symmetry. exact H.
Qed.

End Monad.

(** ** The overview *)

Section OverviewSources.

(** What a fulfilled overview is made of. *)
Lemma overview_fulfilled (up : Upstream) (clock : Clock) (out : Overview.output) :
  run (Overview.handler up) clock = Fulfilled out ->
  exists fees stats blocks latestBlock,
    api_fees_recommended up = Fulfilled fees
    /\ api_stats up = Fulfilled stats
    /\ api_blocks up = Fulfilled blocks
    /\ nth_error blocks 0 = Some latestBlock
    /\ Overview.blockHeight (Overview.network out) = Block.height latestBlock
    /\ Overview.difficulty (Overview.network out)
       = Stats.difficulty (Stats.data stats)
    /\ Overview.fees out
       = {| Overview.fastest := FeesRecommended.fastestFee fees;
            Overview.halfHour := FeesRecommended.halfHourFee fees;
            Overview.hour := FeesRecommended.hourFee fees;
            Overview.economy := FeesRecommended.economyFee fees;
            Overview.minimum := FeesRecommended.minimumFee fees;
            Overview.unit := "sat/vB" |}.
Proof.
  unfold Overview.handler. run_handler.
  destruct (api_fees_recommended up) as [fees | ];
    [ | destruct (api_stats up), (api_blocks up); discriminate ].
  destruct (api_stats up) as [stats | ];
    [ | destruct (api_blocks up); discriminate ].
  destruct (api_blocks up) as [blocks | ]; [ | discriminate ].
  unfold at_index. cbn [Z.ltb Z.compare Z.to_nat].
  destruct (nth_error blocks 0) as [latestBlock | ] eqn:E; [ | discriminate ].
  run_handler. unfold Date_of_seconds_toISOString.
  destruct (Z.of_N (Block.timestamp latestBlock) * 1000 <=? 8640000000000000);
    [ | discriminate ].
  run_handler. intro H. apply Fulfilled_inj in H. subst out.
  exists fees, stats, blocks, latestBlock. repeat split; reflexivity || exact E.
Qed.

End OverviewSources.

(** C9, as the code has it.  In the overview the block height is derived
    from the block list of the mempool-indexing provider, the difficulty
    from the answer of the chain-statistics provider, and the fee tiers from
    the fee recommendation of the mempool-indexing provider: each is
    unchanged when the other responses vary.  So the height and the
    difficulty come from two providers, the height and the fee tiers from
    one. *)
Theorem C9_overview_sources :
  derived_from (same_response BlocksResponse) overview_height
  /\ derived_from (same_response StatsResponse) overview_difficulty
  /\ derived_from (same_response FeesResponse) Overview.fees
  /\ provider_of BlocksResponse <> provider_of StatsResponse
  /\ provider_of FeesResponse = provider_of BlocksResponse.
Proof.
  split; [ | split; [ | split; [ | split; [ discriminate | reflexivity ] ] ] ];
    intros u1 u2 clock1 clock2 o1 o2 Hsame H1 H2;
    destruct (overview_fulfilled _ _ _ H1)
      as (f1 & s1 & b1 & l1 & Hf1 & Hs1 & Hb1 & Hl1 & Hh1 & Hd1 & Ht1);
    destruct (overview_fulfilled _ _ _ H2)
      as (f2 & s2 & b2 & l2 & Hf2 & Hs2 & Hb2 & Hl2 & Hh2 & Hd2 & Ht2);
    cbn [same_response] in Hsame.
  - unfold overview_height. rewrite Hh1, Hh2.
    rewrite Hb1, Hb2 in Hsame. apply Fulfilled_inj in Hsame. subst b2.
    rewrite Hl1 in Hl2. injection Hl2 as <-. reflexivity.
  - unfold overview_difficulty. rewrite Hd1, Hd2.
    rewrite Hs1, Hs2 in Hsame. apply Fulfilled_inj in Hsame. subst s2.
    reflexivity.
  - rewrite Ht1, Ht2.
    rewrite Hf1, Hf2 in Hsame. apply Fulfilled_inj in Hsame. subst f2.
    reflexivity.
Qed.

(** C9, as stated, fails: no provider's responses fix both the block height
    and the difficulty.  With the mempool-indexing provider unchanged,
    another answer of the statistics provider changes the difficulty; with
    the statistics provider unchanged, another block list changes the
    height. *)
Lemma C9_no_common_provider :
  ~ exists p : provider,
      derived_from (same_provider p) overview_height
      /\ derived_from (same_provider p) overview_difficulty.
Proof.
  intros [p [Hheight Hdifficulty]].
  destruct p.
  - (* the mempool-indexing provider does not fix the difficulty *)
    assert (Hsame : same_provider MempoolSpace Sample.snapshot
                      Sample.snapshot_other_stats).
    { intros [ | | ] Hr; try discriminate Hr; reflexivity. }
    assert (H := Hdifficulty Sample.snapshot Sample.snapshot_other_stats
                   Sample.clock Sample.clock _ _ Hsame eq_refl eq_refl).
    discriminate H.
  - (* the statistics provider does not fix the height *)
    assert (Hsame : same_provider Blockchair Sample.snapshot
                      Sample.snapshot_other_blocks).
    { intros [ | | ] Hr; try discriminate Hr; reflexivity. }
    assert (H := Hheight Sample.snapshot Sample.snapshot_other_blocks
                   Sample.clock Sample.clock _ _ Hsame eq_refl eq_refl).
    discriminate H.
Qed.

Lemma C9_overview_sources_witness :
  exists o1 o2,
    run (Overview.handler Sample.snapshot) Sample.clock = Fulfilled o1
    /\ run (Overview.handler Sample.snapshot_other_stats) Sample.clock_still
       = Fulfilled o2
    /\ overview_height o1 = overview_height o2
    /\ Overview.fees o1 = Overview.fees o2.
Proof.
  do 2 eexists.
  split; [ vm_compute; reflexivity | split; [ vm_compute; reflexivity | ] ].
  destruct C9_overview_sources as (Hheight & _ & Hfees & _).
  split.
  - apply (Hheight Sample.snapshot Sample.snapshot_other_stats
             Sample.clock Sample.clock_still); reflexivity.
  - apply (Hfees Sample.snapshot Sample.snapshot_other_stats
             Sample.clock Sample.clock_still); reflexivity.
Defined.

(** ** The address lookup *)

(** C3, as the code has it.  When the four sums of the answer and the
    total are exact amounts, below 2^52 sats in magnitude (more than twice
    the coins that can exist), a successful address query reports as total
    the confirmed balance (chain funded minus chain spent) plus the
    unconfirmed balance (mempool funded minus mempool spent), and prints
    each of the three amounts as the satoshi value over 100,000,000 with
    eight decimals: the string is the decimal of the amount, has the sign,
    the point and exactly eight decimals, and reads back to the amount; a
    negative balance keeps its sign.  The division rounded to a double
    prints the same string there. *)
Theorem C3_address_balance
    (ctx : AddressLookup.input) (up : Upstream) (clock : Clock) (data : Address.t) :
  api_address up (AddressLookup.address ctx) = Fulfilled data ->
  let chain := Address.chain_stats data in
  let pool := Address.mempool_stats data in
  let confirmed :=
    Z.of_N (Address.funded_txo_sum chain) - Z.of_N (Address.spent_txo_sum chain) in
  let unconfirmed :=
    Z.of_N (Address.funded_txo_sum pool) - Z.of_N (Address.spent_txo_sum pool) in
  exact_stats chain ->
  exact_stats pool ->
  exact_amount (confirmed + unconfirmed) ->
  exists out,
    run (AddressLookup.handler ctx up) clock = Fulfilled out
    /\ AddressLookup.sats (AddressLookup.balance out) = confirmed + unconfirmed
    /\ prints_btc confirmed (AddressLookup.confirmed (AddressLookup.balance out))
    /\ prints_btc unconfirmed
         (AddressLookup.unconfirmed (AddressLookup.balance out))
    /\ prints_btc (confirmed + unconfirmed)
         (AddressLookup.total (AddressLookup.balance out)).
Proof.
  intros H chain pool confirmed unconfirmed Hc Hu Ht.
  apply exact_stats_balance in Hc, Hu.
  unfold AddressLookup.handler. run_handler. rewrite H.
  eexists. split; [ reflexivity | ].
  cbn [AddressLookup.balance AddressLookup.sats AddressLookup.confirmed
       AddressLookup.unconfirmed AddressLookup.total].
  split; [ reflexivity | ].
  split; [ exact (satsToBtc_prints _ Hc) | ].
  split; [ exact (satsToBtc_prints _ Hu) | exact (satsToBtc_prints _ Ht) ].
Qed.

(** A balance with decimals and a negative unconfirmed balance. *)
Lemma C3_address_balance_witness :
  let data :=
    {| Address.chain_stats :=
         {| Address.funded_txo_count := 4; Address.funded_txo_sum := 123456789;
            Address.spent_txo_count := 2; Address.spent_txo_sum := 23456790;
            Address.tx_count := 6 |};
       Address.mempool_stats :=
         {| Address.funded_txo_count := 0; Address.funded_txo_sum := 0;
            Address.spent_txo_count := 1; Address.spent_txo_sum := 50000;
            Address.tx_count := 1 |} |} in
  let up := Sample.providers (Fulfilled data) (Fulfilled []) in
  exists out,
    run (AddressLookup.handler {| AddressLookup.address := Sample.me |} up)
      Sample.clock = Fulfilled out
    /\ AddressLookup.sats (AddressLookup.balance out) = 99949999
    /\ AddressLookup.confirmed (AddressLookup.balance out) = "0.99999999"
    /\ AddressLookup.unconfirmed (AddressLookup.balance out) = "-0.00050000"
    /\ AddressLookup.total (AddressLookup.balance out) = "0.99949999"
    /\ prints_btc 99999999 (AddressLookup.confirmed (AddressLookup.balance out))
    /\ prints_btc (-50000) (AddressLookup.unconfirmed (AddressLookup.balance out))
    /\ prints_btc 99949999 (AddressLookup.total (AddressLookup.balance out))
    /\ JS.toFixed 8
         (JS.Fin (binary64 (inject_Z (-50000) / inject_Z 100000000)%Q))
       = "-0.00050000".
Proof.
  intros data up.
  destruct (C3_address_balance {| AddressLookup.address := Sample.me |}
              up Sample.clock data eq_refl
              (conj eq_refl eq_refl) (conj eq_refl eq_refl) eq_refl)
    as (out & Hrun & Hsats & Hc & Hu & Ht).
  exists out. split; [ exact Hrun | ]. split; [ exact Hsats | ].
  split; [ exact (proj1 Hc) | ]. split; [ exact (proj1 Hu) | ].
  split; [ exact (proj1 Ht) | ].
  split; [ exact Hc | ]. split; [ exact Hu | ]. split; [ exact Ht | ].
  destruct Hu as (Eu & _ & _ & _ & Ru).
  exact (eq_trans (Ru binary64 binary64_rounds_like_double) Eu).
Defined.


(** C3, as stated, fails beyond the exact amounts.  The source divides in
    doubles: for a balance of 6,710,886,400,000,002 sats the quotient
    prints as "67108864.00000001", which is the decimal of the amount one
    sat below and not that of the balance. *)
Lemma C3_balance_beyond_exact_amounts :
  let sats := 6710886400000002 in
  let printed :=
    JS.toFixed 8 (JS.Fin (binary64 (inject_Z sats / inject_Z 100000000)%Q)) in
  printed = "67108864.00000001"
  /\ btc_decimal sats = "67108864.00000002"
  /\ printed <> btc_decimal sats
  /\ number_of_string printed = sats - 1
  /\ ~ exact_amount sats.
Proof.
  intros sats printed.
  assert (P : printed = "67108864.00000001") by (vm_compute; reflexivity).
  assert (D : btc_decimal sats = "67108864.00000002")
    by (vm_compute; reflexivity).
  split; [ exact P | ]. split; [ exact D | ].
  split; [ rewrite P, D; discriminate | ].
  split; [ rewrite P; vm_compute; reflexivity | ].
  unfold exact_amount, sats. intro H. vm_compute in H. discriminate H.
Qed.

(** The scenario of the specification: 5 coins funded, 2 spent, 5
    transactions and an empty mempool give 3 coins and a count of 5. *)
Example address_scenario :
  exists out,
    run (AddressLookup.handler {| AddressLookup.address := Sample.me |}
           Sample.snapshot) Sample.clock = Fulfilled out
    /\ AddressLookup.confirmed (AddressLookup.balance out) = "3.00000000"
    /\ AddressLookup.total (AddressLookup.balance out) = "3.00000000"
    /\ AddressLookup.tx_total (AddressLookup.transactions out) = 5%N.
Proof. eexists. split; [ vm_compute; reflexivity | repeat split ]. Qed.

(** ** The transaction details *)





(** ** The fee estimates *)

Section FeesQuery.

Lemma slice0_firstn {A : Type} (k : nat) (l : list A) :
  JS.slice0 (Z.of_nat k) l = firstn (Nat.min k (List.length l)) l.
Proof.
  unfold JS.slice0.
  replace (Z.of_nat k <? 0) with false by (symmetry; apply Z.ltb_ge; lia).
  f_equal. lia.
Qed.

Lemma nth_error_sample {A : Type} (k i : nat) (l : list A) :
  (i < Nat.min k (List.length l))%nat ->
  nth_error (firstn (Nat.min k (List.length l)) l) i = nth_error l i.
Proof.
  intro H. rewrite nth_error_firstn.
  replace (i <? Nat.min k (List.length l))%nat with true
    by (symmetry; apply Nat.ltb_lt; exact H).
  reflexivity.
Qed.

End FeesQuery.

(** C7.  The fees query samples at most 6 blocks, the first of the
    provider's list (which lists the newest first).  With fewer than 2
    sampled blocks the average block time is "10.0 minutes".  With m >= 2
    sampled blocks it is the one-decimal print, in minutes, of the time span
    between the newest and the oldest sampled block divided by m - 1: the
    printed number has the sign of the span, the point and one decimal,
    reads back to its tenths n, and n is within one half of
    span / (6 (m - 1)); with both quotients rounded to doubles the print is
    again such a nearest number of tenths, for spans below 2^53 / 60
    seconds. *)
Theorem C7_fees_average_block_time
    (up : Upstream) (clock : Clock)
    (fees : FeesRecommended.t) (mp : Mempool.t) (bs : list Block.t) :
  api_fees_recommended up = Fulfilled fees ->
  api_mempool up = Fulfilled mp ->
  api_blocks up = Fulfilled bs ->
  let m := Nat.min 6 (List.length bs) in
  exists out,
    run (Fees.handler up) clock = Fulfilled out
    /\ List.length (Fees.recentBlocks out) = m
    /\ ((m < 2)%nat -> Fees.avgBlockTime out = "10.0 minutes")
    /\ ((2 <= m)%nat ->
        exists newest oldest n,
          nth_error bs 0 = Some newest
          /\ nth_error bs (m - 1) = Some oldest
          /\ let span :=
               Z.of_N (Block.timestamp newest) - Z.of_N (Block.timestamp oldest) in
             let d := 6 * (Z.of_nat m - 1) in
             let printed := JS.sign (span <? 0) ++ JS.decimal 1 n in
             Fees.avgBlockTime out = printed ++ " minutes"
             /\ - d <= 2 * (Z.abs span - Z.of_N n * d) <= d
             /\ is_fixed 1 printed = true
             /\ number_of_string printed
                = (if span <? 0 then - Z.of_N n else Z.of_N n)
             /\ forall fl, rounds_like_double fl ->
                  60 * Z.abs span < 2 ^ 53 ->
                  exists n' : N,
                    JS.toFixed 1
                      (JS.Fin
                         (fl (fl (inject_Z span / inject_Z (Z.of_nat m - 1))
                              / inject_Z 60)%Q))
                    = JS.sign (span <? 0) ++ JS.decimal 1 n'
                    /\ - d <= 2 * (Z.abs span - Z.of_N n' * d) <= d).
Proof.
  intros Hfees Hmp Hbs m.
  unfold Fees.handler. run_handler. rewrite Hfees, Hmp, Hbs.
  change 6 with (Z.of_nat 6). rewrite slice0_firstn. fold m.
  set (sample := firstn m bs).
  assert (Hlen : List.length sample = m).
  { unfold sample. rewrite length_firstn. unfold m. lia. }
  rewrite Hlen.
  destruct (1 <? Z.of_nat m) eqn:Hm.
  - apply Z.ltb_lt in Hm.
    destruct (at_index_in_range sample 0 clock O) as (newest & Hn & Hn'); [ lia | ].
    destruct (at_index_in_range sample (Z.of_nat m - 1) clock O)
      as (oldest & Ho & Ho'); [ lia | ].
    rewrite Hn, Ho.
    eexists. split; [ reflexivity | ].
    cbn [Fees.recentBlocks Fees.avgBlockTime].
    split; [ rewrite length_map; exact Hlen | ].
    split; [ intro; lia | intros _ ].
    set (span := Z.of_N (Block.timestamp newest) - Z.of_N (Block.timestamp oldest)).
    set (d := 6 * (Z.of_nat m - 1)).
    exists newest, oldest,
      (Z.to_N ((2 * Z.abs span * 10 ^ Z.of_nat 1 + 60 * (Z.of_nat m - 1))
               / (2 * (60 * (Z.of_nat m - 1))))).
    unfold sample, m in Hn', Ho'.
    rewrite nth_error_sample in Hn' by (fold m; lia).
    replace (Z.to_nat (Z.of_nat (Nat.min 6 (List.length bs)) - 1))
      with (Nat.min 6 (List.length bs) - 1)%nat in Ho' by lia.
    rewrite nth_error_sample in Ho' by (fold m; lia).
    split; [ exact Hn' | split; [ exact Ho' | ] ].
    cbv zeta.
    split.
    { f_equal.
      unfold JS.of_N, JS.sub. fold (JS.of_Z (Z.of_nat m - 1)).
      assert (E1 : JS.div (JS.Fin (inject_Z (Z.of_N (Block.timestamp newest))
                                   - inject_Z (Z.of_N (Block.timestamp oldest))))
                     (JS.of_Z (Z.of_nat m - 1))
                   = JS.Fin ((inject_Z (Z.of_N (Block.timestamp newest))
                              - inject_Z (Z.of_N (Block.timestamp oldest)))
                             / inject_Z (Z.of_nat m - 1))).
      { unfold JS.div, JS.of_Z. change 0%Q with (inject_Z 0).
        rewrite Qeq_bool_inject_Z.
        replace (Z.of_nat m - 1 =? 0) with false by (symmetry; apply Z.eqb_neq; lia).
        reflexivity. }
      rewrite E1. unfold JS.div, JS.of_Z. change 0%Q with (inject_Z 0).
      rewrite Qeq_bool_inject_Z. change (60 =? 0) with false. cbv iota.
      apply (toFixed_ratio 1 _ span (60 * (Z.of_nat m - 1))); [ lia | ].
      apply span_per_minute. lia. }
    split.
    { assert (B := nearest_is_nearest 1 span (60 * (Z.of_nat m - 1)) ltac:(lia)).
      cbv zeta in B. change (10 ^ Z.of_nat 1) with 10 in *. unfold d. lia. }
    split; [ apply (is_fixed_signed 0) | ].
    split.
    { rewrite number_of_string_sign by apply decimal_head.
      rewrite decimal_value_decimal. reflexivity. }
    intros fl (Hmono & Hexact & Herr) Hspan.
    destruct (average_block_time_rounded fl Hmono Hexact Herr span
                (Z.of_nat m - 1) ltac:(lia) Hspan) as (n' & Hp & Hb).
    exists n'. split; [ exact Hp | ]. unfold d. lia.
  - apply Z.ltb_ge in Hm.
    eexists. split; [ reflexivity | ].
    cbn [Fees.recentBlocks Fees.avgBlockTime].
    split; [ rewrite length_map; exact Hlen | ].
    split; [ intros _; reflexivity | intro; lia ].
Qed.

(** A negative span of 31 seconds between two blocks, and the sample of
    six blocks nine minutes apart. *)
Lemma C7_fees_average_block_time_witness :
  let block t :=
    {| Block.height := 800000; Block.id := "00"; Block.timestamp := t;
       Block.tx_count := 1; Block.size := 1; Block.weight := 4;
       Block.extras := None |} in
  let up :=
    {| api_fees_recommended := Fulfilled Sample.fees;
       api_stats := Rejected FetchError;
       api_blocks := Fulfilled [block 1700000000%N; block 1700000031%N];
       api_mempool := Fulfilled Sample.mempool;
       api_address := fun _ => Rejected FetchError;
       api_address_txs := fun _ => Rejected FetchError;
       api_tx := fun _ => Rejected FetchError;
       api_ticker := Rejected FetchError |} in
  (exists out,
     run (Fees.handler up) Sample.clock = Fulfilled out
     /\ List.length (Fees.recentBlocks out) = 2%nat
     /\ Fees.avgBlockTime out = "-0.5 minutes")
  /\ JS.toFixed 1
       (JS.Fin (binary64 (binary64 (inject_Z (-31) / inject_Z 1)
                          / inject_Z 60)%Q)) = "-0.5"
  /\ exists out,
       run (Fees.handler Sample.snapshot) Sample.clock = Fulfilled out
       /\ List.length (Fees.recentBlocks out) = 6%nat
       /\ Fees.avgBlockTime out = "9.0 minutes".
Proof.
  intros block up. split.
  - destruct (C7_fees_average_block_time up Sample.clock
                Sample.fees Sample.mempool
                [block 1700000000%N; block 1700000031%N]
                eq_refl eq_refl eq_refl)
      as (out & Hrun & Hlen & _ & _).
    exists out. split; [ exact Hrun | split; [ exact Hlen | ] ].
    vm_compute in Hrun. apply Fulfilled_inj in Hrun. subst out. reflexivity.
  - split; [ vm_compute; reflexivity | ].
    destruct (C7_fees_average_block_time Sample.snapshot Sample.clock
                Sample.fees Sample.mempool Sample.blocks eq_refl eq_refl eq_refl)
      as (out & Hrun & Hlen & _ & _).
    exists out. split; [ exact Hrun | split; [ exact Hlen | ] ].
    vm_compute in Hrun. apply Fulfilled_inj in Hrun. subst out. reflexivity.
Defined.


(** Two runs of the fees query: a span that rounds up and a negative span. *)
Example fees_average_examples :
  let run_with timestamps :=
    match run (Fees.handler
                 {| api_fees_recommended := Fulfilled Sample.fees;
                    api_stats := Fulfilled Sample.stats;
                    api_blocks :=
                      Fulfilled
                        (map (fun t =>
                                {| Block.height := 800000; Block.id := "00";
                                   Block.timestamp := t; Block.tx_count := 1;
                                   Block.size := 1; Block.weight := 4;
                                   Block.extras := None |}) timestamps);
                    api_mempool := Fulfilled Sample.mempool;
                    api_address := fun _ => Rejected FetchError;
                    api_address_txs := fun _ => Rejected FetchError;
                    api_tx := fun _ => Rejected FetchError;
                    api_ticker := Rejected FetchError |}) Sample.clock with
    | Fulfilled out => Some (Fees.avgBlockTime out)
    | Rejected _ => None
    end in
  run_with [1700001234; 1700000000]%N = Some "20.6 minutes"
  /\ run_with [1700000000; 1700000031]%N = Some "-0.5 minutes"
  /\ run_with [1700000000]%N = Some "10.0 minutes"
  /\ run_with [] = Some "10.0 minutes".
Proof. repeat split; vm_compute; reflexivity. Qed.

(** ** The recent blocks *)

Section BlocksQuery.

Lemma block_of_valid (b : Block.t) clock n :
  valid_date (Block.timestamp b) ->
  exists o, Blocks.block_of b clock n = Fulfilled (o, n).
Proof.
  unfold valid_date, Blocks.block_of, Date_of_seconds_toISOString. intro H.
  replace (Z.of_N (Block.timestamp b) * 1000 <=? 8640000000000000) with true
    by (symmetry; apply Z.leb_le; exact H).
  eexists. reflexivity.
Qed.

Lemma mapM_block_of (l : list Block.t) clock n :
  Forall (fun b => valid_date (Block.timestamp b)) l ->
  exists os, mapM Blocks.block_of l clock n = Fulfilled (os, n)
             /\ List.length os = List.length l.
Proof.
  induction 1 as [ | b l Hb Hl IH ].
  - exists []. split; reflexivity.
  - destruct (block_of_valid b clock n Hb) as [o Ho].
    destruct IH as [os [Hos Hlen]].
    exists (o :: os). split.
    + cbn [mapM]. unfold bind at 1. rewrite Ho.
      unfold bind at 1. rewrite Hos. reflexivity.
    + cbn [List.length]. rewrite Hlen. reflexivity.
Qed.

Lemma Forall_slice0 {A : Type} (P : A -> Prop) (e : Z) (l : list A) :
  Forall P l -> Forall P (JS.slice0 e l).
Proof.
  intro H. unfold JS.slice0.
  generalize (Z.to_nat (Z.max (if e <? 0
                               then Z.max (Z.of_nat (List.length l) + e) 0
                               else Z.min e (Z.of_nat (List.length l))) 0)).
  intro k. revert k. induction H as [ | x l Hx Hl IH ]; intros [ | k ]; cbn [firstn];
    constructor; auto.
Qed.

(** What the blocks query does once the provider has answered with [bs] and
    the slice is not empty. *)
Lemma blocks_handler_returns (limit : Z) (up : Upstream) (clock : Clock)
    (bs : list Block.t) :
  api_blocks up = Fulfilled bs ->
  Forall (fun b => valid_date (Block.timestamp b)) bs ->
  0 < Z.of_nat (List.length (JS.slice0 (Z.min limit 15) bs)) ->
  returns_blocks limit up clock
    (Z.of_nat (List.length (JS.slice0 (Z.min limit 15) bs))).
Proof.
  intros Hup Hvalid Hlen. unfold returns_blocks, Blocks.handler.
  cbn [Blocks.limit]. run_handler. rewrite Hup.
  set (recent := JS.slice0 (Z.min limit 15) bs) in *.
  destruct (mapM_block_of recent clock 0%nat (Forall_slice0 _ _ _ Hvalid))
    as [os [Hos Hos_len]].
  rewrite Hos.
  destruct (at_index_in_range recent (Z.of_nat (List.length recent) - 1) clock 0%nat)
    as [oldest [Hold _]]; [ lia | ].
  destruct (at_index_in_range recent 0 clock 0%nat) as [newest [Hnew _]]; [ lia | ].
  rewrite Hold, Hnew.
  eexists. split; [ reflexivity | ].
  cbn [Blocks.blocks Blocks.summary Blocks.blocksReturned].
  rewrite Hos_len. split; reflexivity.
Qed.

End BlocksQuery.

(** C1, as the code has it.  For every integer limit of at least 1, when the
    provider lists at least 15 blocks (with printable block times), the
    blocks query returns as many blocks as the limit clamped to the range
    from 1 to 15; nothing raises a smaller limit to 1. *)
Theorem C1_blocks_limit_clamped
    (limit : Z) (up : Upstream) (clock : Clock) (bs : list Block.t) :
  api_blocks up = Fulfilled bs ->
  (15 <= List.length bs)%nat ->
  Forall (fun b => valid_date (Block.timestamp b)) bs ->
  1 <= limit ->
  returns_blocks limit up clock (clamp 1 15 limit).
Proof.
  intros Hup Hlen Hvalid Hlimit.
  assert (E : Z.of_nat (List.length (JS.slice0 (Z.min limit 15) bs))
              = clamp 1 15 limit).
  { rewrite slice0_length by lia. unfold clamp. lia. }
  rewrite <- E.
  apply blocks_handler_returns; [ exact Hup | exact Hvalid | ].
  rewrite E. unfold clamp. lia.
Qed.

Lemma C1_blocks_limit_clamped_witness :
  returns_blocks 100 Sample.snapshot Sample.clock 15.
Proof.
  apply (C1_blocks_limit_clamped 100 Sample.snapshot Sample.clock Sample.blocks).
  - reflexivity.
  - vm_compute. lia.
  - unfold valid_date. repeat constructor; vm_compute; discriminate.
  - lia.
Defined.

(** Without a limit the schema supplies 10. *)
Example blocks_default_limit :
  exists out,
    run (Blocks.handler (Blocks.parse None) Sample.snapshot) Sample.clock
    = Fulfilled out
    /\ Blocks.blocksReturned (Blocks.summary out) = 10%nat
    /\ Blocks.heightRange (Blocks.summary out) = "799991 - 800000".
Proof. eexists. split; [ vm_compute; reflexivity | split; reflexivity ]. Qed.

(** C1, as stated, fails below 1: with fifteen blocks upstream a limit of 0
    makes the query fail instead of returning one block, and a limit of -3
    returns twelve blocks. *)
Lemma C1_limit_not_floored :
  ~ returns_blocks 0 Sample.snapshot Sample.clock (clamp 1 15 0)
  /\ run (Blocks.handler {| Blocks.limit := 0 |} Sample.snapshot) Sample.clock
     = Rejected TypeError
  /\ ~ returns_blocks (-3) Sample.snapshot Sample.clock (clamp 1 15 (-3))
  /\ returns_blocks (-3) Sample.snapshot Sample.clock 12.
Proof.
  assert (H0 : run (Blocks.handler {| Blocks.limit := 0 |} Sample.snapshot)
                 Sample.clock = Rejected TypeError) by reflexivity.
  assert (H3 : returns_blocks (-3) Sample.snapshot Sample.clock 12).
  { eexists. split; [ vm_compute; reflexivity | split; reflexivity ]. }
  split; [ | split; [ exact H0 | split; [ | exact H3 ] ] ].
  - intros [out [Hrun _]]. rewrite H0 in Hrun. discriminate.
  - intros [out [Hrun [Hlen _]]].
    destruct H3 as [out' [Hrun' [Hlen' _]]].
    rewrite Hrun' in Hrun. injection Hrun as <-.
    rewrite Hlen' in Hlen. discriminate.
Qed.

(** ** The address report *)

Section AddressReportQuery.

Lemma clock_free_recentTx_of (a : string) (tx : Tx.t) :
  clock_free (AddressReport.recentTx_of a tx).
Proof.
  unfold AddressReport.recentTx_of.
  apply clock_free_bind; [ | intro; apply clock_free_ret ].
  destruct (Tx.block_time (Tx.status tx)) as [t | ]; [ | apply clock_free_ret ].
  destruct (JS.truthy (Some t)); [ | apply clock_free_ret ].
  apply clock_free_bind; [ apply clock_free_Date_of_seconds | ].
  intro; apply clock_free_ret.
Qed.

(** [txs.some] ends normally whatever the transactions are. *)
Lemma someM_recent_total (txs : list Tx.t) clock n :
  exists b n', someM AddressReport.recent txs clock n = Fulfilled (b, n').
Proof.
  revert n. induction txs as [ | tx txs IH ]; intro n; cbn [someM].
  - exists false, n. reflexivity.
  - unfold bind at 1.
    assert (H : exists b n1, AddressReport.recent tx clock n = Fulfilled (b, n1)).
    { unfold AddressReport.recent.
      destruct (Tx.block_time (Tx.status tx)) as [t | ];
        [ destruct (JS.truthy (Some t)) | ]; eexists; eexists; reflexivity. }
    destruct H as [b [n1 H]]. rewrite H.
    destruct b; [ exists true, n1; reflexivity | apply IH ].
Qed.

(** What a fulfilled address report is made of. *)
Lemma address_report_fulfilled (ctx : AddressReport.input) (up : Upstream)
    (clock : Clock) (out : AddressReport.output) :
  run (AddressReport.handler ctx up) clock = Fulfilled out ->
  exists data txs tk recentTxs recentActivity n,
    api_address up (AddressReport.address ctx) = Fulfilled data
    /\ catch (api_address_txs up (AddressReport.address ctx)) [] = Fulfilled txs
    /\ api_ticker up = Fulfilled tk
    /\ mapM (AddressReport.recentTx_of (AddressReport.address ctx))
         (JS.slice0 10 txs) clock O = Fulfilled (recentTxs, O)
    /\ someM AddressReport.recent txs clock O = Fulfilled (recentActivity, n)
    /\ AddressReport.recentTransactions out = recentTxs
    /\ AddressReport.classification out
       = {| AddressReport.isActive :=
              (10 <? Address.tx_count (Address.chain_stats data))%N;
            AddressReport.isWhale :=
              100000000000
              <? Z.of_N (Address.funded_txo_sum (Address.chain_stats data))
                 - Z.of_N (Address.spent_txo_sum (Address.chain_stats data));
            AddressReport.hasRecentActivity := recentActivity |}
    /\ AddressReport.fetchedAt out = JS.ISO (clock n).
Proof.
  unfold AddressReport.handler. run_handler.
  destruct (api_address up (AddressReport.address ctx)) as [data | e];
    [ | destruct (api_address_txs up (AddressReport.address ctx)),
          (api_ticker up); discriminate ].
  destruct (api_address_txs up (AddressReport.address ctx)) as [txs | e];
    (destruct (api_ticker up) as [tk | e']; [ | discriminate ]).
  all: match goal with
       | |- context [ mapM ?f ?l ?c O ] =>
           destruct (mapM f l c O) as [[recentTxs n0] | e1] eqn:Hmap;
           [ | discriminate ];
           assert (n0 = O)
             by (eapply clock_free_count; [ | exact Hmap ];
                 apply clock_free_mapM; intro; apply clock_free_recentTx_of);
           subst n0
       end.
  all: match goal with
       | |- context [ someM AddressReport.recent ?l ?c O ] =>
           destruct (someM_recent_total l c O) as [b [n Hsome]];
           rewrite Hsome
       end.
  all: intro H; apply Fulfilled_inj in H; subst out.
  - exists data, txs, tk, recentTxs, b, n.
    repeat split; solve [ reflexivity | assumption ].
  - exists data, [], tk, recentTxs, b, n.
    repeat split; solve [ reflexivity | assumption ].
Qed.

End AddressReportQuery.

(** C2.  In the address report a failure of the transaction-history fetch,
    whatever its reason, is replaced by an empty history: the query succeeds
    with [recentTransactions] empty and every other field filled in from the
    address and the ticker.  A failure of the address fetch fails the whole
    query: no output is produced. *)
Theorem C2_address_report_isolation
    (ctx : AddressReport.input) (up up' : Upstream) (clock : Clock)
    (data : Address.t) (tk : Ticker.t) (e e' : error) :
  api_address up (AddressReport.address ctx) = Fulfilled data ->
  api_address_txs up (AddressReport.address ctx) = Rejected e ->
  api_ticker up = Fulfilled tk ->
  api_address up' (AddressReport.address ctx) = Rejected e' ->
  (exists out,
     run (AddressReport.handler ctx up) clock = Fulfilled out
     /\ AddressReport.recentTransactions out = []
     /\ out = report_without_history (AddressReport.address ctx) data tk (clock O))
  /\ (exists reason,
        run (AddressReport.handler ctx up') clock = Rejected reason).
Proof.
  intros Ha Htxs Htk Ha'. split.
  - unfold AddressReport.handler. run_handler. rewrite Ha, Htxs, Htk.
    eexists. split; [ reflexivity | split; reflexivity ].
  - unfold AddressReport.handler. run_handler. rewrite Ha'.
    exists e'. reflexivity.
Qed.

Lemma C2_address_report_isolation_witness :
  (exists out,
     run (AddressReport.handler {| AddressReport.address := Sample.me |}
            Sample.snapshot_without_txs) Sample.clock = Fulfilled out
     /\ AddressReport.recentTransactions out = []
     /\ out = report_without_history Sample.me Sample.address_data Sample.ticker
                (Sample.clock O))
  /\ (exists reason,
        run (AddressReport.handler {| AddressReport.address := Sample.me |}
               Sample.snapshot_without_address) Sample.clock = Rejected reason).
Proof.
  exact (C2_address_report_isolation {| AddressReport.address := Sample.me |}
           Sample.snapshot_without_txs Sample.snapshot_without_address
           Sample.clock Sample.address_data Sample.ticker
           (ApiError 503) (ApiError 503) eq_refl eq_refl eq_refl eq_refl).
Defined.

(** C5.  In a fulfilled address report [isActive] holds exactly when the
    confirmed transaction count exceeds 10, and [isWhale] exactly when the
    confirmed balance exceeds 100,000,000,000 sats. *)
Theorem C5_classification_thresholds
    (ctx : AddressReport.input) (up : Upstream) (clock : Clock)
    (out : AddressReport.output) :
  run (AddressReport.handler ctx up) clock = Fulfilled out ->
  exists data,
    api_address up (AddressReport.address ctx) = Fulfilled data
    /\ (AddressReport.isActive (AddressReport.classification out) = true
        <-> (10 < Address.tx_count (Address.chain_stats data))%N)
    /\ (AddressReport.isWhale (AddressReport.classification out) = true
        <-> 100000000000
            < Z.of_N (Address.funded_txo_sum (Address.chain_stats data))
              - Z.of_N (Address.spent_txo_sum (Address.chain_stats data))).
Proof.
  intro H.
  destruct (address_report_fulfilled ctx up clock out H)
    as (data & txs & tk & rtxs & b & n & Ha & _ & _ & _ & _ & _ & Hc & _).
  exists data. split; [ exact Ha | ].
  rewrite Hc. cbn [AddressReport.isActive AddressReport.isWhale].
  split; [ apply N.ltb_lt | apply Z.ltb_lt ].
Qed.

Lemma C5_classification_thresholds_witness :
  exists out,
    run (AddressReport.handler {| AddressReport.address := Sample.me |}
           Sample.snapshot) Sample.clock = Fulfilled out
    /\ exists data,
         api_address Sample.snapshot Sample.me = Fulfilled data
         /\ (AddressReport.isActive (AddressReport.classification out) = true
             <-> (10 < Address.tx_count (Address.chain_stats data))%N)
         /\ (AddressReport.isWhale (AddressReport.classification out) = true
             <-> 100000000000
                 < Z.of_N (Address.funded_txo_sum (Address.chain_stats data))
                   - Z.of_N (Address.spent_txo_sum (Address.chain_stats data))).
Proof.
  eexists. split; [ vm_compute; reflexivity | ].
  apply (C5_classification_thresholds {| AddressReport.address := Sample.me |}
           Sample.snapshot Sample.clock).
  vm_compute. reflexivity.
Defined.

(** The thresholds at their boundaries. *)
Example classification_boundaries :
  let report count funded :=
    run (AddressReport.handler {| AddressReport.address := Sample.me |}
           (Sample.providers (Fulfilled (Sample.address_with count funded))
              (Fulfilled [])))
      Sample.clock in
  let flags r :=
    match r with
    | Fulfilled out =>
        Some (AddressReport.isActive (AddressReport.classification out),
              AddressReport.isWhale (AddressReport.classification out))
    | Rejected _ => None
    end in
  flags (report 10%N 100000000000%N) = Some (false, false)
  /\ flags (report 11%N 100000000001%N) = Some (true, true).
Proof. split; vm_compute; reflexivity. Qed.

Section RecentActivity.

Lemma truthy_Some (t : N) : JS.truthy (Some t) = true <-> t <> 0%N.
Proof.
  unfold JS.truthy. rewrite negb_true_iff. apply N.eqb_neq.
Qed.

(** The comparison of the callback, in integers. *)
Lemma recent_comparison (now : Z) (t : N) :
  JS.lt (JS.sub (JS.div (JS.of_Z now) (JS.of_Z 1000)) (JS.of_N t))
    (JS.of_Z (86400 * 30)) = true
  <-> within_30_days now t.
Proof.
  rewrite div_of_Z by lia. unfold JS.of_N, JS.of_Z, JS.sub, JS.lt, within_30_days.
  assert (E : (inject_Z now / inject_Z 1000 - inject_Z (Z.of_N t)
               == inject_Z (now - 1000 * Z.of_N t) / inject_Z 1000)%Q).
  { unfold Z.sub. rewrite inject_Z_plus, inject_Z_opp, inject_Z_mult. field. }
  rewrite Qltb_lt, E, <- Qltb_lt, Qltb_ratio_lt by lia.
  rewrite Z.ltb_lt. lia.
Qed.

(** One call of the callback. *)
Lemma recent_cases (tx : Tx.t) clock n :
  match Tx.block_time (Tx.status tx) with
  | Some t =>
      if JS.truthy (Some t)
      then exists b, AddressReport.recent tx clock n = Fulfilled (b, S n)
                     /\ (b = true <-> within_30_days (clock n) t)
      else AddressReport.recent tx clock n = Fulfilled (false, n)
  | None => AddressReport.recent tx clock n = Fulfilled (false, n)
  end.
Proof.
  unfold AddressReport.recent.
  destruct (Tx.block_time (Tx.status tx)) as [t | ]; [ | reflexivity ].
  destruct (JS.truthy (Some t)); [ | reflexivity ].
  eexists. split; [ reflexivity | apply recent_comparison ].
Qed.

(** [txs.some] of the classification: it never throws, and it answers true
    exactly when some transaction has a block time, not zero, within 30 days
    of the reading of the clock taken for that transaction. *)
Lemma someM_recent_spec (txs : list Tx.t) clock n :
  exists b n',
    someM AddressReport.recent txs clock n = Fulfilled (b, n')
    /\ (b = true <->
        exists i tx t,
          nth_error txs i = Some tx
          /\ Tx.block_time (Tx.status tx) = Some t
          /\ t <> 0%N
          /\ within_30_days (clock (n + readings_before txs i)%nat) t).
Proof.
  revert n. induction txs as [ | tx txs IH ]; intro n.
  - exists false, n. split; [ reflexivity | ].
    split; [ discriminate | ].
    intros (i & tx & t & H & _). destruct i; discriminate.
  - cbn [someM]. unfold bind at 1.
    assert (C := recent_cases tx clock n).
    destruct (Tx.block_time (Tx.status tx)) as [t | ] eqn:Et;
      [ destruct (JS.truthy (Some t)) eqn:Tt | ].
    + (* a block time: the clock is read *)
      destruct C as [b [Hb Hrec]]. rewrite Hb.
      destruct b.
      * exists true, (S n). split; [ reflexivity | ].
        split; [ intros _ | reflexivity ].
        exists O, tx, t. cbn. rewrite Nat.add_0_r.
        repeat split; [ exact Et | apply truthy_Some; exact Tt | apply Hrec; reflexivity ].
      * destruct (IH (S n)) as [b [n' [Hs Hiff]]].
        exists b, n'. split; [ exact Hs | ].
        rewrite Hiff. split.
        -- intros (i & tx' & t' & Hi & Ht' & Hnz & Hw).
           exists (S i), tx', t'. repeat split; try assumption.
           unfold readings_before in *. cbn [firstn filter]. rewrite Et, Tt.
           cbn [List.length]. rewrite Nat.add_succ_r. exact Hw.
        -- intros (i & tx' & t' & Hi & Ht' & Hnz & Hw).
           destruct i as [ | i ].
           ++ cbn in Hi. injection Hi as <-. rewrite Et in Ht'.
              injection Ht' as <-. cbn in Hw. rewrite Nat.add_0_r in Hw.
              apply Hrec in Hw. discriminate.
           ++ exists i, tx', t'. repeat split; try assumption.
              unfold readings_before in *. cbn [firstn filter] in Hw.
              rewrite Et, Tt in Hw. cbn [List.length] in Hw.
              rewrite Nat.add_succ_r in Hw. exact Hw.
    + (* a block time of zero: falsy *)
      rewrite C. destruct (IH n) as [b [n' [Hs Hiff]]].
      exists b, n'. split; [ exact Hs | ].
      rewrite Hiff. split.
      * intros (i & tx' & t' & Hi & Ht' & Hnz & Hw).
        exists (S i), tx', t'. repeat split; try assumption.
        unfold readings_before in *. cbn [firstn filter]. rewrite Et, Tt. exact Hw.
      * intros (i & tx' & t' & Hi & Ht' & Hnz & Hw).
        destruct i as [ | i ].
        -- cbn in Hi. injection Hi as <-. rewrite Et in Ht'.
           injection Ht' as <-. apply truthy_Some in Hnz. congruence.
        -- exists i, tx', t'. repeat split; try assumption.
           unfold readings_before in *. cbn [firstn filter] in Hw.
           rewrite Et, Tt in Hw. exact Hw.
    + (* no block time *)
      rewrite C. destruct (IH n) as [b [n' [Hs Hiff]]].
      exists b, n'. split; [ exact Hs | ].
      rewrite Hiff. split.
      * intros (i & tx' & t' & Hi & Ht' & Hnz & Hw).
        exists (S i), tx', t'. repeat split; try assumption.
        unfold readings_before in *. cbn [firstn filter]. rewrite Et. exact Hw.
      * intros (i & tx' & t' & Hi & Ht' & Hnz & Hw).
        destruct i as [ | i ].
        -- cbn in Hi. injection Hi as <-. rewrite Et in Ht'. discriminate.
        -- exists i, tx', t'. repeat split; try assumption.
           unfold readings_before in *. cbn [firstn filter] in Hw.
           rewrite Et in Hw. exact Hw.
Qed.

End RecentActivity.

(** C6, as the code has it.  [hasRecentActivity] is true exactly when some
    transaction of the fetched history has a block time, present and not
    zero, less than 86,400 x 30 seconds before the reading of the clock
    taken when that transaction is examined; the clock is read once per
    examined transaction and once more for [fetchedAt].  When all readings
    of the request agree, that single capture time decides.  A missing
    block time is not recent, and the test never throws. *)
Theorem C6_recent_activity
    (ctx : AddressReport.input) (up : Upstream) (clock : Clock)
    (out : AddressReport.output) :
  run (AddressReport.handler ctx up) clock = Fulfilled out ->
  exists txs,
    catch (api_address_txs up (AddressReport.address ctx)) [] = Fulfilled txs
    /\ (AddressReport.hasRecentActivity (AddressReport.classification out) = true
        <-> exists i tx t,
              nth_error txs i = Some tx
              /\ Tx.block_time (Tx.status tx) = Some t
              /\ t <> 0%N
              /\ within_30_days (clock (readings_before txs i)) t)
    /\ ((forall i, clock i = clock O) ->
        (AddressReport.hasRecentActivity (AddressReport.classification out) = true
         <-> exists tx t,
               In tx txs
               /\ Tx.block_time (Tx.status tx) = Some t
               /\ t <> 0%N
               /\ within_30_days (capture_time out) t))
    /\ (forall history n,
          exists b n',
            someM AddressReport.recent history clock n = Fulfilled (b, n')).
Proof.
  intro H.
  destruct (address_report_fulfilled ctx up clock out H)
    as (data & txs & tk & rtxs & b & n & _ & Htxs & _ & _ & Hsome & _ & Hc & Hf).
  exists txs. split; [ exact Htxs | ].
  destruct (someM_recent_spec txs clock O) as (b' & n' & Hs & Hiff).
  rewrite Hs in Hsome. apply Fulfilled_inj in Hsome.
  injection Hsome as -> ->.
  rewrite Hc. cbn [AddressReport.hasRecentActivity].
  split; [ exact Hiff | split ].
  - intro Hconst. rewrite Hiff. unfold capture_time. rewrite Hf, (Hconst n).
    split.
    + intros (i & tx & t & Hi & Ht & Hnz & Hw).
      exists tx, t. rewrite (Hconst _) in Hw.
      repeat split; try assumption. exact (nth_error_In _ _ Hi).
    + intros (tx & t & Hin & Ht & Hnz & Hw).
      destruct (In_nth_error _ _ Hin) as [i Hi].
      exists i, tx, t. rewrite (Hconst _).
      repeat split; assumption.
  - intros history k. apply someM_recent_total.
Qed.

Lemma C6_recent_activity_witness :
  exists out,
    run (AddressReport.handler {| AddressReport.address := Sample.me |}
           Sample.snapshot) Sample.clock_still = Fulfilled out
    /\ (AddressReport.hasRecentActivity (AddressReport.classification out) = true
        <-> exists tx t,
              In tx [Sample.tx_in; Sample.tx_out]
              /\ Tx.block_time (Tx.status tx) = Some t
              /\ t <> 0%N
              /\ within_30_days (capture_time out) t).
Proof.
  eexists. split; [ vm_compute; reflexivity | ].
  destruct (C6_recent_activity {| AddressReport.address := Sample.me |}
              Sample.snapshot Sample.clock_still _ eq_refl)
    as (txs & Htxs & _ & Hstill & _).
  apply Fulfilled_inj in Htxs. subst txs.
  apply Hstill. intro i. reflexivity.
Defined.

(** C6, as stated, fails when the clock ticks between the test of a
    transaction and the stamping of the response: the report says
    [hasRecentActivity] although no transaction lies within 30 days of its
    capture time, the instant of [fetchedAt]. *)
Lemma C6_no_single_capture_time :
  exists out,
    run (AddressReport.handler {| AddressReport.address := Sample.me |}
           Sample.snapshot_edge) Sample.clock_edge = Fulfilled out
    /\ AddressReport.hasRecentActivity (AddressReport.classification out) = true
    /\ ~ recent_at (capture_time out) [Sample.tx_edge].
Proof.
  eexists. split; [ vm_compute; reflexivity | ].
  split; [ reflexivity | ].
  intros (tx & t & Hin & Ht & Hw).
  destruct Hin as [<- | []].
  injection Ht as <-.
  unfold within_30_days, capture_time in Hw. cbn in Hw. lia.
Qed.

Section RecentTransactions.

Lemma same_Some (x : option string) (a : string) :
  JS.same x a = true <-> x = Some a.
Proof.
  destruct x as [s | ]; cbn [JS.same].
  - rewrite String.eqb_eq. split; [ intros ->; reflexivity | intro H; injection H; auto ].
  - split; discriminate.
Qed.

Lemma spends_from_existsb (a : string) (tx : Tx.t) :
  spends_from a tx -> existsb (AddressReport.spends a) (Tx.vin tx) = true.
Proof.
  intros (v & p & Hin & Hp & Ha). apply existsb_exists. exists v.
  split; [ exact Hin | ].
  unfold AddressReport.spends, Transaction.prevout_address. rewrite Hp.
  apply same_Some. exact Ha.
Qed.

Lemma pays_nothing_filter (a : string) (tx : Tx.t) :
  pays_nothing_to a tx -> filter (AddressReport.pays a) (Tx.vout tx) = [].
Proof.
  unfold pays_nothing_to. induction (Tx.vout tx) as [ | v l IH ]; intro H.
  - reflexivity.
  - cbn [filter]. destruct (AddressReport.pays a v) eqn:E.
    + apply same_Some in E. exfalso. exact (H v (or_introl eq_refl) E).
    + apply IH. intros w Hw. apply H. right. exact Hw.
Qed.

Lemma not_incoming_filter (a : string) (l : list Tx.out_t) :
  existsb (AddressReport.pays a) l = false -> filter (AddressReport.pays a) l = [].
Proof.
  induction l as [ | v l IH ]; [ reflexivity | ].
  cbn [existsb filter]. intro H. apply orb_false_iff in H. destruct H as [Hv Hl].
  rewrite Hv. exact (IH Hl).
Qed.

(** The amount of an entry: the sum of the outputs that pay the address. *)
Lemma recentTx_of_fulfilled (a : string) (tx : Tx.t) clock n e n' :
  AddressReport.recentTx_of a tx clock n = Fulfilled (e, n') ->
  AddressReport.type e
  = (if existsb (AddressReport.spends a) (Tx.vin tx) then "outgoing" else "incoming")
  /\ AddressReport.amount e = satsToBtc (Z.of_N (paid_to a tx)).
Proof.
  unfold AddressReport.recentTx_of. intro H.
  apply bind_fulfilled in H. destruct H as (ts & n1 & _ & H).
  unfold ret in H. apply Fulfilled_inj in H. injection H as <- _.
  cbn [AddressReport.type AddressReport.amount]. split; [ reflexivity | ].
  unfold paid_to. fold (AddressReport.pays a).
  destruct (existsb (AddressReport.pays a) (Tx.vout tx)) eqn:E; [ reflexivity | ].
  rewrite (not_incoming_filter _ _ E). reflexivity.
Qed.

Lemma mapM_Forall2 {A B : Type} (f : A -> M B) (l : list A) clock n os n' :
  mapM f l clock n = Fulfilled (os, n') ->
  Forall2 (fun a o => exists n1 n2, f a clock n1 = Fulfilled (o, n2)) l os.
Proof.
  revert n os n'. induction l as [ | a l IH ]; intros n os n' H.
  - cbn in H. apply Fulfilled_inj in H. injection H as <- _. constructor.
  - cbn [mapM] in H.
    apply bind_fulfilled in H. destruct H as (b & n1 & Hb & H).
    apply bind_fulfilled in H. destruct H as (bs & n2 & Hbs & H).
    unfold ret in H. apply Fulfilled_inj in H. injection H as <- _.
    constructor; [ exists n, n1; exact Hb | exact (IH _ _ _ Hbs) ].
Qed.

(** An amount printed from a natural number of sats carries no sign. *)
Lemma satsToBtc_unsigned (n : N) :
  String.prefix "-" (satsToBtc (Z.of_N n)) = false.
Proof.
  rewrite satsToBtc_of_N. unfold JS.decimal, JS.string_of_N.
  destruct (N.to_uint (n / 10 ^ N.of_nat 8)); reflexivity.
Qed.

End RecentTransactions.

(** C10.  In a fulfilled address report every entry of [recentTransactions]
    comes from one of the first ten transactions of the history; if some
    input of the transaction spends from the queried address the entry is
    tagged outgoing; its amount is the sum of the outputs paying the queried
    address, printed in coins, so it is "0.00000000" when no output pays the
    address, and it never carries a sign. *)
Theorem C10_recent_transaction_entries
    (ctx : AddressReport.input) (up : Upstream) (clock : Clock)
    (out : AddressReport.output) :
  run (AddressReport.handler ctx up) clock = Fulfilled out ->
  exists txs,
    catch (api_address_txs up (AddressReport.address ctx)) [] = Fulfilled txs
    /\ Forall2
         (fun tx entry =>
            (spends_from (AddressReport.address ctx) tx ->
             AddressReport.type entry = "outgoing")
            /\ AddressReport.amount entry
               = btc_decimal (Z.of_N (paid_to (AddressReport.address ctx) tx))
            /\ (pays_nothing_to (AddressReport.address ctx) tx ->
                AddressReport.amount entry = "0.00000000")
            /\ String.prefix "-" (AddressReport.amount entry) = false)
         (JS.slice0 10 txs) (AddressReport.recentTransactions out).
Proof.
  intro H.
  destruct (address_report_fulfilled ctx up clock out H)
    as (data & txs & tk & rtxs & b & n & _ & Htxs & _ & Hmap & _ & Hr & _ & _).
  exists txs. split; [ exact Htxs | ].
  rewrite Hr. apply mapM_Forall2 in Hmap.
  eapply Forall2_impl; [ | exact Hmap ].
  intros tx entry (n1 & n2 & He). cbv beta in He.
  apply recentTx_of_fulfilled in He. destruct He as [Htype Hamount].
  repeat split.
  - intro Hs. rewrite Htype, (spends_from_existsb _ _ Hs). reflexivity.
  - rewrite Hamount. apply satsToBtc_btc_decimal.
  - intro Hp. rewrite Hamount. unfold paid_to.
    fold (AddressReport.pays (AddressReport.address ctx)).
    rewrite (pays_nothing_filter _ _ Hp). reflexivity.
  - rewrite Hamount. apply satsToBtc_unsigned.
Qed.

Lemma C10_recent_transaction_entries_witness :
  exists out,
    run (AddressReport.handler {| AddressReport.address := Sample.me |}
           Sample.snapshot) Sample.clock = Fulfilled out
    /\ map (fun entry => (AddressReport.type entry, AddressReport.amount entry))
         (AddressReport.recentTransactions out)
       = [("incoming", "0.00050000"); ("outgoing", "0.00000000")]
    /\ exists txs,
         catch (api_address_txs Sample.snapshot Sample.me) [] = Fulfilled txs
         /\ Forall2
              (fun tx entry =>
                 (spends_from Sample.me tx -> AddressReport.type entry = "outgoing")
                 /\ AddressReport.amount entry
                    = btc_decimal (Z.of_N (paid_to Sample.me tx))
                 /\ (pays_nothing_to Sample.me tx ->
                     AddressReport.amount entry = "0.00000000")
                 /\ String.prefix "-" (AddressReport.amount entry) = false)
              (JS.slice0 10 txs) (AddressReport.recentTransactions out).
Proof.
  eexists. split; [ vm_compute; reflexivity | ].
  split; [ reflexivity | ].
  apply (C10_recent_transaction_entries {| AddressReport.address := Sample.me |}
           Sample.snapshot Sample.clock).
  vm_compute. reflexivity.
Defined.

(** ** All handlers: what the clock can change *)

Section Determinism.

Lemma steady_run {A : Type} (erase : A -> A) (m : M A) clock1 clock2 :
  steady erase m ->
  observed erase (run m clock1) = observed erase (run m clock2).
Proof.
  intro H. specialize (H clock1 clock2 O O). unfold run.
  destruct (m clock1 O) as [[a1 k1] | e1], (m clock2 O) as [[a2 k2] | e2];
    exact H.
Qed.

Lemma clock_free_await {A : Type} (p : settled A) : clock_free (await p).
Proof. exists p. intros clock n. destruct p; reflexivity. Qed.

(** A clock-free step in front of steady continuations. *)
Lemma steady_bind {A B : Type} (erase : B -> B) (m : M A) (k : A -> M B) :
  clock_free m -> (forall a, steady erase (k a)) -> steady erase (bind m k).
Proof.
  intros [r Hr] Hk clock1 clock2 n1 n2. unfold bind. rewrite !Hr.
  destruct r as [a | e]; [ apply Hk | reflexivity ].
Qed.

(** A step that cannot fail, in front of continuations that end the same
    way whatever it returned. *)
Lemma steady_bind_total {A B : Type} (erase : B -> B) (m : M A) (k : A -> M B) :
  (forall clock n, exists a n', m clock n = Fulfilled (a, n')) ->
  (forall a1 a2 clock1 clock2 n1 n2,
     outcome erase (k a1 clock1 n1) = outcome erase (k a2 clock2 n2)) ->
  steady erase (bind m k).
Proof.
  intros Hm Hk clock1 clock2 n1 n2. unfold bind.
  destruct (Hm clock1 n1) as (a1 & k1 & ->).
  destruct (Hm clock2 n2) as (a2 & k2 & ->).
  apply Hk.
Qed.

(** The last step of every handler: stamping the output. *)
Lemma steady_stamp {A : Type} (erase : A -> A) (f : JS.isoString -> A) :
  (forall t1 t2, erase (f t1) = erase (f t2)) ->
  steady erase (fetchedAt <- new_Date_toISOString ;; ret (f fetchedAt)).
Proof.
  intros H clock1 clock2 n1 n2. cbn. f_equal. apply H.
Qed.

Lemma clock_free_block_of (b : Block.t) : clock_free (Blocks.block_of b).
Proof.
  unfold Blocks.block_of.
  apply clock_free_bind; [ apply clock_free_Date_of_seconds | ].
  intro; apply clock_free_ret.
Qed.

Lemma overview_steady (up : Upstream) :
  steady timeless_overview (Overview.handler up).
Proof.
  unfold Overview.handler.
  apply steady_bind; [ apply clock_free_await | intros [[fees stats] blocks] ].
  apply steady_bind; [ apply clock_free_at_index | intro latestBlock ].
  cbv zeta.
  apply steady_bind; [ apply clock_free_Date_of_seconds | intro timestamp ].
  apply steady_stamp with (f := fun t => Overview.Build_output _ _ _ _ t _).
  reflexivity.
Qed.

Lemma address_steady (ctx : AddressLookup.input) (up : Upstream) :
  steady timeless_address (AddressLookup.handler ctx up).
Proof.
  unfold AddressLookup.handler.
  apply steady_bind; [ apply clock_free_await | intro data ].
  cbv zeta.
  apply steady_stamp with (f := fun t => AddressLookup.Build_output _ _ _ _ _ t).
  reflexivity.
Qed.

Lemma transaction_steady (ctx : Transaction.input) (up : Upstream) :
  steady timeless_transaction (Transaction.handler ctx up).
Proof.
  unfold Transaction.handler.
  apply steady_bind; [ apply clock_free_await | intro tx ].
  cbv zeta.
  apply steady_bind.
  - destruct (Tx.block_time (Tx.status tx)) as [t | ]; [ | apply clock_free_ret ].
    destruct (JS.truthy (Some t)); [ | apply clock_free_ret ].
    apply clock_free_bind; [ apply clock_free_Date_of_seconds | ].
    intro; apply clock_free_ret.
  - intro blockTime.
    apply steady_stamp
      with (f := fun t => Transaction.Build_output _ _ _ _ _ _ _ _ _ _ _ t).
    reflexivity.
Qed.

Lemma fees_steady (up : Upstream) : steady timeless_fees (Fees.handler up).
Proof.
  unfold Fees.handler.
  apply steady_bind; [ apply clock_free_await | intros [[fees mempool] blocks] ].
  cbv zeta.
  apply steady_bind.
  - destruct (1 <? Z.of_nat (List.length blocks)); [ | apply clock_free_ret ].
    apply clock_free_bind; [ apply clock_free_at_index | intro first ].
    apply clock_free_bind; [ apply clock_free_at_index | intro last ].
    apply clock_free_ret.
  - intro avgBlockTime.
    apply steady_stamp with (f := fun t => Fees.Build_output _ _ _ _ _ t).
    reflexivity.
Qed.

Lemma blocks_steady (ctx : Blocks.input) (up : Upstream) :
  steady timeless_blocks (Blocks.handler ctx up).
Proof.
  unfold Blocks.handler. cbv zeta.
  apply steady_bind; [ apply clock_free_await | intro blocks ].
  apply steady_bind;
    [ apply clock_free_mapM; exact clock_free_block_of | intro out_blocks ].
  apply steady_bind; [ apply clock_free_at_index | intro oldest ].
  apply steady_bind; [ apply clock_free_at_index | intro newest ].
  apply steady_stamp with (f := fun t => Blocks.Build_output _ _ t).
  reflexivity.
Qed.

(** The address report reads the clock for its recency flag: it is steady
    only up to that flag. *)
Lemma report_steady (ctx : AddressReport.input) (up : Upstream) :
  steady timeless_report_without_recency (AddressReport.handler ctx up).
Proof.
  unfold AddressReport.handler.
  apply steady_bind;
    [ apply clock_free_await | intros [[addressData txs] ticker] ].
  cbv zeta.
  apply steady_bind;
    [ apply clock_free_mapM; intro; apply clock_free_recentTx_of
    | intro recentTxs ].
  apply steady_bind_total; [ intros; apply someM_recent_total | ].
  intros b1 b2 clock1 clock2 n1 n2. reflexivity.
Qed.

End Determinism.

(** C8, as the code has it.  With the same input and the same provider
    responses, two runs of the overview, address, transaction, fees and
    blocks queries end alike, whatever the clocks show: both fail, or both
    succeed with outputs that differ at most in [fetchedAt].  Two runs of
    the address report end alike up to [fetchedAt] and the flag
    [hasRecentActivity], which is computed from the clock. *)
Theorem C8_same_snapshot_same_output
    (up : Upstream) (clock1 clock2 : Clock)
    (a : AddressLookup.input) (t : Transaction.input)
    (b : Blocks.input) (r : AddressReport.input) :
  observed timeless_overview (run (Overview.handler up) clock1)
  = observed timeless_overview (run (Overview.handler up) clock2)
  /\ observed timeless_address (run (AddressLookup.handler a up) clock1)
     = observed timeless_address (run (AddressLookup.handler a up) clock2)
  /\ observed timeless_transaction (run (Transaction.handler t up) clock1)
     = observed timeless_transaction (run (Transaction.handler t up) clock2)
  /\ observed timeless_fees (run (Fees.handler up) clock1)
     = observed timeless_fees (run (Fees.handler up) clock2)
  /\ observed timeless_blocks (run (Blocks.handler b up) clock1)
     = observed timeless_blocks (run (Blocks.handler b up) clock2)
  /\ observed timeless_report_without_recency
       (run (AddressReport.handler r up) clock1)
     = observed timeless_report_without_recency
         (run (AddressReport.handler r up) clock2).
Proof.
  repeat split; apply steady_run.
  - apply overview_steady.
  - apply address_steady.
  - apply transaction_steady.
  - apply fees_steady.
  - apply blocks_steady.
  - apply report_steady.
Qed.

(** C8, as stated, fails for the address report: on the same snapshot a run
    whose clock reads one millisecond earlier reports recent activity and
    the other does not, so the outputs differ in more than [fetchedAt]. *)
Lemma C8_report_depends_on_clock :
  observed timeless_report
    (run (AddressReport.handler {| AddressReport.address := Sample.me |}
            Sample.snapshot_edge) Sample.clock_edge)
  <> observed timeless_report
       (run (AddressReport.handler {| AddressReport.address := Sample.me |}
               Sample.snapshot_edge) Sample.clock_still).
Proof.
  vm_compute. intro H. discriminate H.
Qed.

(** ** Further properties of the handlers *)

(** X1.  Within the exact amounts, below 2^52 sats in magnitude,
    [satsToBtc] loses nothing: reading the printed amount back, the sign,
    then the digits with the point passed over, gives the amount in sats
    again, so two exact amounts that print alike are the same amount.  The
    same holds of the print of the quotient rounded to a double, which is
    the same string. *)
Theorem satsToBtc_round_trip (sats : Z) :
  exact_amount sats ->
  number_of_string (satsToBtc sats) = sats
  /\ (forall other : Z,
        exact_amount other -> satsToBtc other = satsToBtc sats -> other = sats)
  /\ forall fl, rounds_like_double fl ->
       let printed (v : Z) :=
         JS.toFixed 8 (JS.Fin (fl (inject_Z v / inject_Z 100000000)%Q)) in
       printed sats = satsToBtc sats
       /\ number_of_string (printed sats) = sats
       /\ forall other : Z,
            exact_amount other -> printed other = printed sats -> other = sats.
Proof.
  intro Hs.
  split; [ apply number_of_satsToBtc | ].
  split.
  - intros other _ E. rewrite <- (number_of_satsToBtc other), E.
    apply number_of_satsToBtc.
  - intros fl (_ & _ & Herr) printed.
    assert (P : forall v, exact_amount v -> printed v = satsToBtc v).
    { intros v Hv. unfold printed.
      rewrite (satsToBtc_rounded fl Herr v Hv). symmetry.
      apply satsToBtc_btc_decimal. }
    split; [ exact (P sats Hs) | ].
    split; [ rewrite (P sats Hs); apply number_of_satsToBtc | ].
    intros other Ho E. rewrite (P sats Hs), (P other Ho) in E.
    rewrite <- (number_of_satsToBtc other), E.
    apply number_of_satsToBtc.
Qed.

(** A negative amount with decimals. *)
Lemma satsToBtc_round_trip_witness :
  satsToBtc (-123456789) = "-1.23456789"
  /\ JS.toFixed 8
       (JS.Fin (binary64 (inject_Z (-123456789) / inject_Z 100000000)%Q))
     = "-1.23456789"
  /\ number_of_string (satsToBtc (-123456789)) = -123456789
  /\ (forall other : Z,
        exact_amount other ->
        satsToBtc other = satsToBtc (-123456789) -> other = -123456789)
  /\ forall fl, rounds_like_double fl ->
       let printed (v : Z) :=
         JS.toFixed 8 (JS.Fin (fl (inject_Z v / inject_Z 100000000)%Q)) in
       printed (-123456789) = satsToBtc (-123456789)
       /\ number_of_string (printed (-123456789)) = -123456789
       /\ forall other : Z,
            exact_amount other ->
            printed other = printed (-123456789) -> other = -123456789.
Proof.
  split; [ vm_compute; reflexivity | ].
  split; [ vm_compute; reflexivity | ].
  apply (satsToBtc_round_trip (-123456789)). reflexivity.
Defined.

(** ** The helper [fetchJSON] *)

(** X2.  [fetchJSON] gives a value exactly when the fetch resolved with a
    status from 200 to 299 and the body of that response parsed to the
    value; a response with any other status is turned into the error of its
    status, whatever its body holds, and a fetch that failed keeps its own
    reason. *)
Theorem fetchJSON_outcome {A : Type} (fetched : settled (Http.response A)) :
  (forall v : A,
     fetchJSON fetched = Fulfilled v
     <-> exists r, fetched = Fulfilled r
                   /\ 200 <= Http.status r <= 299
                   /\ Http.json r = Fulfilled v)
  /\ (forall r, fetched = Fulfilled r ->
                ~ 200 <= Http.status r <= 299 ->
                fetchJSON fetched = Rejected (ApiError (Http.status r)))
  /\ (forall e, fetched = Rejected e -> fetchJSON fetched = Rejected e).
Proof.
  assert (Hok : forall r : Http.response A,
            Http.ok r = true <-> 200 <= Http.status r <= 299).
  { intro r. unfold Http.ok. rewrite andb_true_iff, !Z.leb_le. reflexivity. }
  split; [ | split ].
  - intro v. split.
    + destruct fetched as [r | e]; cbn [fetchJSON]; [ | discriminate ].
      destruct (Http.ok r) eqn:E; cbn [negb]; [ | discriminate ].
      intro H. exists r. split; [ reflexivity | ].
      split; [ apply Hok; exact E | exact H ].
    + intros (r & -> & Hr & Hv). cbn [fetchJSON].
      apply Hok in Hr. rewrite Hr. exact Hv.
  - intros r -> Hr. cbn [fetchJSON].
    destruct (Http.ok r) eqn:E; [ | reflexivity ].
    exfalso. apply Hr, Hok. exact E.
  - intros e ->. reflexivity.
Qed.

(** ** The overview *)

Section OverviewQuery.

Lemma overview_run (up : Upstream) (clock : Clock)
    (fees : FeesRecommended.t) (stats : Stats.t) (b : Block.t) (bs : list Block.t) :
  api_fees_recommended up = Fulfilled fees ->
  api_stats up = Fulfilled stats ->
  api_blocks up = Fulfilled (b :: bs) ->
  run (Overview.handler up) clock
  = if Z.of_N (Block.timestamp b) * 1000 <=? 8640000000000000
    then Fulfilled
           {| Overview.network :=
                {| Overview.blockHeight := Block.height b;
                   Overview.difficulty := Stats.difficulty (Stats.data stats);
                   Overview.hashrate := Stats.hashrate_24h (Stats.data stats);
                   Overview.mempoolTxs :=
                     Stats.mempool_transactions (Stats.data stats);
                   Overview.mempoolSize := Stats.mempool_size (Stats.data stats) |};
              Overview.fees :=
                {| Overview.fastest := FeesRecommended.fastestFee fees;
                   Overview.halfHour := FeesRecommended.halfHourFee fees;
                   Overview.hour := FeesRecommended.hourFee fees;
                   Overview.economy := FeesRecommended.economyFee fees;
                   Overview.minimum := FeesRecommended.minimumFee fees;
                   Overview.unit := "sat/vB" |};
              Overview.price :=
                {| Overview.usd := Stats.market_price_usd (Stats.data stats) |};
              Overview.latestBlock :=
                {| Overview.height := Block.height b;
                   Overview.timestamp := JS.ISO (Z.of_N (Block.timestamp b) * 1000);
                   Overview.txCount := Block.tx_count b;
                   Overview.size := Block.size b |};
              Overview.fetchedAt := JS.ISO (clock O);
              Overview.dataSources := ["mempool.space"; "blockchair.com"] |}
    else Rejected RangeError.
Proof.
  intros Hf Hs Hb. unfold Overview.handler. run_handler. rewrite Hf, Hs, Hb.
  unfold at_index. cbn [Z.ltb Z.compare Z.to_nat nth_error]. run_handler.
  unfold Date_of_seconds_toISOString.
  destruct (Z.of_N (Block.timestamp b) * 1000 <=? 8640000000000000);
    reflexivity.
Qed.

End OverviewQuery.

(** X3.  The overview succeeds exactly when its three fetches succeed, the
    list of blocks is not empty and the time of its first block can be
    printed; with an empty list it fails on the read of the first block. *)
Theorem overview_outcome (up : Upstream) (clock : Clock) :
  ((exists out, run (Overview.handler up) clock = Fulfilled out)
   <-> exists fees stats b bs,
         api_fees_recommended up = Fulfilled fees
         /\ api_stats up = Fulfilled stats
         /\ api_blocks up = Fulfilled (b :: bs)
         /\ valid_date (Block.timestamp b))
  /\ ((exists fees stats,
         api_fees_recommended up = Fulfilled fees
         /\ api_stats up = Fulfilled stats
         /\ api_blocks up = Fulfilled [])
      -> run (Overview.handler up) clock = Rejected TypeError).
Proof.
  split.
  - split.
    + intros [out H].
      destruct (overview_fulfilled up clock out H)
        as (fees & stats & blocks & b & Hf & Hs & Hb & Hn & _).
      destruct blocks as [ | b' bs ]; [ discriminate | ].
      cbn in Hn. injection Hn as ->.
      exists fees, stats, b, bs. repeat split; try assumption.
      rewrite (overview_run up clock fees stats b bs Hf Hs Hb) in H.
      unfold valid_date.
      destruct (Z.of_N (Block.timestamp b) * 1000 <=? 8640000000000000) eqn:E;
        [ apply Z.leb_le; exact E | discriminate ].
    + intros (fees & stats & b & bs & Hf & Hs & Hb & Hv).
      rewrite (overview_run up clock fees stats b bs Hf Hs Hb).
      apply Z.leb_le in Hv. rewrite Hv. eexists. reflexivity.
  - intros (fees & stats & Hf & Hs & Hb).
    unfold Overview.handler. run_handler. rewrite Hf, Hs, Hb. reflexivity.
Qed.

(** X4.  The overview reads the first block of the list and no other: two
    snapshots with the same fees, the same statistics and the same first
    block give the same overview, and in it the height of the network is
    the height of the latest block, whose time is the block's time in
    milliseconds. *)
Theorem overview_latest_block_only
    (up1 up2 : Upstream) (clock : Clock) (b : Block.t) (bs1 bs2 : list Block.t) :
  api_fees_recommended up1 = api_fees_recommended up2 ->
  api_stats up1 = api_stats up2 ->
  api_blocks up1 = Fulfilled (b :: bs1) ->
  api_blocks up2 = Fulfilled (b :: bs2) ->
  run (Overview.handler up1) clock = run (Overview.handler up2) clock
  /\ forall out,
       run (Overview.handler up1) clock = Fulfilled out ->
       Overview.blockHeight (Overview.network out)
       = Overview.height (Overview.latestBlock out)
       /\ Overview.height (Overview.latestBlock out) = Block.height b
       /\ Overview.timestamp (Overview.latestBlock out)
          = JS.ISO (Z.of_N (Block.timestamp b) * 1000)
       /\ Overview.fetchedAt out = JS.ISO (clock O).
Proof.
  intros Hf Hs H1 H2.
  destruct (api_fees_recommended up1) as [fees | e] eqn:E1.
  - destruct (api_stats up1) as [stats | e] eqn:E2.
    + rewrite (overview_run up1 clock fees stats b bs1 E1 E2 H1).
      rewrite (overview_run up2 clock fees stats b bs2 (eq_sym Hf) (eq_sym Hs) H2).
      split; [ reflexivity | ].
      intro out.
      destruct (Z.of_N (Block.timestamp b) * 1000 <=? 8640000000000000);
        [ | discriminate ].
      intro H. apply Fulfilled_inj in H. subst out. repeat split.
    + split.
      * unfold Overview.handler. run_handler.
        rewrite <- ?Hf, <- ?Hs, ?E1, ?E2, ?H1, ?H2. reflexivity.
      * intro out. unfold Overview.handler. run_handler.
        rewrite E1, E2, ?H1. discriminate.
  - split.
    + unfold Overview.handler. run_handler.
      rewrite <- ?Hf, <- ?Hs, ?E1, ?H1, ?H2.
      destruct (api_stats up1); reflexivity.
    + intro out. unfold Overview.handler. run_handler.
      rewrite E1, ?H1. destruct (api_stats up1); discriminate.
Qed.

Lemma overview_latest_block_only_witness :
  run (Overview.handler Sample.snapshot) Sample.clock
  = run (Overview.handler
           {| api_fees_recommended := Fulfilled Sample.fees;
              api_stats := Fulfilled Sample.stats;
              api_blocks := Fulfilled [Sample.block 0];
              api_mempool := Rejected FetchError;
              api_address := fun _ => Rejected FetchError;
              api_address_txs := fun _ => Rejected FetchError;
              api_tx := fun _ => Rejected FetchError;
              api_ticker := Rejected FetchError |}) Sample.clock
  /\ forall out,
       run (Overview.handler Sample.snapshot) Sample.clock = Fulfilled out ->
       Overview.blockHeight (Overview.network out)
       = Overview.height (Overview.latestBlock out)
       /\ Overview.height (Overview.latestBlock out) = 800000%N
       /\ Overview.timestamp (Overview.latestBlock out) = JS.ISO 1700000000000
       /\ Overview.fetchedAt out = JS.ISO 1700000000000.
Proof.
  exact (overview_latest_block_only Sample.snapshot
           {| api_fees_recommended := Fulfilled Sample.fees;
              api_stats := Fulfilled Sample.stats;
              api_blocks := Fulfilled [Sample.block 0];
              api_mempool := Rejected FetchError;
              api_address := fun _ => Rejected FetchError;
              api_address_txs := fun _ => Rejected FetchError;
              api_tx := fun _ => Rejected FetchError;
              api_ticker := Rejected FetchError |}
           Sample.clock
           (Sample.block 0) (map Sample.block (seq 1 14)) []
           eq_refl eq_refl eq_refl eq_refl).
Defined.

(** ** The address lookup *)

Section AddressLookupQuery.

Lemma address_lookup_run (ctx : AddressLookup.input) (up : Upstream)
    (clock : Clock) (data : Address.t) :
  api_address up (AddressLookup.address ctx) = Fulfilled data ->
  let chain := Address.chain_stats data in
  let pool := Address.mempool_stats data in
  let chainBalance :=
    Z.of_N (Address.funded_txo_sum chain) - Z.of_N (Address.spent_txo_sum chain) in
  let mempoolBalance :=
    Z.of_N (Address.funded_txo_sum pool) - Z.of_N (Address.spent_txo_sum pool) in
  run (AddressLookup.handler ctx up) clock
  = Fulfilled
      {| AddressLookup.out_address := AddressLookup.address ctx;
         AddressLookup.balance :=
           {| AddressLookup.confirmed := satsToBtc chainBalance;
              AddressLookup.unconfirmed := satsToBtc mempoolBalance;
              AddressLookup.total := satsToBtc (chainBalance + mempoolBalance);
              AddressLookup.sats := chainBalance + mempoolBalance |};
         AddressLookup.transactions :=
           {| AddressLookup.tx_confirmed := Address.tx_count chain;
              AddressLookup.tx_unconfirmed := Address.tx_count pool;
              AddressLookup.tx_total :=
                (Address.tx_count chain + Address.tx_count pool)%N |};
         AddressLookup.received := satsToBtc (Z.of_N (Address.funded_txo_sum chain));
         AddressLookup.spent := satsToBtc (Z.of_N (Address.spent_txo_sum chain));
         AddressLookup.fetchedAt := JS.ISO (clock O) |}.
Proof.
  intro H. cbv zeta. unfold AddressLookup.handler. run_handler. rewrite H.
  reflexivity.
Qed.

End AddressLookupQuery.

(** X6.  In an answer of the address lookup the printed amounts add up,
    when the provider's four sums and the total balance are exact amounts,
    below 2^52 sats in magnitude: read back in sats, the total is the
    confirmed plus the unconfirmed balance and equals the [sats] field, the
    confirmed balance is what was received less what was spent, and the
    transaction total is the sum of the confirmed and the unconfirmed
    count.  The totals received and spent are printed as amounts in coins
    with eight decimals, and the prints add up in the same way when every
    division is rounded to a double. *)
Theorem address_lookup_amounts_add_up
    (ctx : AddressLookup.input) (up : Upstream) (clock : Clock)
    (data : Address.t) (out : AddressLookup.output) :
  api_address up (AddressLookup.address ctx) = Fulfilled data ->
  run (AddressLookup.handler ctx up) clock = Fulfilled out ->
  let chain := Address.chain_stats data in
  let pool := Address.mempool_stats data in
  let funded := Z.of_N (Address.funded_txo_sum chain) in
  let spent := Z.of_N (Address.spent_txo_sum chain) in
  let unconfirmed :=
    Z.of_N (Address.funded_txo_sum pool) - Z.of_N (Address.spent_txo_sum pool) in
  exact_stats chain ->
  exact_stats pool ->
  exact_amount (funded - spent + unconfirmed) ->
  let balance := AddressLookup.balance out in
  AddressLookup.out_address out = AddressLookup.address ctx
  /\ prints_btc funded (AddressLookup.received out)
  /\ prints_btc spent (AddressLookup.spent out)
  /\ number_of_string (AddressLookup.total balance) = AddressLookup.sats balance
  /\ number_of_string (AddressLookup.confirmed balance)
     + number_of_string (AddressLookup.unconfirmed balance)
     = AddressLookup.sats balance
  /\ number_of_string (AddressLookup.received out)
     - number_of_string (AddressLookup.spent out)
     = number_of_string (AddressLookup.confirmed balance)
  /\ AddressLookup.tx_total (AddressLookup.transactions out)
     = (AddressLookup.tx_confirmed (AddressLookup.transactions out)
        + AddressLookup.tx_unconfirmed (AddressLookup.transactions out))%N
  /\ forall fl, rounds_like_double fl ->
       let printed (v : Z) :=
         JS.toFixed 8 (JS.Fin (fl (inject_Z v / inject_Z 100000000)%Q)) in
       number_of_string (printed funded) - number_of_string (printed spent)
       = number_of_string (printed (funded - spent))
       /\ number_of_string (printed (funded - spent))
          + number_of_string (printed unconfirmed)
          = number_of_string (printed (funded - spent + unconfirmed))
       /\ number_of_string (printed (funded - spent + unconfirmed))
          = AddressLookup.sats balance.
Proof.
  intros Hdata H chain pool funded spent unconfirmed Hc Hp Ht.
  assert (Hb := exact_stats_balance chain Hc).
  assert (Hu := exact_stats_balance pool Hp).
  destruct Hc as [Hf Hs]. fold funded in Hf, Hb. fold spent in Hs, Hb.
  fold unconfirmed in Hu.
  rewrite (address_lookup_run ctx up clock data Hdata) in H.
  apply Fulfilled_inj in H. subst out. cbv zeta.
  cbn [AddressLookup.balance AddressLookup.out_address AddressLookup.total
       AddressLookup.sats AddressLookup.confirmed AddressLookup.unconfirmed
       AddressLookup.received AddressLookup.spent AddressLookup.tx_total
       AddressLookup.tx_confirmed AddressLookup.tx_unconfirmed
       AddressLookup.transactions].
  fold chain pool funded spent unconfirmed.
  rewrite !number_of_satsToBtc.
  split; [ reflexivity | ].
  split; [ exact (satsToBtc_prints _ Hf) | ].
  split; [ exact (satsToBtc_prints _ Hs) | ].
  split; [ reflexivity | ]. split; [ reflexivity | ].
  split; [ reflexivity | ]. split; [ reflexivity | ].
  intros fl Hfl.
  assert (P : forall v, exact_amount v ->
              number_of_string
                (JS.toFixed 8 (JS.Fin (fl (inject_Z v / inject_Z 100000000)%Q)))
              = v).
  { intros v Hv. destruct (satsToBtc_prints v Hv) as (_ & _ & _ & _ & R).
    rewrite (R fl Hfl). apply number_of_satsToBtc. }
  rewrite (P funded Hf), (P spent Hs), (P _ Hb), (P _ Hu), (P _ Ht).
  split; [ reflexivity | split; reflexivity ].
Qed.

(** An address that received 1.23456789 coins, spent 0.2345679 of them and
    has 50,000 sats leaving in the mempool. *)
Lemma address_lookup_amounts_add_up_witness :
  let data :=
    {| Address.chain_stats :=
         {| Address.funded_txo_count := 4; Address.funded_txo_sum := 123456789;
            Address.spent_txo_count := 2; Address.spent_txo_sum := 23456790;
            Address.tx_count := 6 |};
       Address.mempool_stats :=
         {| Address.funded_txo_count := 0; Address.funded_txo_sum := 0;
            Address.spent_txo_count := 1; Address.spent_txo_sum := 50000;
            Address.tx_count := 1 |} |} in
  let up := Sample.providers (Fulfilled data) (Fulfilled []) in
  exists out,
    run (AddressLookup.handler {| AddressLookup.address := Sample.me |} up)
      Sample.clock = Fulfilled out
    /\ AddressLookup.received out = "1.23456789"
    /\ AddressLookup.spent out = "0.23456790"
    /\ number_of_string (AddressLookup.total (AddressLookup.balance out))
       = 99949999
    /\ number_of_string (AddressLookup.received out)
       - number_of_string (AddressLookup.spent out)
       = number_of_string (AddressLookup.confirmed (AddressLookup.balance out)).
Proof.
  intros data up. eexists. split; [ vm_compute; reflexivity | ].
  pose proof (address_lookup_amounts_add_up
                {| AddressLookup.address := Sample.me |} up
                Sample.clock data _ eq_refl eq_refl
                (conj eq_refl eq_refl) (conj eq_refl eq_refl) eq_refl) as H.
  cbv zeta in H. destruct H as (_ & Hr & Hs & Ht & _ & Hd & _).
  split; [ exact (proj1 Hr) | ]. split; [ exact (proj1 Hs) | ].
  split; [ exact Ht | exact Hd ].
Defined.

(** ** The transaction query *)

Section TransactionQuery.

Lemma filter_Boolean_present (l : list (option string)) :
  Transaction.filter_Boolean l = present l.
Proof.
  induction l as [ | [a | ] l IH ]; cbn [Transaction.filter_Boolean flat_map present];
    [ reflexivity | | exact IH ].
  fold (Transaction.filter_Boolean l). rewrite IH.
  unfold JS.Boolean. destruct (String.eqb a EmptyString); reflexivity.
Qed.

Lemma present_In (l : list (option string)) (a : string) :
  In a (present l) <-> a <> EmptyString /\ In (Some a) l.
Proof.
  induction l as [ | [b | ] l IH ]; cbn [present In].
  - tauto.
  - destruct (String.eqb b EmptyString) eqn:E.
    + apply String.eqb_eq in E. subst b. rewrite IH. split.
      * intros [Ha Hin]. split; [ exact Ha | right; exact Hin ].
      * intros [Ha [Hb | Hin]]; [ congruence | split; assumption ].
    + apply String.eqb_neq in E. cbn [In]. rewrite IH. split.
      * intros [-> | [Ha Hin]]; [ split; [ exact E | left; reflexivity ] | ].
        split; [ exact Ha | right; exact Hin ].
      * intros [Ha [Hb | Hin]]; [ left; congruence | right; split; assumption ].
  - rewrite IH. split.
    + intros [Ha Hin]. split; [ exact Ha | right; exact Hin ].
    + intros [Ha [Hb | Hin]]; [ discriminate | split; assumption ].
Qed.

Lemma present_length (l : list (option string)) :
  (List.length (present l) <= List.length l)%nat.
Proof.
  induction l as [ | [b | ] l IH ]; cbn [present List.length]; [ lia | | lia ].
  destruct (String.eqb b EmptyString); cbn [List.length]; lia.
Qed.

Lemma slice0_5 {A : Type} (l : list A) : JS.slice0 5 l = firstn 5 l.
Proof.
  change 5 with (Z.of_nat 5). rewrite slice0_firstn.
  destruct (Nat.le_ge_cases 5 (List.length l)) as [H | H].
  - rewrite Nat.min_l by exact H. reflexivity.
  - rewrite Nat.min_r by exact H. rewrite !firstn_all2 by lia. reflexivity.
Qed.

Lemma sum_of_total {A : Type} (f : A -> N) (l : list A) :
  sum_of f l = total (map f l).
Proof.
  unfold sum_of, total.
  assert (G : forall acc,
            fold_left (fun sum x => (sum + f x)%N) l acc
            = (acc + fold_right N.add 0 (map f l))%N).
  { induction l as [ | x l IH ]; intro acc; cbn [fold_left fold_right map].
    - lia.
    - rewrite IH. lia. }
  rewrite G. lia.
Qed.

(** The block time of the answer: absent when the provider has none or
    gives 0. *)
Lemma block_time_cases (o : option N) clock n :
  match o with
  | Some t =>
      if JS.truthy (Some t)
      then (iso <- Date_of_seconds_toISOString t ;; ret (Some iso))
      else ret None
  | None => ret None
  end clock n
  = match o with
    | Some t =>
        if (t =? 0)%N then Fulfilled (None, n)
        else if Z.of_N t * 1000 <=? 8640000000000000
             then Fulfilled (Some (JS.ISO (Z.of_N t * 1000)), n)
             else Rejected RangeError
    | None => Fulfilled (None, n)
    end.
Proof.
  destruct o as [t | ]; [ | reflexivity ].
  unfold JS.truthy. destruct (t =? 0)%N; cbn [negb]; [ reflexivity | ].
  unfold Date_of_seconds_toISOString. run_handler.
  destruct (Z.of_N t * 1000 <=? 8640000000000000); reflexivity.
Qed.

(** What a fulfilled transaction query is made of. *)
Lemma transaction_fulfilled (ctx : Transaction.input) (up : Upstream)
    (clock : Clock) (out : Transaction.output) :
  run (Transaction.handler ctx up) clock = Fulfilled out ->
  exists tx,
    api_tx up (Transaction.txid ctx) = Fulfilled tx
    /\ Transaction.out_txid out = Tx.txid tx
    /\ Transaction.confirmed out = Tx.confirmed (Tx.status tx)
    /\ Transaction.blockHeight out
       = (if JS.truthy (Tx.block_height (Tx.status tx))
          then Tx.block_height (Tx.status tx) else None)
    /\ Transaction.blockTime out
       = match Tx.block_time (Tx.status tx) with
         | Some t => if (t =? 0)%N then None else Some (JS.ISO (Z.of_N t * 1000))
         | None => None
         end
    /\ (forall t, Tx.block_time (Tx.status tx) = Some t -> valid_date t)
    /\ Transaction.fee out
       = {| Transaction.sats := Tx.fee tx;
            Transaction.btc := satsToBtc (Z.of_N (Tx.fee tx));
            Transaction.satPerVb :=
              JS.toFixed 2
                (JS.div (JS.of_N (Tx.fee tx))
                   (JS.Math_ceil (JS.div (JS.of_N (Tx.weight tx)) (JS.of_Z 4)))) |}
    /\ Transaction.inputs out
       = {| Transaction.count := List.length (Tx.vin tx);
            Transaction.totalBtc :=
              satsToBtc (Z.of_N (sum_of Transaction.prevout_value (Tx.vin tx))) |}
    /\ Transaction.outputs out
       = {| Transaction.count := List.length (Tx.vout tx);
            Transaction.totalBtc :=
              satsToBtc (Z.of_N (sum_of Tx.value (Tx.vout tx))) |}
    /\ Transaction.addresses out
       = {| Transaction.addr_inputs :=
              Transaction.filter_Boolean
                (map Transaction.prevout_address (JS.slice0 5 (Tx.vin tx)));
            Transaction.addr_outputs :=
              Transaction.filter_Boolean
                (map Tx.scriptpubkey_address (JS.slice0 5 (Tx.vout tx))) |}
    /\ Transaction.fetchedAt out = JS.ISO (clock O).
Proof.
  unfold Transaction.handler.
  cbv beta iota delta [run bind await].
  destruct (api_tx up (Transaction.txid ctx)) as [tx | e]; [ | discriminate ].
  rewrite block_time_cases.
  destruct (Tx.block_time (Tx.status tx)) as [t | ] eqn:Et.
  - cbv beta iota. destruct (t =? 0)%N eqn:E0.
    + run_handler. intro H. apply Fulfilled_inj in H. subst out.
      exists tx. rewrite ?Et; cbv beta iota; rewrite ?E0.
      repeat (split; [ reflexivity | ]). split; [ | repeat split ].
      intros t' Ht'. injection Ht' as <-. apply N.eqb_eq in E0. subst t.
      unfold valid_date. lia.
    + destruct (Z.of_N t * 1000 <=? 8640000000000000) eqn:Ev; [ | discriminate ].
      run_handler. intro H. apply Fulfilled_inj in H. subst out.
      exists tx. rewrite ?Et; cbv beta iota; rewrite ?E0.
      repeat (split; [ reflexivity | ]). split; [ | repeat split ].
      intros t' Ht'. injection Ht' as <-. apply Z.leb_le. exact Ev.
  - run_handler. intro H. apply Fulfilled_inj in H. subst out.
    exists tx. rewrite ?Et; cbv beta iota; rewrite ?E0.
      repeat (split; [ reflexivity | ]). split; [ | repeat split ]. intros t' Ht'. discriminate.
Qed.

Lemma transaction_returns (ctx : Transaction.input) (up : Upstream)
    (clock : Clock) (tx : Tx.t) :
  api_tx up (Transaction.txid ctx) = Fulfilled tx ->
  (forall t, Tx.block_time (Tx.status tx) = Some t -> valid_date t) ->
  exists out, run (Transaction.handler ctx up) clock = Fulfilled out.
Proof.
  intros Htx Hv. unfold Transaction.handler.
  cbv beta iota delta [run bind await]. rewrite Htx, block_time_cases.
  destruct (Tx.block_time (Tx.status tx)) as [t | ].
  - destruct (t =? 0)%N; [ run_handler; eexists; reflexivity | ].
    specialize (Hv t eq_refl). apply Z.leb_le in Hv. rewrite Hv.
    run_handler. eexists. reflexivity.
  - run_handler. eexists. reflexivity.
Qed.

End TransactionQuery.

(** X7.  The transaction query succeeds exactly when the provider answers
    for the transaction and the block time of the answer, if there is one,
    can be printed; when the provider fails the query fails with the
    provider's reason. *)
Theorem transaction_outcome
    (ctx : Transaction.input) (up : Upstream) (clock : Clock) :
  ((exists out, run (Transaction.handler ctx up) clock = Fulfilled out)
   <-> exists tx,
         api_tx up (Transaction.txid ctx) = Fulfilled tx
         /\ forall t, Tx.block_time (Tx.status tx) = Some t -> valid_date t)
  /\ forall e,
       api_tx up (Transaction.txid ctx) = Rejected e ->
       run (Transaction.handler ctx up) clock = Rejected e.
Proof.
  split.
  - split.
    + intros [out H].
      destruct (transaction_fulfilled ctx up clock out H)
        as (tx & Htx & _ & _ & _ & _ & Hv & _).
      exists tx. split; assumption.
    + intros (tx & Htx & Hv). exact (transaction_returns ctx up clock tx Htx Hv).
  - intros e He. unfold Transaction.handler.
    cbv beta iota delta [run bind await]. rewrite He. reflexivity.
Qed.

(** X8.  In the answer of the transaction query the block height is null
    exactly when the provider gives none or gives 0, and the block time is
    null exactly when the provider gives none or gives 0; otherwise they are
    the provider's height and the provider's time in milliseconds.  The
    confirmation flag is the provider's in every case. *)
Theorem transaction_confirmation_fields
    (ctx : Transaction.input) (up : Upstream) (clock : Clock)
    (out : Transaction.output) :
  run (Transaction.handler ctx up) clock = Fulfilled out ->
  exists tx,
    api_tx up (Transaction.txid ctx) = Fulfilled tx
    /\ Transaction.confirmed out = Tx.confirmed (Tx.status tx)
    /\ (Transaction.blockHeight out = None
        <-> Tx.block_height (Tx.status tx) = None
            \/ Tx.block_height (Tx.status tx) = Some 0%N)
    /\ (forall h, Transaction.blockHeight out = Some h
                  <-> Tx.block_height (Tx.status tx) = Some h /\ h <> 0%N)
    /\ (Transaction.blockTime out = None
        <-> Tx.block_time (Tx.status tx) = None
            \/ Tx.block_time (Tx.status tx) = Some 0%N)
    /\ (forall t, Tx.block_time (Tx.status tx) = Some t -> t <> 0%N ->
                  Transaction.blockTime out = Some (JS.ISO (Z.of_N t * 1000))).
Proof.
  intro H.
  destruct (transaction_fulfilled ctx up clock out H)
    as (tx & Htx & _ & Hc & Hh & Ht & _).
  exists tx. split; [ exact Htx | ]. split; [ exact Hc | ].
  rewrite Hh, Ht. clear.
  destruct (Tx.block_height (Tx.status tx)) as [h | ];
    destruct (Tx.block_time (Tx.status tx)) as [t | ]; cbn [JS.truthy].
  all: repeat match goal with
         | |- context [ (?x =? 0)%N ] =>
             let E := fresh "E" in
             destruct (N.eqb_spec x 0) as [E | E]; [ try subst x | ]; cbn [negb]
         end.
  all: repeat split; try tauto; try congruence.
  all: try (intros [ | ]; congruence).
  all: try (intros [? ?]; congruence).
  all: try (intros ? ?; congruence).
  all: try (intro Hq; injection Hq as <-; split; [ reflexivity | assumption ]).
  all: try (intros ? Hq; injection Hq as <-; split; [ reflexivity | assumption ]).
  all: try (intros ? Hq ?; injection Hq as <-; reflexivity).
Qed.

Lemma transaction_confirmation_fields_witness :
  exists out,
    run (Transaction.handler {| Transaction.txid := "aa" |} Sample.snapshot)
      Sample.clock = Fulfilled out
    /\ Transaction.blockHeight out = Some 799990%N
    /\ Transaction.blockTime out = Some (JS.ISO 1699990000000)
    /\ exists tx,
         api_tx Sample.snapshot "aa" = Fulfilled tx
         /\ Transaction.confirmed out = Tx.confirmed (Tx.status tx)
         /\ (Transaction.blockHeight out = None
             <-> Tx.block_height (Tx.status tx) = None
                 \/ Tx.block_height (Tx.status tx) = Some 0%N)
         /\ (forall h, Transaction.blockHeight out = Some h
                       <-> Tx.block_height (Tx.status tx) = Some h /\ h <> 0%N)
         /\ (Transaction.blockTime out = None
             <-> Tx.block_time (Tx.status tx) = None
                 \/ Tx.block_time (Tx.status tx) = Some 0%N)
         /\ (forall t, Tx.block_time (Tx.status tx) = Some t -> t <> 0%N ->
                       Transaction.blockTime out = Some (JS.ISO (Z.of_N t * 1000))).
Proof.
  eexists. split; [ vm_compute; reflexivity | ].
  split; [ reflexivity | ]. split; [ reflexivity | ].
  apply (transaction_confirmation_fields {| Transaction.txid := "aa" |}
           Sample.snapshot Sample.clock).
  vm_compute. reflexivity.
Defined.

(** X9.  The transaction query counts all inputs and outputs, but lists
    addresses of the first five of each only: an address is listed exactly
    when it is not empty and one of the first five inputs (outputs) carries
    it, in their order, so each list has at most five entries and none of
    them is empty. *)
Theorem transaction_addresses
    (ctx : Transaction.input) (up : Upstream) (clock : Clock)
    (out : Transaction.output) :
  run (Transaction.handler ctx up) clock = Fulfilled out ->
  exists tx,
    api_tx up (Transaction.txid ctx) = Fulfilled tx
    /\ Transaction.count (Transaction.inputs out) = List.length (Tx.vin tx)
    /\ Transaction.count (Transaction.outputs out) = List.length (Tx.vout tx)
    /\ Transaction.addr_inputs (Transaction.addresses out)
       = present (map Transaction.prevout_address (firstn 5 (Tx.vin tx)))
    /\ Transaction.addr_outputs (Transaction.addresses out)
       = present (map Tx.scriptpubkey_address (firstn 5 (Tx.vout tx)))
    /\ (List.length (Transaction.addr_inputs (Transaction.addresses out)) <= 5)%nat
    /\ (List.length (Transaction.addr_outputs (Transaction.addresses out)) <= 5)%nat
    /\ (forall a,
          In a (Transaction.addr_inputs (Transaction.addresses out))
          <-> a <> EmptyString
              /\ exists v, In v (firstn 5 (Tx.vin tx))
                           /\ Transaction.prevout_address v = Some a)
    /\ (forall a,
          In a (Transaction.addr_outputs (Transaction.addresses out))
          <-> a <> EmptyString
              /\ exists v, In v (firstn 5 (Tx.vout tx))
                           /\ Tx.scriptpubkey_address v = Some a).
Proof.
  intro H.
  destruct (transaction_fulfilled ctx up clock out H)
    as (tx & Htx & _ & _ & _ & _ & _ & _ & Hi & Ho & Ha & _).
  exists tx. rewrite Hi, Ho, Ha.
  cbn [Transaction.count Transaction.addr_inputs Transaction.addr_outputs].
  rewrite !filter_Boolean_present, !slice0_5.
  assert (L : forall (A : Type) (f : A -> option string) (l : list A),
            (List.length (present (map f (firstn 5 l))) <= 5)%nat).
  { intros A f l. etransitivity; [ apply present_length | ].
    rewrite length_map. apply firstn_le_length. }
  assert (I : forall (A : Type) (f : A -> option string) (l : list A) (a : string),
            In a (present (map f l))
            <-> a <> EmptyString /\ exists v, In v l /\ f v = Some a).
  { intros A f l a. rewrite present_In, in_map_iff.
    split; intros [Ha' [v Hv]]; (split; [ exact Ha' | ]); exists v; tauto. }
  split; [ exact Htx | ]. do 4 (split; [ reflexivity | ]).
  split; [ apply L | ]. split; [ apply L | ].
  split; intro a; apply I.
Qed.

Lemma transaction_addresses_witness :
  exists out,
    run (Transaction.handler {| Transaction.txid := "aa" |} Sample.snapshot)
      Sample.clock = Fulfilled out
    /\ Transaction.addr_inputs (Transaction.addresses out) = [Sample.other]
    /\ Transaction.addr_outputs (Transaction.addresses out)
       = [Sample.me; Sample.other]
    /\ exists tx,
         api_tx Sample.snapshot "aa" = Fulfilled tx
         /\ Transaction.count (Transaction.inputs out) = List.length (Tx.vin tx)
         /\ Transaction.count (Transaction.outputs out) = List.length (Tx.vout tx)
         /\ Transaction.addr_inputs (Transaction.addresses out)
            = present (map Transaction.prevout_address (firstn 5 (Tx.vin tx)))
         /\ Transaction.addr_outputs (Transaction.addresses out)
            = present (map Tx.scriptpubkey_address (firstn 5 (Tx.vout tx)))
         /\ (List.length (Transaction.addr_inputs (Transaction.addresses out))
             <= 5)%nat
         /\ (List.length (Transaction.addr_outputs (Transaction.addresses out))
             <= 5)%nat
         /\ (forall a,
               In a (Transaction.addr_inputs (Transaction.addresses out))
               <-> a <> EmptyString
                   /\ exists v, In v (firstn 5 (Tx.vin tx))
                                /\ Transaction.prevout_address v = Some a)
         /\ (forall a,
               In a (Transaction.addr_outputs (Transaction.addresses out))
               <-> a <> EmptyString
                   /\ exists v, In v (firstn 5 (Tx.vout tx))
                                /\ Tx.scriptpubkey_address v = Some a).
Proof.
  eexists. split; [ vm_compute; reflexivity | ].
  split; [ reflexivity | ]. split; [ reflexivity | ].
  apply (transaction_addresses {| Transaction.txid := "aa" |}
           Sample.snapshot Sample.clock).
  vm_compute. reflexivity.
Defined.

(** X10.  The totals of the transaction query are sums over all inputs and
    all outputs: read back in sats, the input total is the sum of the values
    that the inputs spend, an input without a previous output adding
    nothing, the output total is the sum of the output values, and the
    printed fee is the fee in sats. *)
Theorem transaction_totals
    (ctx : Transaction.input) (up : Upstream) (clock : Clock)
    (out : Transaction.output) :
  run (Transaction.handler ctx up) clock = Fulfilled out ->
  exists tx,
    api_tx up (Transaction.txid ctx) = Fulfilled tx
    /\ number_of_string (Transaction.totalBtc (Transaction.inputs out))
       = Z.of_N (total (map Transaction.prevout_value (Tx.vin tx)))
    /\ number_of_string (Transaction.totalBtc (Transaction.outputs out))
       = Z.of_N (total (map Tx.value (Tx.vout tx)))
    /\ number_of_string (Transaction.btc (Transaction.fee out))
       = Z.of_N (Transaction.sats (Transaction.fee out))
    /\ Transaction.sats (Transaction.fee out) = Tx.fee tx.
Proof.
  intro H.
  destruct (transaction_fulfilled ctx up clock out H)
    as (tx & Htx & _ & _ & _ & _ & _ & Hf & Hi & Ho & _).
  exists tx. rewrite Hf, Hi, Ho.
  cbn [Transaction.totalBtc Transaction.btc Transaction.sats].
  rewrite !number_of_satsToBtc, !sum_of_total.
  repeat split. exact Htx.
Qed.

Lemma transaction_totals_witness :
  exists out,
    run (Transaction.handler {| Transaction.txid := "aa" |} Sample.snapshot)
      Sample.clock = Fulfilled out
    /\ Transaction.totalBtc (Transaction.inputs out) = "0.00060000"
    /\ exists tx,
         api_tx Sample.snapshot "aa" = Fulfilled tx
         /\ number_of_string (Transaction.totalBtc (Transaction.inputs out))
            = Z.of_N (total (map Transaction.prevout_value (Tx.vin tx)))
         /\ number_of_string (Transaction.totalBtc (Transaction.outputs out))
            = Z.of_N (total (map Tx.value (Tx.vout tx)))
         /\ number_of_string (Transaction.btc (Transaction.fee out))
            = Z.of_N (Transaction.sats (Transaction.fee out))
         /\ Transaction.sats (Transaction.fee out) = Tx.fee tx.
Proof.
  eexists. split; [ vm_compute; reflexivity | ].
  split; [ reflexivity | ].
  apply (transaction_totals {| Transaction.txid := "aa" |}
           Sample.snapshot Sample.clock).
  vm_compute. reflexivity.
Defined.

(** X11.  The transaction query answers for a transaction of weight 0 too:
    its virtual size is 0, and the fee rate, a division by that size, is
    printed as "Infinity", or as "NaN" when the fee is 0 as well. *)
Theorem transaction_zero_weight
    (ctx : Transaction.input) (up : Upstream) (clock : Clock)
    (tx : Tx.t) (out : Transaction.output) :
  api_tx up (Transaction.txid ctx) = Fulfilled tx ->
  run (Transaction.handler ctx up) clock = Fulfilled out ->
  Tx.weight tx = 0%N ->
  Transaction.vsize out = JS.of_Z 0
  /\ Transaction.satPerVb (Transaction.fee out)
     = if (Tx.fee tx =? 0)%N then "NaN" else "Infinity".
Proof.
  intros Htx Hrun Hw.
  assert (V : JS.Math_ceil (JS.div (JS.of_N 0) (JS.of_Z 4)) = JS.of_Z 0)
    by reflexivity.
  split.
  - revert Hrun. unfold Transaction.handler.
    cbv beta iota delta [run bind await]. rewrite Htx, block_time_cases.
    destruct (Tx.block_time (Tx.status tx)) as [t | ];
      [ destruct (t =? 0)%N;
        [ | destruct (Z.of_N t * 1000 <=? 8640000000000000) ] | ];
      run_handler; intro H; try discriminate;
      apply Fulfilled_inj in H; subst out;
      cbn [Transaction.vsize]; rewrite Hw; exact V.
  - destruct (transaction_fulfilled ctx up clock out Hrun)
      as (tx' & Htx' & _ & _ & _ & _ & _ & Hf & _).
    rewrite Htx in Htx'. apply Fulfilled_inj in Htx'. subst tx'.
    rewrite Hf. cbn [Transaction.satPerVb]. rewrite Hw, V.
    unfold JS.div, JS.of_N, JS.of_Z.
    change (Qeq_bool (inject_Z 0) 0) with true. cbv iota.
    change 0%Q with (inject_Z 0). rewrite Qeq_bool_inject_Z.
    destruct (N.eqb_spec (Tx.fee tx) 0) as [E | E].
    + rewrite E. reflexivity.
    + replace (Z.of_N (Tx.fee tx) =? 0) with false
        by (symmetry; apply Z.eqb_neq; lia).
      replace (JS.Qltb (inject_Z (Z.of_N (Tx.fee tx))) (inject_Z 0)) with false;
        [ reflexivity | ].
      symmetry. apply not_true_is_false. intro L. apply Qltb_lt in L.
      rewrite <- Zlt_Qlt in L. lia.
Qed.

Lemma transaction_zero_weight_witness :
  let tx :=
    {| Tx.txid := "dd";
       Tx.status := {| Tx.confirmed := false; Tx.block_height := None;
                       Tx.block_time := None |};
       Tx.size := 0; Tx.weight := 0; Tx.fee := 150;
       Tx.vin := []; Tx.vout := [] |} in
  let up :=
    {| api_fees_recommended := Rejected FetchError;
       api_stats := Rejected FetchError;
       api_blocks := Rejected FetchError;
       api_mempool := Rejected FetchError;
       api_address := fun _ => Rejected FetchError;
       api_address_txs := fun _ => Rejected FetchError;
       api_tx := fun _ => Fulfilled tx;
       api_ticker := Rejected FetchError |} in
  exists out,
    run (Transaction.handler {| Transaction.txid := "dd" |} up) Sample.clock
    = Fulfilled out
    /\ Transaction.vsize out = JS.of_Z 0
    /\ Transaction.satPerVb (Transaction.fee out) = "Infinity".
Proof.
  intros tx up. eexists. split; [ vm_compute; reflexivity | ].
  apply (transaction_zero_weight {| Transaction.txid := "dd" |} up Sample.clock tx);
    vm_compute; reflexivity.
Defined.

(** ** The fees query *)

Section FeesEstimates.

(** A size in bytes printed in millions of bytes with two decimals. *)
Lemma toFixed_megabytes (bytes : N) :
  exists n : N,
    JS.toFixed 2 (JS.div (JS.of_N bytes) (JS.of_Z 1000000)) = JS.decimal 2 n
    /\ - 1000000 <= 2 * (Z.of_N bytes * 100 - Z.of_N n * 1000000) <= 1000000.
Proof.
  exists (Z.to_N ((2 * Z.abs (Z.of_N bytes) * 10 ^ Z.of_nat 2 + 1000000)
                  / (2 * 1000000))).
  split.
  - unfold JS.of_N. fold (JS.of_Z (Z.of_N bytes)). rewrite div_of_Z by lia.
    rewrite (toFixed_ratio 2 _ (Z.of_N bytes) 1000000) by (lia || reflexivity).
    replace (Z.of_N bytes <? 0) with false by (symmetry; apply Z.ltb_ge; lia).
    reflexivity.
  - assert (B := nearest_is_nearest 2 (Z.of_N bytes) 1000000 ltac:(lia)).
    cbv zeta in B. rewrite Z.abs_eq in B by lia.
    change (10 ^ Z.of_nat 2) with 100 in *. rewrite Z.abs_eq by lia. exact B.
Qed.

(** The average block time is computed whatever the sampled blocks are. *)
Lemma fees_average_total (blocks : list Block.t) clock n :
  exists avg,
    (if 1 <? Z.of_nat (List.length blocks)
     then
       first <- at_index blocks 0 ;;
       last <- at_index blocks (Z.of_nat (List.length blocks) - 1) ;;
       ret (JS.div
              (JS.div
                 (JS.sub (JS.of_N (Block.timestamp first))
                    (JS.of_N (Block.timestamp last)))
                 (JS.of_Z (Z.of_nat (List.length blocks) - 1)))
              (JS.of_Z 60))
     else ret (JS.of_Z 10)) clock n = Fulfilled (avg, n).
Proof.
  destruct (1 <? Z.of_nat (List.length blocks)) eqn:E.
  - apply Z.ltb_lt in E.
    destruct (at_index_in_range blocks 0 clock n) as (first & Hf & _); [ lia | ].
    destruct (at_index_in_range blocks (Z.of_nat (List.length blocks) - 1) clock n)
      as (last & Hl & _); [ lia | ].
    unfold bind at 1. rewrite Hf. unfold bind at 1. rewrite Hl.
    eexists. reflexivity.
  - eexists. reflexivity.
Qed.

(** What the fees query answers once its three fetches have succeeded. *)
Lemma fees_returns (up : Upstream) (clock : Clock)
    (fees : FeesRecommended.t) (mp : Mempool.t) (bs : list Block.t) :
  api_fees_recommended up = Fulfilled fees ->
  api_mempool up = Fulfilled mp ->
  api_blocks up = Fulfilled bs ->
  exists out,
    run (Fees.handler up) clock = Fulfilled out
    /\ Fees.satsPerVb (Fees.fastest (Fees.recommended out))
       = FeesRecommended.fastestFee fees
    /\ Fees.satsPerVb (Fees.economy (Fees.recommended out))
       = FeesRecommended.economyFee fees
    /\ Fees.mempool out
       = {| Fees.count := Mempool.count mp;
            Fees.vsize := Mempool.vsize mp;
            Fees.totalFee := Mempool.total_fee mp;
            Fees.sizeMb :=
              JS.toFixed 2 (JS.div (JS.of_N (Mempool.vsize mp)) (JS.of_Z 1000000)) |}
    /\ Fees.cost_fastest (Fees.costEstimates out)
       = JS.toString (Z.of_N (FeesRecommended.fastestFee fees * 225)) ++ " sats"
    /\ Fees.cost_economy (Fees.costEstimates out)
       = JS.toString (Z.of_N (FeesRecommended.economyFee fees * 225)) ++ " sats"
    /\ Fees.fetchedAt out = JS.ISO (clock O).
Proof.
  intros Hf Hm Hb. unfold Fees.handler, run.
  unfold bind at 1. unfold await, Promise_all3, then_. rewrite Hf, Hm, Hb.
  cbv beta iota. unfold bind at 1.
  destruct (fees_average_total (JS.slice0 6 bs) clock O) as [avg Havg].
  rewrite Havg. run_handler. eexists. split; [ reflexivity | ].
  repeat split.
Qed.

End FeesEstimates.

(** X12.  The fees query succeeds exactly when its three fetches succeed:
    unlike the overview and the blocks query, no content of the answers, an
    empty list of blocks included, makes it fail.  When it fails, its
    reason is the reason of one of the fetches that failed (of which, when
    several fail, the source decides by the order in which they settle);
    so when exactly one fetch fails, the query fails with the reason of
    that fetch. *)
Theorem fees_outcome (up : Upstream) (clock : Clock) :
  ((exists out, run (Fees.handler up) clock = Fulfilled out)
   <-> exists fees mp bs,
         api_fees_recommended up = Fulfilled fees
         /\ api_mempool up = Fulfilled mp
         /\ api_blocks up = Fulfilled bs)
  /\ (forall e,
        run (Fees.handler up) clock = Rejected e ->
        api_fees_recommended up = Rejected e
        \/ api_mempool up = Rejected e
        \/ api_blocks up = Rejected e)
  /\ (forall e mp bs,
        api_fees_recommended up = Rejected e ->
        api_mempool up = Fulfilled mp ->
        api_blocks up = Fulfilled bs ->
        run (Fees.handler up) clock = Rejected e)
  /\ (forall fees e bs,
        api_fees_recommended up = Fulfilled fees ->
        api_mempool up = Rejected e ->
        api_blocks up = Fulfilled bs ->
        run (Fees.handler up) clock = Rejected e)
  /\ (forall fees mp e,
        api_fees_recommended up = Fulfilled fees ->
        api_mempool up = Fulfilled mp ->
        api_blocks up = Rejected e ->
        run (Fees.handler up) clock = Rejected e).
Proof.
  split; [ split | ].
  - intros [out H]. revert H. unfold Fees.handler.
    cbv beta iota delta [run bind await Promise_all3 then_].
    destruct (api_fees_recommended up) as [fees | ];
      [ | destruct (api_mempool up), (api_blocks up); discriminate ].
    destruct (api_mempool up) as [mp | ];
      [ | destruct (api_blocks up); discriminate ].
    destruct (api_blocks up) as [bs | ]; [ | discriminate ].
    intros _. exists fees, mp, bs. repeat split.
  - intros (fees & mp & bs & Hf & Hm & Hb).
    destruct (fees_returns up clock fees mp bs Hf Hm Hb) as (out & H & _).
    exists out. exact H.
  - split; [ | split; [ | split ] ].
    + intro e.
      destruct (api_fees_recommended up) as [fees | e1] eqn:Hf;
        [ destruct (api_mempool up) as [mp | e2] eqn:Hm;
          [ destruct (api_blocks up) as [bs | e3] eqn:Hb | ] | ].
      * destruct (fees_returns up clock fees mp bs Hf Hm Hb) as (out & H & _).
        rewrite H. discriminate.
      * unfold Fees.handler.
        cbv beta iota delta [run bind await Promise_all3 then_].
        rewrite Hf, Hm, Hb. intro H. right. right. congruence.
      * unfold Fees.handler.
        cbv beta iota delta [run bind await Promise_all3 then_].
        rewrite Hf, Hm. destruct (api_blocks up); intro H; right; left; congruence.
      * unfold Fees.handler.
        cbv beta iota delta [run bind await Promise_all3 then_].
        rewrite Hf. destruct (api_mempool up), (api_blocks up);
          intro H; left; congruence.
    + unfold Fees.handler.
      cbv beta iota delta [run bind await Promise_all3 then_].
      intros e mp bs Hf Hm Hb. rewrite Hf, ?Hm, ?Hb. reflexivity.
    + unfold Fees.handler.
      cbv beta iota delta [run bind await Promise_all3 then_].
      intros fees e bs Hf Hm Hb. rewrite Hf, ?Hm, ?Hb. reflexivity.
    + unfold Fees.handler.
      cbv beta iota delta [run bind await Promise_all3 then_].
      intros fees mp e Hf Hm Hb. rewrite Hf, ?Hm, ?Hb. reflexivity.
Qed.

(** X13.  In an answer of the fees query the mempool size in megabytes is
    the two-decimal print of the virtual size divided by one million, the
    printed hundredths within one half of the quotient, and each cost
    estimate is 225 times the rate of its tier in the same answer, followed
    by the unit. *)
Theorem fees_mempool_size_and_costs (up : Upstream) (clock : Clock)
    (out : Fees.output) :
  run (Fees.handler up) clock = Fulfilled out ->
  (exists n : N,
     Fees.sizeMb (Fees.mempool out) = JS.decimal 2 n
     /\ - 1000000
        <= 2 * (Z.of_N (Fees.vsize (Fees.mempool out)) * 100 - Z.of_N n * 1000000)
        <= 1000000)
  /\ Fees.cost_fastest (Fees.costEstimates out)
     = JS.string_of_N
         (Fees.satsPerVb (Fees.fastest (Fees.recommended out)) * 225) ++ " sats"
  /\ Fees.cost_economy (Fees.costEstimates out)
     = JS.string_of_N
         (Fees.satsPerVb (Fees.economy (Fees.recommended out)) * 225) ++ " sats".
Proof.
  intro H.
  assert (T : forall n : N, JS.toString (Z.of_N n) = JS.string_of_N n).
  { intro n. unfold JS.toString.
    replace (Z.of_N n <? 0) with false by (symmetry; apply Z.ltb_ge; lia).
    rewrite Zabs2N.id. reflexivity. }
  destruct (api_fees_recommended up) as [fees | e] eqn:Hf;
    [ destruct (api_mempool up) as [mp | e] eqn:Hm;
      [ destruct (api_blocks up) as [bs | e] eqn:Hb | ] | ].
  - destruct (fees_returns up clock fees mp bs Hf Hm Hb)
      as (out' & H' & F1 & F2 & Hmp & C1 & C2 & _).
    rewrite H' in H. apply Fulfilled_inj in H. subst out'.
    rewrite Hmp, C1, C2, F1, F2, !T. cbn [Fees.sizeMb Fees.vsize].
    split; [ apply toFixed_megabytes | split; reflexivity ].
  - exfalso. revert H. unfold Fees.handler.
    cbv beta iota delta [run bind await Promise_all3 then_].
    rewrite Hf, Hm, Hb. discriminate.
  - exfalso. revert H. unfold Fees.handler.
    cbv beta iota delta [run bind await Promise_all3 then_].
    rewrite Hf, Hm. destruct (api_blocks up); discriminate.
  - exfalso. revert H. unfold Fees.handler.
    cbv beta iota delta [run bind await Promise_all3 then_].
    rewrite Hf. destruct (api_mempool up), (api_blocks up); discriminate.
Qed.

Lemma fees_mempool_size_and_costs_witness :
  exists out,
    run (Fees.handler Sample.snapshot) Sample.clock = Fulfilled out
    /\ Fees.sizeMb (Fees.mempool out) = "1.23"
    /\ Fees.cost_fastest (Fees.costEstimates out) = "4500 sats"
    /\ (exists n : N,
          Fees.sizeMb (Fees.mempool out) = JS.decimal 2 n
          /\ - 1000000
             <= 2 * (Z.of_N (Fees.vsize (Fees.mempool out)) * 100
                     - Z.of_N n * 1000000)
             <= 1000000)
    /\ Fees.cost_fastest (Fees.costEstimates out)
       = JS.string_of_N
           (Fees.satsPerVb (Fees.fastest (Fees.recommended out)) * 225) ++ " sats"
    /\ Fees.cost_economy (Fees.costEstimates out)
       = JS.string_of_N
           (Fees.satsPerVb (Fees.economy (Fees.recommended out)) * 225) ++ " sats".
Proof.
  eexists. split; [ vm_compute; reflexivity | ].
  split; [ reflexivity | ]. split; [ reflexivity | ].
  apply (fees_mempool_size_and_costs Sample.snapshot Sample.clock).
  vm_compute. reflexivity.
Defined.

(** ** The blocks query *)

Section BlocksAnswer.

Lemma block_of_fulfilled (b : Block.t) clock n o n' :
  Blocks.block_of b clock n = Fulfilled (o, n') ->
  o = {| Blocks.height := Block.height b;
         Blocks.hash := Block.id b;
         Blocks.timestamp := JS.ISO (Z.of_N (Block.timestamp b) * 1000);
         Blocks.txCount := Block.tx_count b;
         Blocks.size := Block.size b;
         Blocks.weight := Block.weight b;
         Blocks.miner := Blocks.miner_of b;
         Blocks.reward := Blocks.extras_btc Block.reward b;
         Blocks.fees := Blocks.extras_btc Block.totalFees b |}.
Proof.
  unfold Blocks.block_of, Date_of_seconds_toISOString. run_handler.
  destruct (Z.of_N (Block.timestamp b) * 1000 <=? 8640000000000000);
    [ | discriminate ].
  run_handler. intro H. injection H as <- _. reflexivity.
Qed.

Lemma Forall2_nth_error {A B : Type} (R : A -> B -> Prop) (l : list A)
    (l' : list B) (i : nat) (a : A) :
  Forall2 R l l' -> nth_error l i = Some a ->
  exists b, nth_error l' i = Some b /\ R a b.
Proof.
  intro H. revert i. induction H as [ | x y l l' Hxy _ IH ]; intros [ | i ] Hi;
    cbn in Hi |- *; try discriminate.
  - injection Hi as ->. exists y. split; [ reflexivity | exact Hxy ].
  - apply IH. exact Hi.
Qed.

Lemma Forall2_map_eq {A B C : Type} (f : A -> C) (g : B -> C) (l : list A)
    (l' : list B) :
  Forall2 (fun a b => g b = f a) l l' -> map g l' = map f l.
Proof.
  induction 1 as [ | x y l l' Hxy _ IH ]; cbn [map]; [ reflexivity | ].
  rewrite Hxy, IH. reflexivity.
Qed.

Lemma at_index_fulfilled {A : Type} (l : list A) (i : Z) clock n a n' :
  at_index l i clock n = Fulfilled (a, n') ->
  0 <= i /\ nth_error l (Z.to_nat i) = Some a /\ n' = n.
Proof.
  unfold at_index. destruct (i <? 0) eqn:E; [ discriminate | ].
  apply Z.ltb_ge in E.
  destruct (nth_error l (Z.to_nat i)) as [x | ]; [ | discriminate ].
  unfold ret. intro H. injection H as -> ->. repeat split. exact E.
Qed.

(** What a fulfilled blocks query is made of. *)
Lemma blocks_fulfilled (ctx : Blocks.input) (up : Upstream) (clock : Clock)
    (out : Blocks.output) :
  run (Blocks.handler ctx up) clock = Fulfilled out ->
  exists bs oldest newest,
    api_blocks up = Fulfilled bs
    /\ let recent := JS.slice0 (Z.min (Blocks.limit ctx) 15) bs in
       Forall2 (fun b o => Blocks.block_of b clock O = Fulfilled (o, O))
         recent (Blocks.blocks out)
       /\ nth_error recent (List.length recent - 1) = Some oldest
       /\ nth_error recent 0 = Some newest
       /\ Blocks.summary out
          = {| Blocks.blocksReturned := List.length recent;
               Blocks.totalTransactions := sum_of Block.tx_count recent;
               Blocks.avgTxPerBlock :=
                 JS.Math_round
                   (JS.div (JS.of_N (sum_of Block.tx_count recent))
                      (JS.of_Z (Z.of_nat (List.length recent))));
               Blocks.totalSizeMb :=
                 JS.toFixed 2
                   (JS.div (JS.of_N (sum_of Block.size recent)) (JS.of_Z 1000000));
               Blocks.heightRange :=
                 JS.toString (Z.of_N (Block.height oldest)) ++ " - " ++
                 JS.toString (Z.of_N (Block.height newest)) |}
       /\ Blocks.fetchedAt out = JS.ISO (clock O).
Proof.
  unfold Blocks.handler, run. unfold bind at 1. unfold await.
  destruct (api_blocks up) as [bs | e]; [ | discriminate ].
  set (recent := JS.slice0 (Z.min (Blocks.limit ctx) 15) bs).
  unfold bind at 1.
  destruct (mapM Blocks.block_of recent clock O) as [[os n0] | e] eqn:Hmap;
    [ | discriminate ].
  assert (n0 = O)
    by (eapply clock_free_count; [ | exact Hmap ];
        apply clock_free_mapM; intro; apply clock_free_block_of).
  subst n0.
  unfold bind at 1.
  destruct (at_index recent (Z.of_nat (List.length recent) - 1) clock O)
    as [[oldest n1] | e] eqn:Hold; [ | discriminate ].
  apply at_index_fulfilled in Hold. destruct Hold as (Hpos & Hold & ->).
  unfold bind at 1.
  destruct (at_index recent 0 clock O) as [[newest n2] | e] eqn:Hnew;
    [ | discriminate ].
  apply at_index_fulfilled in Hnew. destruct Hnew as (_ & Hnew & ->).
  run_handler. intro H. apply Fulfilled_inj in H. subst out.
  exists bs, oldest, newest. split; [ reflexivity | ]. cbv zeta.
  cbn [Blocks.blocks Blocks.summary Blocks.fetchedAt].
  split; [ | split; [ | split; [ exact Hnew | split; reflexivity ] ] ].
  - apply mapM_Forall2 in Hmap.
    eapply Forall2_impl; [ | exact Hmap ].
    intros b o (n1 & n2 & Hbo).
    assert (n2 = n1)
      by (eapply clock_free_count; [ apply clock_free_block_of | exact Hbo ]).
    subst n2.
    destruct (clock_free_block_of b) as [r Hr].
    rewrite Hr in Hbo. rewrite Hr.
    destruct r; [ | discriminate ]. injection Hbo as ->. reflexivity.
  - fold recent.
    replace (List.length recent - 1)%nat
      with (Z.to_nat (Z.of_nat (List.length recent) - 1)) by lia.
    exact Hold.
Qed.

Lemma Math_round_ratio (a b : Z) :
  0 <= a -> 0 < b ->
  exists n : Z,
    JS.Math_round (JS.div (JS.of_Z a) (JS.of_Z b)) = JS.of_Z n
    /\ 0 <= n /\ - b <= 2 * (a - n * b) < b.
Proof.
  intros Ha Hb. exists ((2 * a + b) / (2 * b)). split.
  - rewrite div_of_Z by exact Hb. unfold JS.Math_round. f_equal.
    rewrite Zdiv_Qdiv. apply Qfloor_comp.
    assert (Hq : ~ (inject_Z b == 0)%Q).
    { change 0%Q with (inject_Z 0). rewrite inject_Z_injective. lia. }
    rewrite inject_Z_plus, !inject_Z_mult. field. exact Hq.
  - exact (nearest_bounds a b Ha Hb).
Qed.

End BlocksAnswer.

(** X14.  What the blocks query does for every integer limit, when the
    provider lists [len] blocks with printable block times.  Let k be
    min (limit, 15, len) when the limit is not negative, and len + limit,
    or 0 when that is negative, when it is.  With k = 0 (a limit of 0, an
    empty list, a negative limit that drops every block) the query fails on
    the read of the oldest block; otherwise it returns k blocks.  A negative
    limit drops blocks from the end of the list instead of bounding the
    count. *)
Theorem blocks_outcome_any_limit
    (limit : Z) (up : Upstream) (clock : Clock) (bs : list Block.t) :
  api_blocks up = Fulfilled bs ->
  Forall (fun b => valid_date (Block.timestamp b)) bs ->
  let len := Z.of_nat (List.length bs) in
  let k := if limit <? 0
           then Z.max (len + limit) 0
           else Z.min (Z.min limit 15) len in
  (k = 0 ->
   run (Blocks.handler {| Blocks.limit := limit |} up) clock = Rejected TypeError)
  /\ (0 < k -> returns_blocks limit up clock k).
Proof.
  intros Hup Hvalid len k.
  assert (E : Z.of_nat (List.length (JS.slice0 (Z.min limit 15) bs)) = k).
  { unfold JS.slice0. fold len. rewrite length_firstn. unfold k.
    destruct (limit <? 0) eqn:El; [ apply Z.ltb_lt in El | apply Z.ltb_ge in El ].
    - replace (Z.min limit 15 <? 0) with true by (symmetry; apply Z.ltb_lt; lia).
      replace (Z.min limit 15) with limit by lia. lia.
    - replace (Z.min limit 15 <? 0) with false by (symmetry; apply Z.ltb_ge; lia).
      lia. }
  split.
  - intro Hk. rewrite Hk in E.
    assert (Hnil : JS.slice0 (Z.min limit 15) bs = []).
    { destruct (JS.slice0 (Z.min limit 15) bs); [ reflexivity | ].
      cbn [List.length] in E. lia. }
    unfold Blocks.handler. cbn [Blocks.limit]. run_handler. rewrite Hup, Hnil.
    reflexivity.
  - intro Hk. rewrite <- E.
    apply blocks_handler_returns; [ exact Hup | exact Hvalid | lia ].
Qed.

Lemma blocks_outcome_any_limit_witness :
  run (Blocks.handler {| Blocks.limit := -15 |} Sample.snapshot) Sample.clock
  = Rejected TypeError
  /\ returns_blocks (-3) Sample.snapshot Sample.clock 12
  /\ returns_blocks 4 Sample.snapshot_other_blocks Sample.clock 4.
Proof.
  assert (V : forall i n,
            Forall (fun b => valid_date (Block.timestamp b))
              (map Sample.block (seq i n))).
  { intros i n. apply Forall_forall. intros b Hb.
    apply in_map_iff in Hb. destruct Hb as (j & <- & _).
    unfold valid_date, Sample.block. cbn [Block.timestamp]. lia. }
  split; [ | split ].
  - exact (proj1 (blocks_outcome_any_limit (-15) Sample.snapshot Sample.clock
                    Sample.blocks eq_refl (V 0%nat 15%nat)) eq_refl).
  - exact (proj2 (blocks_outcome_any_limit (-3) Sample.snapshot Sample.clock
                    Sample.blocks eq_refl (V 0%nat 15%nat)) eq_refl).
  - exact (proj2 (blocks_outcome_any_limit 4 Sample.snapshot_other_blocks
                    Sample.clock (map Sample.block (seq 1 15)) eq_refl
                    (V 1%nat 15%nat)) eq_refl).
Defined.

(** X15.  An answer of the blocks query is never empty, and its summary
    agrees with the blocks beside it: the number of blocks returned is the
    length of the list, the transaction total is the sum of the blocks'
    transaction counts, and the height range reads from the height of the
    last block of the list to the height of the first. *)
Theorem blocks_summary_agrees
    (ctx : Blocks.input) (up : Upstream) (clock : Clock) (out : Blocks.output) :
  run (Blocks.handler ctx up) clock = Fulfilled out ->
  let summary := Blocks.summary out in
  Blocks.blocksReturned summary = List.length (Blocks.blocks out)
  /\ (0 < Blocks.blocksReturned summary)%nat
  /\ Blocks.totalTransactions summary
     = total (map Blocks.txCount (Blocks.blocks out))
  /\ exists first last,
       nth_error (Blocks.blocks out) 0 = Some first
       /\ nth_error (Blocks.blocks out) (List.length (Blocks.blocks out) - 1)
          = Some last
       /\ Blocks.heightRange summary
          = JS.string_of_N (Blocks.height last) ++ " - "
            ++ JS.string_of_N (Blocks.height first).
Proof.
  intro H.
  destruct (blocks_fulfilled ctx up clock out H)
    as (bs & oldest & newest & _ & Hall & Hold & Hnew & Hsum & _).
  cbv zeta. rewrite Hsum.
  cbn [Blocks.blocksReturned Blocks.totalTransactions Blocks.heightRange].
  set (recent := JS.slice0 (Z.min (Blocks.limit ctx) 15) bs) in *.
  assert (Hlen : List.length recent = List.length (Blocks.blocks out))
    by (eapply Forall2_length; exact Hall).
  assert (T : forall n : N, JS.toString (Z.of_N n) = JS.string_of_N n).
  { intro n. unfold JS.toString.
    replace (Z.of_N n <? 0) with false by (symmetry; apply Z.ltb_ge; lia).
    rewrite Zabs2N.id. reflexivity. }
  split; [ exact Hlen | ].
  split; [ destruct recent; [ discriminate | cbn [List.length]; lia ] | ].
  split.
  - rewrite sum_of_total. f_equal. symmetry. apply Forall2_map_eq.
    eapply Forall2_impl; [ | exact Hall ].
    intros b o Hbo. apply block_of_fulfilled in Hbo. subst o. reflexivity.
  - destruct (Forall2_nth_error _ _ _ _ _ Hall Hnew) as (first & Hf & Rf).
    destruct (Forall2_nth_error _ _ _ _ _ Hall Hold) as (last & Hl & Rl).
    exists first, last. rewrite <- Hlen.
    split; [ exact Hf | split; [ exact Hl | ] ].
    apply block_of_fulfilled in Rf, Rl. subst first last.
    cbn [Blocks.height]. rewrite !T. reflexivity.
Qed.

Lemma blocks_summary_agrees_witness :
  exists out,
    run (Blocks.handler {| Blocks.limit := 3 |} Sample.snapshot) Sample.clock
    = Fulfilled out
    /\ Blocks.heightRange (Blocks.summary out) = "799998 - 800000"
    /\ Blocks.blocksReturned (Blocks.summary out) = List.length (Blocks.blocks out)
    /\ (0 < Blocks.blocksReturned (Blocks.summary out))%nat
    /\ Blocks.totalTransactions (Blocks.summary out)
       = total (map Blocks.txCount (Blocks.blocks out))
    /\ exists first last,
         nth_error (Blocks.blocks out) 0 = Some first
         /\ nth_error (Blocks.blocks out) (List.length (Blocks.blocks out) - 1)
            = Some last
         /\ Blocks.heightRange (Blocks.summary out)
            = JS.string_of_N (Blocks.height last) ++ " - "
              ++ JS.string_of_N (Blocks.height first).
Proof.
  eexists. split; [ vm_compute; reflexivity | ].
  split; [ reflexivity | ].
  apply (blocks_summary_agrees {| Blocks.limit := 3 |} Sample.snapshot Sample.clock).
  vm_compute. reflexivity.
Defined.

(** X16.  The average number of transactions per block in an answer of the
    blocks query is a whole number, the quotient of the transaction total
    by the number of blocks returned rounded to the nearest integer, halves
    upwards; and the total size in megabytes is the two-decimal print of
    the sizes' sum divided by one million. *)
Theorem blocks_average_is_nearest_integer
    (ctx : Blocks.input) (up : Upstream) (clock : Clock) (out : Blocks.output) :
  run (Blocks.handler ctx up) clock = Fulfilled out ->
  let summary := Blocks.summary out in
  let k := Z.of_nat (Blocks.blocksReturned summary) in
  (exists n : Z,
     Blocks.avgTxPerBlock summary = JS.of_Z n
     /\ 0 <= n
     /\ - k <= 2 * (Z.of_N (Blocks.totalTransactions summary) - n * k) < k)
  /\ exists m : N,
       Blocks.totalSizeMb summary = JS.decimal 2 m
       /\ - 1000000
          <= 2 * (Z.of_N (total (map Blocks.size (Blocks.blocks out))) * 100
                  - Z.of_N m * 1000000)
          <= 1000000.
Proof.
  intro H.
  destruct (blocks_fulfilled ctx up clock out H)
    as (bs & oldest & newest & _ & Hall & Hold & Hnew & Hsum & _).
  cbv zeta. rewrite Hsum.
  cbn [Blocks.blocksReturned Blocks.totalTransactions Blocks.avgTxPerBlock
       Blocks.totalSizeMb].
  set (recent := JS.slice0 (Z.min (Blocks.limit ctx) 15) bs) in *.
  split.
  - unfold JS.of_N. fold (JS.of_Z (Z.of_N (sum_of Block.tx_count recent))).
    apply Math_round_ratio; [ lia | ].
    destruct recent; [ discriminate | cbn [List.length]; lia ].
  - replace (total (map Blocks.size (Blocks.blocks out)))
      with (sum_of Block.size recent); [ apply toFixed_megabytes | ].
    rewrite sum_of_total. f_equal. symmetry. apply Forall2_map_eq.
    eapply Forall2_impl; [ | exact Hall ].
    intros b o Hbo. apply block_of_fulfilled in Hbo. subst o. reflexivity.
Qed.

Lemma blocks_average_is_nearest_integer_witness :
  exists out,
    run (Blocks.handler {| Blocks.limit := 3 |} Sample.snapshot) Sample.clock
    = Fulfilled out
    /\ Blocks.avgTxPerBlock (Blocks.summary out) = JS.of_Z 2000
    /\ Blocks.totalSizeMb (Blocks.summary out) = "4.50"
    /\ (exists n : Z,
          Blocks.avgTxPerBlock (Blocks.summary out) = JS.of_Z n
          /\ 0 <= n
          /\ - Z.of_nat (Blocks.blocksReturned (Blocks.summary out))
             <= 2 * (Z.of_N (Blocks.totalTransactions (Blocks.summary out))
                     - n * Z.of_nat (Blocks.blocksReturned (Blocks.summary out)))
             < Z.of_nat (Blocks.blocksReturned (Blocks.summary out)))
    /\ exists m : N,
         Blocks.totalSizeMb (Blocks.summary out) = JS.decimal 2 m
         /\ - 1000000
            <= 2 * (Z.of_N (total (map Blocks.size (Blocks.blocks out))) * 100
                    - Z.of_N m * 1000000)
            <= 1000000.
Proof.
  eexists. split; [ vm_compute; reflexivity | ].
  split; [ reflexivity | ]. split; [ reflexivity | ].
  apply (blocks_average_is_nearest_integer {| Blocks.limit := 3 |}
           Sample.snapshot Sample.clock).
  vm_compute. reflexivity.
Defined.

Section BlocksEntries.

Lemma miner_of_not_empty (b : Block.t) : Blocks.miner_of b <> EmptyString.
Proof.
  unfold Blocks.miner_of.
  destruct (Block.extras b) as [x | ]; [ | discriminate ].
  destruct (Block.pool x) as [p | ]; [ | discriminate ].
  destruct (Block.name p) as [s | ]; [ | discriminate ].
  unfold JS.Boolean. destruct (String.eqb s EmptyString) eqn:E; cbn [negb];
    [ discriminate | ].
  apply String.eqb_neq. exact E.
Qed.

Lemma extras_btc_cases (f : Block.extras_t -> option N) (b : Block.t) :
  match Blocks.extras_btc f b with
  | Some s =>
      exists x v,
        Block.extras b = Some x /\ f x = Some v /\ v <> 0%N
        /\ number_of_string s = Z.of_N v
  | None =>
      forall x v, Block.extras b = Some x -> f x = Some v -> v = 0%N
  end.
Proof.
  unfold Blocks.extras_btc.
  destruct (Block.extras b) as [x | ]; [ | intros x v Hx; discriminate ].
  destruct (f x) as [v | ] eqn:Ef.
  - unfold JS.truthy. destruct (N.eqb_spec v 0) as [E | E]; cbn [negb].
    + intros x' v' Hx Hv. injection Hx as <-. congruence.
    + exists x, v. rewrite number_of_satsToBtc. repeat split; assumption.
  - intros x' v' Hx Hv. injection Hx as <-. congruence.
Qed.

End BlocksEntries.

(** X17.  The blocks of an answer of the blocks query are the blocks of the
    provider's list that the limit selects, in the provider's order, each
    with its height, its hash and its time in milliseconds.  The miner is
    never empty.  A reward or a fee total, when given, reads back to the
    provider's amount in sats, which is not 0; it is null only when the
    provider gives none or gives 0. *)
Theorem blocks_entries
    (ctx : Blocks.input) (up : Upstream) (clock : Clock) (out : Blocks.output) :
  run (Blocks.handler ctx up) clock = Fulfilled out ->
  exists bs,
    api_blocks up = Fulfilled bs
    /\ Forall2
         (fun b entry =>
            Blocks.height entry = Block.height b
            /\ Blocks.hash entry = Block.id b
            /\ Blocks.timestamp entry = JS.ISO (Z.of_N (Block.timestamp b) * 1000)
            /\ Blocks.miner entry <> EmptyString
            /\ match Blocks.reward entry with
               | Some s =>
                   exists x v,
                     Block.extras b = Some x /\ Block.reward x = Some v
                     /\ v <> 0%N /\ number_of_string s = Z.of_N v
               | None =>
                   forall x v,
                     Block.extras b = Some x -> Block.reward x = Some v -> v = 0%N
               end
            /\ match Blocks.fees entry with
               | Some s =>
                   exists x v,
                     Block.extras b = Some x /\ Block.totalFees x = Some v
                     /\ v <> 0%N /\ number_of_string s = Z.of_N v
               | None =>
                   forall x v,
                     Block.extras b = Some x -> Block.totalFees x = Some v
                     -> v = 0%N
               end)
         (JS.slice0 (Z.min (Blocks.limit ctx) 15) bs) (Blocks.blocks out).
Proof.
  intro H.
  destruct (blocks_fulfilled ctx up clock out H)
    as (bs & oldest & newest & Hbs & Hall & _).
  exists bs. split; [ exact Hbs | ].
  eapply Forall2_impl; [ | exact Hall ].
  intros b o Hbo. apply block_of_fulfilled in Hbo. subst o.
  cbn [Blocks.height Blocks.hash Blocks.timestamp Blocks.miner Blocks.reward
       Blocks.fees].
  do 3 (split; [ reflexivity | ]).
  split; [ apply miner_of_not_empty | ].
  split; [ apply (extras_btc_cases Block.reward)
         | apply (extras_btc_cases Block.totalFees) ].
Qed.

Lemma blocks_entries_witness :
  exists out,
    run (Blocks.handler {| Blocks.limit := 2 |} Sample.snapshot) Sample.clock
    = Fulfilled out
    /\ map Blocks.miner (Blocks.blocks out) = ["Unknown"; "Unknown"]
    /\ exists bs,
         api_blocks Sample.snapshot = Fulfilled bs
         /\ Forall2
              (fun b entry =>
                 Blocks.height entry = Block.height b
                 /\ Blocks.hash entry = Block.id b
                 /\ Blocks.timestamp entry
                    = JS.ISO (Z.of_N (Block.timestamp b) * 1000)
                 /\ Blocks.miner entry <> EmptyString
                 /\ match Blocks.reward entry with
                    | Some s =>
                        exists x v,
                          Block.extras b = Some x /\ Block.reward x = Some v
                          /\ v <> 0%N /\ number_of_string s = Z.of_N v
                    | None =>
                        forall x v,
                          Block.extras b = Some x -> Block.reward x = Some v
                          -> v = 0%N
                    end
                 /\ match Blocks.fees entry with
                    | Some s =>
                        exists x v,
                          Block.extras b = Some x /\ Block.totalFees x = Some v
                          /\ v <> 0%N /\ number_of_string s = Z.of_N v
                    | None =>
                        forall x v,
                          Block.extras b = Some x -> Block.totalFees x = Some v
                          -> v = 0%N
                    end)
              (JS.slice0 (Z.min 2 15) bs) (Blocks.blocks out).
Proof.
  eexists. split; [ vm_compute; reflexivity | ].
  split; [ reflexivity | ].
  apply (blocks_entries {| Blocks.limit := 2 |} Sample.snapshot Sample.clock).
  vm_compute. reflexivity.
Defined.

(** ** The address report *)

Section AddressReportAnswer.

Lemma recentTx_of_cases (a : string) (tx : Tx.t) clock n :
  AddressReport.recentTx_of a tx clock n
  = match Tx.block_time (Tx.status tx) with
    | Some t =>
        if (t =? 0)%N || (Z.of_N t * 1000 <=? 8640000000000000)
        then
          Fulfilled
            ({| AddressReport.txid := Tx.txid tx;
                AddressReport.confirmed := Tx.confirmed (Tx.status tx);
                AddressReport.blockHeight := Tx.block_height (Tx.status tx);
                AddressReport.timestamp :=
                  if (t =? 0)%N then None else Some (JS.ISO (Z.of_N t * 1000));
                AddressReport.type :=
                  if existsb (AddressReport.spends a) (Tx.vin tx)
                  then "outgoing" else "incoming";
                AddressReport.amount :=
                  satsToBtc
                    (Z.of_N
                       (if existsb (AddressReport.pays a) (Tx.vout tx)
                        then sum_of Tx.value
                               (filter (AddressReport.pays a) (Tx.vout tx))
                        else 0%N)) |}, n)
        else Rejected RangeError
    | None =>
        Fulfilled
          ({| AddressReport.txid := Tx.txid tx;
              AddressReport.confirmed := Tx.confirmed (Tx.status tx);
              AddressReport.blockHeight := Tx.block_height (Tx.status tx);
              AddressReport.timestamp := None;
              AddressReport.type :=
                if existsb (AddressReport.spends a) (Tx.vin tx)
                then "outgoing" else "incoming";
              AddressReport.amount :=
                satsToBtc
                  (Z.of_N
                     (if existsb (AddressReport.pays a) (Tx.vout tx)
                      then sum_of Tx.value
                             (filter (AddressReport.pays a) (Tx.vout tx))
                      else 0%N)) |}, n)
    end.
Proof.
  unfold AddressReport.recentTx_of. unfold bind at 1.
  rewrite block_time_cases.
  destruct (Tx.block_time (Tx.status tx)) as [t | ]; [ | reflexivity ].
  destruct (t =? 0)%N; cbn [orb]; [ reflexivity | ].
  destruct (Z.of_N t * 1000 <=? 8640000000000000); reflexivity.
Qed.

(** The transactions whose block time, if any, can be printed. *)
Lemma mapM_recentTx_of_valid (a : string) (l : list Tx.t) clock n :
  Forall (fun tx => forall t, Tx.block_time (Tx.status tx) = Some t -> valid_date t) l ->
  exists os, mapM (AddressReport.recentTx_of a) l clock n = Fulfilled (os, n).
Proof.
  induction 1 as [ | tx l Htx _ IH ]; cbn [mapM].
  - eexists. reflexivity.
  - unfold bind at 1. rewrite recentTx_of_cases.
    destruct IH as [os Hos].
    destruct (Tx.block_time (Tx.status tx)) as [t | ].
    + specialize (Htx t eq_refl). apply Z.leb_le in Htx. rewrite Htx, orb_true_r.
      unfold bind at 1. rewrite Hos. eexists. reflexivity.
    + unfold bind at 1. rewrite Hos. eexists. reflexivity.
Qed.

Lemma recentTx_of_valid (a : string) (tx : Tx.t) clock n e n' :
  AddressReport.recentTx_of a tx clock n = Fulfilled (e, n') ->
  forall t, Tx.block_time (Tx.status tx) = Some t -> valid_date t.
Proof.
  rewrite recentTx_of_cases. intros H t Ht. rewrite Ht in H.
  destruct (t =? 0)%N eqn:E0;
    [ apply N.eqb_eq in E0; subst t; unfold valid_date; lia | ].
  cbn [orb] in H.
  destruct (Z.of_N t * 1000 <=? 8640000000000000) eqn:E; [ | discriminate ].
  apply Z.leb_le. exact E.
Qed.

(** The part of a fulfilled address report that the address record and the
    ticker determine. *)
Lemma address_report_figures (ctx : AddressReport.input) (up : Upstream)
    (clock : Clock) (out : AddressReport.output) :
  run (AddressReport.handler ctx up) clock = Fulfilled out ->
  exists data tk,
    api_address up (AddressReport.address ctx) = Fulfilled data
    /\ api_ticker up = Fulfilled tk
    /\ let chain := Address.chain_stats data in
       let chainBalance :=
         Z.of_N (Address.funded_txo_sum chain)
         - Z.of_N (Address.spent_txo_sum chain) in
       AddressReport.out_address out = AddressReport.address ctx
       /\ AddressReport.balance out
          = {| AddressReport.btc := satsToBtc chainBalance;
               AddressReport.sats := chainBalance;
               AddressReport.usd :=
                 JS.toFixed 2
                   (JS.mul (JS.div (JS.of_Z chainBalance) (JS.of_Z 100000000))
                      (JS.Fin (Ticker.last (Ticker.USD tk)))) |}
       /\ AddressReport.activity out
          = {| AddressReport.totalTransactions := Address.tx_count chain;
               AddressReport.totalReceived :=
                 satsToBtc (Z.of_N (Address.funded_txo_sum chain));
               AddressReport.totalSpent :=
                 satsToBtc (Z.of_N (Address.spent_txo_sum chain));
               AddressReport.utxoCount :=
                 Z.of_N (Address.funded_txo_count chain)
                 - Z.of_N (Address.spent_txo_count chain) |}
       /\ AddressReport.pricing out
          = {| AddressReport.btcUsd := Ticker.last (Ticker.USD tk) |}.
Proof.
  unfold AddressReport.handler. run_handler.
  destruct (api_address up (AddressReport.address ctx)) as [data | e];
    [ | destruct (api_address_txs up (AddressReport.address ctx)),
          (api_ticker up); discriminate ].
  destruct (api_address_txs up (AddressReport.address ctx)) as [txs | e];
    (destruct (api_ticker up) as [tk | e']; [ | discriminate ]).
  all: match goal with
       | |- context [ mapM ?f ?l ?c O ] =>
           destruct (mapM f l c O) as [[recentTxs n0] | e1] eqn:Hmap;
           [ | discriminate ]
       end.
  all: match goal with
       | |- context [ someM AddressReport.recent ?l ?c ?m ] =>
           destruct (someM_recent_total l c m) as [b [n Hsome]];
           rewrite Hsome
       end.
  all: intro H; apply Fulfilled_inj in H; subst out.
  all: exists data, tk; repeat split.
Qed.

Lemma report_returns (ctx : AddressReport.input) (up : Upstream)
    (clock : Clock) (data : Address.t) (tk : Ticker.t) :
  api_address up (AddressReport.address ctx) = Fulfilled data ->
  api_ticker up = Fulfilled tk ->
  (forall txs,
     api_address_txs up (AddressReport.address ctx) = Fulfilled txs ->
     Forall (fun tx => forall t, Tx.block_time (Tx.status tx) = Some t
                                 -> valid_date t) (firstn 10 txs)) ->
  exists out, run (AddressReport.handler ctx up) clock = Fulfilled out.
Proof.
  intros Ha Ht Hv. unfold AddressReport.handler, run. unfold bind at 1.
  unfold await, Promise_all3, catch. rewrite Ha, Ht.
  destruct (api_address_txs up (AddressReport.address ctx)) as [txs | e].
  - specialize (Hv txs eq_refl).
    assert (S10 : JS.slice0 10 txs = firstn 10 txs).
    { change 10 with (Z.of_nat 10). rewrite slice0_firstn.
      destruct (Nat.le_ge_cases 10 (List.length txs)) as [L | L].
      - rewrite Nat.min_l by exact L. reflexivity.
      - rewrite Nat.min_r by exact L. rewrite !firstn_all2 by lia. reflexivity. }
    cbv beta iota. rewrite S10.
    destruct (mapM_recentTx_of_valid (AddressReport.address ctx) _ clock O Hv)
      as [os Hos].
    destruct (someM_recent_total txs clock O) as (b & n & Hsome).
    unfold bind at 1. rewrite Hos. unfold bind at 1. rewrite Hsome.
    run_handler. eexists. reflexivity.
  - cbv beta iota.
    destruct (someM_recent_total (@nil Tx.t) clock O) as (b & n & Hsome).
    run_handler. eexists. reflexivity.
Qed.

End AddressReportAnswer.

Section AddressReportEntries.

Lemma slice0_10 {A : Type} (l : list A) : JS.slice0 10 l = firstn 10 l.
Proof.
  change 10 with (Z.of_nat 10). rewrite slice0_firstn.
  destruct (Nat.le_ge_cases 10 (List.length l)) as [L | L].
  - rewrite Nat.min_l by exact L. reflexivity.
  - rewrite Nat.min_r by exact L. rewrite !firstn_all2 by lia. reflexivity.
Qed.

Lemma existsb_spends_from (a : string) (tx : Tx.t) :
  existsb (AddressReport.spends a) (Tx.vin tx) = true <-> spends_from a tx.
Proof.
  split; [ | apply spends_from_existsb ].
  intro H. apply existsb_exists in H. destruct H as (v & Hin & Hv).
  unfold AddressReport.spends in Hv. apply same_Some in Hv.
  unfold Transaction.prevout_address in Hv.
  destruct (Tx.prevout v) as [p | ] eqn:Ep; [ | discriminate ].
  exists v, p. repeat split; assumption.
Qed.

(** The entries of a fulfilled report, one for each of the first ten
    transactions of the history. *)
Lemma report_entries (ctx : AddressReport.input) (up : Upstream)
    (clock : Clock) (out : AddressReport.output) :
  run (AddressReport.handler ctx up) clock = Fulfilled out ->
  exists txs,
    catch (api_address_txs up (AddressReport.address ctx)) [] = Fulfilled txs
    /\ Forall2
         (fun tx entry =>
            exists n,
              AddressReport.recentTx_of (AddressReport.address ctx) tx clock n
              = Fulfilled (entry, n))
         (firstn 10 txs) (AddressReport.recentTransactions out).
Proof.
  intro H.
  destruct (address_report_fulfilled ctx up clock out H)
    as (data & txs & tk & recentTxs & b & n & _ & Htxs & _ & Hmap & _ & Hrec & _).
  exists txs. split; [ exact Htxs | ]. rewrite Hrec, <- slice0_10.
  apply mapM_Forall2 in Hmap.
  eapply Forall2_impl; [ | exact Hmap ].
  intros tx e (n1 & n2 & He). exists n1.
  assert (n2 = n1)
    by (eapply clock_free_count; [ apply clock_free_recentTx_of | exact He ]).
  subst n2. exact He.
Qed.

End AddressReportEntries.

(** X18.  The recent transactions of an address report are the first ten
    transactions of the history, or all of them when there are fewer, in the
    provider's order: each entry carries the id, the confirmation flag and
    the block height of its transaction as the provider gives them, and the
    block time in milliseconds, null when the provider gives none or gives
    0. *)
Theorem report_recent_transactions_listing
    (ctx : AddressReport.input) (up : Upstream) (clock : Clock)
    (out : AddressReport.output) :
  run (AddressReport.handler ctx up) clock = Fulfilled out ->
  exists txs,
    catch (api_address_txs up (AddressReport.address ctx)) [] = Fulfilled txs
    /\ List.length (AddressReport.recentTransactions out)
       = Nat.min 10 (List.length txs)
    /\ Forall2
         (fun tx entry =>
            AddressReport.txid entry = Tx.txid tx
            /\ AddressReport.confirmed entry = Tx.confirmed (Tx.status tx)
            /\ AddressReport.blockHeight entry = Tx.block_height (Tx.status tx)
            /\ AddressReport.timestamp entry
               = match Tx.block_time (Tx.status tx) with
                 | Some t =>
                     if (t =? 0)%N then None
                     else Some (JS.ISO (Z.of_N t * 1000))
                 | None => None
                 end)
         (firstn 10 txs) (AddressReport.recentTransactions out).
Proof.
  intro H. destruct (report_entries ctx up clock out H) as (txs & Htxs & Hall).
  exists txs. split; [ exact Htxs | ]. split.
  - rewrite <- (Forall2_length Hall). apply length_firstn.
  - eapply Forall2_impl; [ | exact Hall ].
    intros tx e (n & He). rewrite recentTx_of_cases in He.
    destruct (Tx.block_time (Tx.status tx)) as [t | ].
    + destruct ((t =? 0)%N || (Z.of_N t * 1000 <=? 8640000000000000));
        [ | discriminate ].
      injection He as <-. repeat split.
    + injection He as <-. repeat split.
Qed.

Lemma report_recent_transactions_listing_witness :
  exists out,
    run (AddressReport.handler {| AddressReport.address := Sample.me |}
           Sample.snapshot) Sample.clock = Fulfilled out
    /\ map AddressReport.txid (AddressReport.recentTransactions out) = ["aa"; "bb"]
    /\ exists txs,
         catch (api_address_txs Sample.snapshot Sample.me) [] = Fulfilled txs
         /\ List.length (AddressReport.recentTransactions out)
            = Nat.min 10 (List.length txs)
         /\ Forall2
              (fun tx entry =>
                 AddressReport.txid entry = Tx.txid tx
                 /\ AddressReport.confirmed entry = Tx.confirmed (Tx.status tx)
                 /\ AddressReport.blockHeight entry
                    = Tx.block_height (Tx.status tx)
                 /\ AddressReport.timestamp entry
                    = match Tx.block_time (Tx.status tx) with
                      | Some t =>
                          if (t =? 0)%N then None
                          else Some (JS.ISO (Z.of_N t * 1000))
                      | None => None
                      end)
              (firstn 10 txs) (AddressReport.recentTransactions out).
Proof.
  eexists. split; [ vm_compute; reflexivity | ].
  split; [ reflexivity | ].
  apply (report_recent_transactions_listing
           {| AddressReport.address := Sample.me |} Sample.snapshot Sample.clock).
  vm_compute. reflexivity.
Defined.

(** X19.  Every entry of the recent transactions is labelled "outgoing" or
    "incoming", and it is "outgoing" exactly when some input of the
    transaction spends an output of the address; a transaction that does
    not touch the address at all is labelled "incoming". *)
Theorem report_entry_direction
    (ctx : AddressReport.input) (up : Upstream) (clock : Clock)
    (out : AddressReport.output) :
  run (AddressReport.handler ctx up) clock = Fulfilled out ->
  exists txs,
    catch (api_address_txs up (AddressReport.address ctx)) [] = Fulfilled txs
    /\ Forall2
         (fun tx entry =>
            (AddressReport.type entry = "outgoing"
             <-> spends_from (AddressReport.address ctx) tx)
            /\ (AddressReport.type entry = "incoming"
                <-> ~ spends_from (AddressReport.address ctx) tx))
         (firstn 10 txs) (AddressReport.recentTransactions out).
Proof.
  intro H. destruct (report_entries ctx up clock out H) as (txs & Htxs & Hall).
  exists txs. split; [ exact Htxs | ].
  eapply Forall2_impl; [ | exact Hall ].
  intros tx e (n & He). apply recentTx_of_fulfilled in He.
  destruct He as [Hty _]. rewrite Hty.
  rewrite <- existsb_spends_from.
  destruct (existsb (AddressReport.spends (AddressReport.address ctx)) (Tx.vin tx)).
  - split; split; intro G; try reflexivity; try discriminate.
    exfalso. apply G. reflexivity.
  - split; split; intro G; try reflexivity; try discriminate.
Qed.

Lemma report_entry_direction_witness :
  exists out,
    run (AddressReport.handler {| AddressReport.address := Sample.me |}
           Sample.snapshot) Sample.clock = Fulfilled out
    /\ map AddressReport.type (AddressReport.recentTransactions out)
       = ["incoming"; "outgoing"]
    /\ exists txs,
         catch (api_address_txs Sample.snapshot Sample.me) [] = Fulfilled txs
         /\ Forall2
              (fun tx entry =>
                 (AddressReport.type entry = "outgoing"
                  <-> spends_from Sample.me tx)
                 /\ (AddressReport.type entry = "incoming"
                     <-> ~ spends_from Sample.me tx))
              (firstn 10 txs) (AddressReport.recentTransactions out).
Proof.
  eexists. split; [ vm_compute; reflexivity | ].
  split; [ reflexivity | ].
  apply (report_entry_direction
           {| AddressReport.address := Sample.me |} Sample.snapshot Sample.clock).
  vm_compute. reflexivity.
Defined.

Section AddressReportFailure.

Lemma mapM_recentTx_of_rejected (a : string) (l : list Tx.t) clock n e :
  mapM (AddressReport.recentTx_of a) l clock n = Rejected e -> e = RangeError.
Proof.
  revert n. induction l as [ | tx l IH ]; intro n; cbn [mapM]; [ discriminate | ].
  unfold bind at 1. rewrite recentTx_of_cases.
  assert (G : forall (o : AddressReport.recentTx_t) (n1 : nat),
            match mapM (AddressReport.recentTx_of a) l clock n1 with
            | Fulfilled (bs, n2) => ret (o :: bs) clock n2
            | Rejected e1 => Rejected e1
            end = Rejected e -> e = RangeError).
  { intros o n1.
    destruct (mapM (AddressReport.recentTx_of a) l clock n1) as [[bs n2] | e1] eqn:E.
    - discriminate.
    - intro H. injection H as <-. exact (IH n1 E). }
  destruct (Tx.block_time (Tx.status tx)) as [t | ].
  - destruct ((t =? 0)%N || (Z.of_N t * 1000 <=? 8640000000000000)).
    + unfold bind at 1. apply G.
    + intro H. injection H as <-. reflexivity.
  - unfold bind at 1. apply G.
Qed.

(** With the address record and the ticker fetched, only a block time that
    cannot be printed fails the report. *)
Lemma report_rejected (ctx : AddressReport.input) (up : Upstream)
    (clock : Clock) (data : Address.t) (tk : Ticker.t) (e : error) :
  api_address up (AddressReport.address ctx) = Fulfilled data ->
  api_ticker up = Fulfilled tk ->
  run (AddressReport.handler ctx up) clock = Rejected e ->
  e = RangeError.
Proof.
  intros Ha Ht. unfold AddressReport.handler, run. unfold bind at 1.
  unfold await, Promise_all3, catch. rewrite Ha, Ht.
  destruct (api_address_txs up (AddressReport.address ctx)) as [txs | e0];
    cbv beta iota; unfold bind at 1.
  - destruct (mapM (AddressReport.recentTx_of (AddressReport.address ctx))
                (JS.slice0 10 txs) clock O) as [[os n0] | e1] eqn:Hmap.
    + unfold bind at 1.
      destruct (someM_recent_total txs clock n0) as (b & n & Hsome).
      rewrite Hsome. run_handler. discriminate.
    + intro H. injection H as <-.
      exact (mapM_recentTx_of_rejected _ _ _ _ _ Hmap).
  - destruct (mapM (AddressReport.recentTx_of (AddressReport.address ctx))
                (JS.slice0 10 []) clock O) as [[os n0] | e1] eqn:Hmap.
    + unfold bind at 1.
      destruct (someM_recent_total (@nil Tx.t) clock n0) as (b & n & Hsome).
      rewrite Hsome. run_handler. discriminate.
    + intro H. injection H as <-.
      exact (mapM_recentTx_of_rejected _ _ _ _ _ Hmap).
Qed.

End AddressReportFailure.

(** X20.  The address report succeeds exactly when the address record and
    the ticker are fetched and, in a history that was fetched, the block
    time of each of the first ten transactions can be printed if it is
    there.  When it fails, its reason is the reason of the address fetch or
    of the ticker fetch (of which, when both fail, the source decides by
    the order in which they settle), or that a block time cannot be
    printed; a failure of the history fetch alone never makes the report
    fail.  When only the address fetch or only the ticker fetch fails, the
    report fails with the reason of that fetch, whatever the history fetch
    did. *)
Theorem report_outcome
    (ctx : AddressReport.input) (up : Upstream) (clock : Clock) :
  ((exists out, run (AddressReport.handler ctx up) clock = Fulfilled out)
   <-> exists data tk,
         api_address up (AddressReport.address ctx) = Fulfilled data
         /\ api_ticker up = Fulfilled tk
         /\ forall txs,
              api_address_txs up (AddressReport.address ctx) = Fulfilled txs ->
              Forall (fun tx => forall t, Tx.block_time (Tx.status tx) = Some t
                                          -> valid_date t) (firstn 10 txs))
  /\ (forall e,
        run (AddressReport.handler ctx up) clock = Rejected e ->
        api_address up (AddressReport.address ctx) = Rejected e
        \/ api_ticker up = Rejected e
        \/ e = RangeError)
  /\ (forall e tk,
        api_address up (AddressReport.address ctx) = Rejected e ->
        api_ticker up = Fulfilled tk ->
        run (AddressReport.handler ctx up) clock = Rejected e)
  /\ (forall data e,
        api_address up (AddressReport.address ctx) = Fulfilled data ->
        api_ticker up = Rejected e ->
        run (AddressReport.handler ctx up) clock = Rejected e).
Proof.
  split; [ split | split; [ | split ] ].
  - intros [out H].
    destruct (address_report_figures ctx up clock out H)
      as (data & tk & Ha & Ht & _).
    destruct (report_entries ctx up clock out H) as (txs & Htxs & Hall).
    exists data, tk. split; [ exact Ha | ]. split; [ exact Ht | ].
    intros txs' Htxs'. rewrite Htxs' in Htxs. cbn [catch] in Htxs.
    injection Htxs as ->.
    clear - Hall. induction Hall as [ | tx e l l' (n & He) _ IH ];
      constructor; [ | exact IH ].
    exact (recentTx_of_valid _ _ _ _ _ _ He).
  - intros (data & tk & Ha & Ht & Hv).
    exact (report_returns ctx up clock data tk Ha Ht Hv).
  - intros e H.
    destruct (api_address up (AddressReport.address ctx)) as [data | e1] eqn:Ha.
    + destruct (api_ticker up) as [tk | e2] eqn:Ht.
      * right. right. exact (report_rejected ctx up clock data tk e Ha Ht H).
      * right. left. revert H. unfold AddressReport.handler, run.
        unfold bind at 1. unfold await, Promise_all3, catch. rewrite Ha, Ht.
        destruct (api_address_txs up (AddressReport.address ctx));
          intro H; congruence.
    + left. revert H. unfold AddressReport.handler, run. unfold bind at 1.
      unfold await, Promise_all3, catch. rewrite Ha.
      destruct (api_address_txs up (AddressReport.address ctx)), (api_ticker up);
        intro H; congruence.
  - intros e tk He Ht. unfold AddressReport.handler, run. unfold bind at 1.
    unfold await, Promise_all3, catch. rewrite He, ?Ht.
    destruct (api_address_txs up (AddressReport.address ctx)); reflexivity.
  - intros data e Ha He. unfold AddressReport.handler, run. unfold bind at 1.
    unfold await, Promise_all3, catch. rewrite Ha, He.
    destruct (api_address_txs up (AddressReport.address ctx)); reflexivity.
Qed.

(** X21.  The value in dollars of an address report, for a confirmed
    balance of exact sums, below 2^52 sats, and a price between 1e-12 and
    1e12.  It is the balance in coins times the price, printed with the sign of
    the balance and exactly two decimals: the string reads back to its
    cents n, and n is within one half, and four units in the last place of
    a double of the value, of the exact product in cents.  The same holds
    of the print that the source computes, with the quotient and the
    product rounded to doubles and the price the double nearest to the
    provider's.  The [sats] field is the balance, printed in coins beside
    it, and the price is passed on. *)
Theorem report_usd_value
    (ctx : AddressReport.input) (up : Upstream) (clock : Clock)
    (data : Address.t) (tk : Ticker.t) (out : AddressReport.output) :
  api_address up (AddressReport.address ctx) = Fulfilled data ->
  api_ticker up = Fulfilled tk ->
  run (AddressReport.handler ctx up) clock = Fulfilled out ->
  let price := Ticker.last (Ticker.USD tk) in
  let bal :=
    Z.of_N (Address.funded_txo_sum (Address.chain_stats data))
    - Z.of_N (Address.spent_txo_sum (Address.chain_stats data)) in
  exact_stats (Address.chain_stats data) ->
  ((1 # 1000000000000) <= price <= (1000000000000 # 1))%Q ->
  let cents := ((100 # 1) * (Qabs (inject_Z bal / inject_Z 100000000) * price))%Q in
  let near (n : N) :=
    (Qabs (inject_Z (Z.of_N n) - cents)
     <= (1 # 2) + (4 # 1) * cents * half_ulp)%Q in
  let usd := AddressReport.usd (AddressReport.balance out) in
  AddressReport.sats (AddressReport.balance out) = bal
  /\ AddressReport.btcUsd (AddressReport.pricing out) = price
  /\ prints_btc bal (AddressReport.btc (AddressReport.balance out))
  /\ (exists n : N,
        usd = JS.sign (bal <? 0) ++ JS.decimal 2 n
        /\ is_fixed 2 usd = true
        /\ number_of_string usd = (if bal <? 0 then - Z.of_N n else Z.of_N n)
        /\ near n)
  /\ forall (fl : Q -> Q) (rate : Q),
       rounds_like_double fl ->
       (Qabs (rate - price) <= price * half_ulp)%Q ->
       exists n' : N,
         JS.toFixed 2
           (JS.Fin (fl (fl (inject_Z bal / inject_Z 100000000) * rate)%Q))
         = JS.sign (bal <? 0) ++ JS.decimal 2 n'
         /\ near n'.
Proof.
  intros Ha Ht H price bal Hbal Hprice cents near usd.
  apply exact_stats_balance in Hbal. fold bal in Hbal.
  destruct (address_report_figures ctx up clock out H)
    as (data' & tk' & Ha' & Ht' & Hfig).
  rewrite Ha in Ha'. apply Fulfilled_inj in Ha'. subst data'.
  rewrite Ht in Ht'. apply Fulfilled_inj in Ht'. subst tk'.
  cbv zeta in Hfig. destruct Hfig as (_ & Hb & _ & Hp).
  fold bal price in Hb, Hp.
  assert (N : forall fl rate n,
            (Qabs (inject_Z (Z.of_N n)
                   - (100 # 1) * (Qabs (inject_Z bal / inject_Z 100000000) * price))
             <= (1 # 2)
                + (400 # 1) * (Qabs (inject_Z bal / inject_Z 100000000) * price)
                  * half_ulp)%Q ->
            JS.toFixed 2
              (JS.Fin (fl (fl (inject_Z bal / inject_Z 100000000) * rate)%Q))
            = JS.sign (bal <? 0) ++ JS.decimal 2 n ->
            near n).
  { intros fl rate n B _. unfold near, cents.
    eapply Qle_trans; [ exact B | ]. apply Qplus_le_r.
    apply Qle_lteq. right. ring. }
  unfold usd. rewrite Hb, Hp.
  cbn [AddressReport.sats AddressReport.btcUsd AddressReport.btc AddressReport.usd].
  split; [ reflexivity | ]. split; [ reflexivity | ].
  split; [ exact (satsToBtc_prints bal Hbal) | ].
  split.
  - destruct exact_rounds_like_double as (Hmono & Hexact & Herr).
    assert (E0 : (Qabs (price - price) <= price * half_ulp)%Q).
    { setoid_replace (price - price)%Q with 0%Q by ring.
      change (Qabs 0) with 0%Q. unfold half_ulp.
      apply Qmult_le_0_compat; [ | discriminate ].
      eapply Qle_trans; [ | exact (proj1 Hprice) ]. discriminate. }
    destruct (usd_rounded (fun q => q) Hmono Hexact Herr bal price price
                Hbal Hprice E0) as (n & Hn & Bn).
    cbv beta in Hn.
    assert (E : JS.toFixed 2
                  (JS.mul (JS.div (JS.of_Z bal) (JS.of_Z 100000000)) (JS.Fin price))
                = JS.sign (bal <? 0) ++ JS.decimal 2 n).
    { rewrite div_of_Z by lia. cbn [JS.mul]. exact Hn. }
    exists n. rewrite E.
    split; [ reflexivity | ].
    split; [ apply (is_fixed_signed 1) | ].
    split.
    + rewrite number_of_string_sign by apply decimal_head.
      rewrite decimal_value_decimal. reflexivity.
    + exact (N (fun q => q) price n Bn Hn).
  - intros fl rate (Hmono & Hexact & Herr) Hrate.
    destruct (usd_rounded fl Hmono Hexact Herr bal price rate Hbal Hprice Hrate)
      as (n & Hn & Bn).
    exists n. split; [ exact Hn | exact (N _ _ _ Bn Hn) ].
Qed.

(** 1.23456789 coins at 65,000.50 dollars. *)
Lemma report_usd_value_witness :
  let data :=
    {| Address.chain_stats :=
         {| Address.funded_txo_count := 4; Address.funded_txo_sum := 123456790;
            Address.spent_txo_count := 1; Address.spent_txo_sum := 1;
            Address.tx_count := 5 |};
       Address.mempool_stats := Sample.no_stats |} in
  let tk := {| Ticker.USD := {| Ticker.last := 130001 # 2 |} |} in
  let up :=
    {| api_fees_recommended := Rejected FetchError;
       api_stats := Rejected FetchError;
       api_blocks := Rejected FetchError;
       api_mempool := Rejected FetchError;
       api_address := fun _ => Fulfilled data;
       api_address_txs := fun _ => Rejected FetchError;
       api_tx := fun _ => Rejected FetchError;
       api_ticker := Fulfilled tk |} in
  exists out,
    run (AddressReport.handler {| AddressReport.address := Sample.me |} up)
      Sample.clock = Fulfilled out
    /\ AddressReport.usd (AddressReport.balance out) = "80247.53"
    /\ AddressReport.btc (AddressReport.balance out) = "1.23456789"
    /\ exists n : N,
         AddressReport.usd (AddressReport.balance out) = JS.decimal 2 n
         /\ number_of_string (AddressReport.usd (AddressReport.balance out))
            = Z.of_N n
         /\ JS.toFixed 2
              (JS.Fin (binary64
                         (binary64 (inject_Z 123456789 / inject_Z 100000000)
                          * binary64 (130001 # 2))%Q))
            = "80247.53".
Proof.
  intros data tk up. eexists. split; [ vm_compute; reflexivity | ].
  split; [ reflexivity | ]. split; [ reflexivity | ].
  assert (Hprice : ((1 # 1000000000000) <= Ticker.last (Ticker.USD tk)
                    <= (1000000000000 # 1))%Q)
    by (split; discriminate).
  pose proof (report_usd_value {| AddressReport.address := Sample.me |} up
                Sample.clock data tk _ eq_refl eq_refl eq_refl
                (conj eq_refl eq_refl) Hprice)
    as H.
  cbv zeta in H. destruct H as (_ & _ & _ & (n & Hn & _ & Hv & _) & _).
  exists n. split; [ exact Hn | ]. split; [ exact Hv | ].
  vm_compute. reflexivity.
Defined.

(** X22.  The address lookup and the address report of one address agree on
    one snapshot: the report's balance in coins is the lookup's confirmed
    balance, its totals received and spent and its transaction count are the
    lookup's.  The balances in sats differ: the lookup's counts the
    unconfirmed balance in, the report's does not. *)
Theorem lookup_and_report_agree
    (a : string) (up : Upstream) (clock1 clock2 : Clock)
    (found : AddressLookup.output) (report : AddressReport.output) :
  run (AddressLookup.handler {| AddressLookup.address := a |} up) clock1
  = Fulfilled found ->
  run (AddressReport.handler {| AddressReport.address := a |} up) clock2
  = Fulfilled report ->
  AddressReport.btc (AddressReport.balance report)
  = AddressLookup.confirmed (AddressLookup.balance found)
  /\ AddressReport.totalReceived (AddressReport.activity report)
     = AddressLookup.received found
  /\ AddressReport.totalSpent (AddressReport.activity report)
     = AddressLookup.spent found
  /\ AddressReport.totalTransactions (AddressReport.activity report)
     = AddressLookup.tx_confirmed (AddressLookup.transactions found)
  /\ AddressLookup.sats (AddressLookup.balance found)
     = AddressReport.sats (AddressReport.balance report)
       + number_of_string (AddressLookup.unconfirmed (AddressLookup.balance found)).
Proof.
  intros Hl Hr.
  destruct (address_report_figures _ up clock2 report Hr)
    as (data & tk & Ha & _ & Hfig).
  cbv zeta in Hfig. destruct Hfig as (_ & Hbal & Hact & _).
  cbn [AddressReport.address] in Ha.
  rewrite (address_lookup_run {| AddressLookup.address := a |} up clock1 data Ha)
    in Hl.
  apply Fulfilled_inj in Hl. subst found. rewrite Hbal, Hact.
  cbn [AddressReport.btc AddressReport.sats AddressReport.totalReceived
       AddressReport.totalSpent AddressReport.totalTransactions
       AddressLookup.balance AddressLookup.confirmed AddressLookup.received
       AddressLookup.spent AddressLookup.transactions AddressLookup.tx_confirmed
       AddressLookup.sats AddressLookup.unconfirmed].
  rewrite number_of_satsToBtc. repeat split.
Qed.

Lemma lookup_and_report_agree_witness :
  exists found report,
    run (AddressLookup.handler {| AddressLookup.address := Sample.me |}
           Sample.snapshot) Sample.clock = Fulfilled found
    /\ run (AddressReport.handler {| AddressReport.address := Sample.me |}
              Sample.snapshot) Sample.clock_still = Fulfilled report
    /\ AddressReport.btc (AddressReport.balance report)
       = AddressLookup.confirmed (AddressLookup.balance found)
    /\ AddressReport.totalReceived (AddressReport.activity report)
       = AddressLookup.received found
    /\ AddressReport.totalSpent (AddressReport.activity report)
       = AddressLookup.spent found
    /\ AddressReport.totalTransactions (AddressReport.activity report)
       = AddressLookup.tx_confirmed (AddressLookup.transactions found)
    /\ AddressLookup.sats (AddressLookup.balance found)
       = AddressReport.sats (AddressReport.balance report)
         + number_of_string
             (AddressLookup.unconfirmed (AddressLookup.balance found)).
Proof.
  eexists. eexists. split; [ vm_compute; reflexivity | ].
  split; [ vm_compute; reflexivity | ].
  apply (lookup_and_report_agree Sample.me Sample.snapshot
           Sample.clock Sample.clock_still);
    vm_compute; reflexivity.
Defined.

(** ** The analytics routes and the registration document *)

Section Slices.

Lemma slice0_nonneg {A : Type} (e : Z) (l : list A) :
  0 <= e -> JS.slice0 e l = firstn (Z.to_nat e) l.
Proof.
  intro H. rewrite <- (Z2Nat.id e H) at 1. rewrite slice0_firstn.
  destruct (Nat.le_ge_cases (Z.to_nat e) (List.length l)) as [L | L].
  - rewrite Nat.min_l by exact L. reflexivity.
  - rewrite Nat.min_r by exact L. rewrite !firstn_all2 by lia. reflexivity.
Qed.

End Slices.

(** X23.  The route of the recorded transactions, for an integer limit.
    Without a tracker it answers with no transactions, whatever the request.
    With one, it answers with the first [limit] transactions that the
    tracker lists, or with all when there are fewer; a limit that is
    missing or 0 counts as 50, and a negative limit drops that many
    transactions from the end.  A request whose body cannot be read is
    served as one with an empty body, and a failure of the tracker's query
    fails the route. *)
Theorem analytics_transactions_limit {Tracker T : Type}
    (getAllTransactions : Tracker -> option Z -> settled (list T))
    (tracker : option Tracker) (request_json : settled Analytics.body) :
  let answer := Analytics.transactions getAllTransactions tracker in
  (tracker = None -> answer request_json = Fulfilled [])
  /\ (forall e, request_json = Rejected e ->
                answer request_json = answer (Fulfilled Analytics.no_body))
  /\ (forall tr body e,
        tracker = Some tr -> request_json = Fulfilled body ->
        getAllTransactions tr (Analytics.windowMs body) = Rejected e ->
        answer request_json = Rejected e)
  /\ (forall tr body all,
        tracker = Some tr -> request_json = Fulfilled body ->
        getAllTransactions tr (Analytics.windowMs body) = Fulfilled all ->
        exists txs,
          answer request_json = Fulfilled txs
          /\ (Analytics.limit body = None \/ Analytics.limit body = Some 0 ->
              txs = firstn 50 all)
          /\ (forall l, Analytics.limit body = Some l -> 0 < l ->
                        txs = firstn (Z.to_nat l) all)
          /\ (forall l, Analytics.limit body = Some l -> l < 0 ->
                        txs = firstn (List.length all - Z.to_nat (- l)) all)).
Proof.
  cbv zeta. split; [ | split; [ | split ] ].
  - intros ->. reflexivity.
  - intros e ->. reflexivity.
  - intros tr body e -> -> H. cbn [Analytics.transactions catch]. rewrite H.
    reflexivity.
  - intros tr body all -> -> H. cbn [Analytics.transactions catch]. rewrite H.
    cbn [then_]. eexists. split; [ reflexivity | ].
    unfold Analytics.limit_or_50. split; [ | split ].
    + intros [-> | ->]; cbn [Z.eqb]; apply (slice0_nonneg 50); lia.
    + intros l -> Hl.
      replace (l =? 0) with false by (symmetry; apply Z.eqb_neq; lia).
      apply slice0_nonneg. lia.
    + intros l -> Hl.
      replace (l =? 0) with false by (symmetry; apply Z.eqb_neq; lia).
      unfold JS.slice0.
      replace (l <? 0) with true by (symmetry; apply Z.ltb_lt; lia).
      f_equal. lia.
Qed.

Section RegistrationDocument.

Lemma prefix_app (s t : string) : String.prefix s (s ++ t) = true.
Proof.
  induction s as [ | c s IH ]; cbn [append String.prefix].
  - destruct t; reflexivity.
  - destruct (ascii_dec c c) as [_ | N]; [ exact IH | congruence ].
Qed.

Lemma prefix_app_app (s r t : string) : String.prefix s ((s ++ r) ++ t) = true.
Proof.
  induction s as [ | c s IH ]; cbn [append String.prefix].
  - destruct (r ++ t); reflexivity.
  - destruct (ascii_dec c c) as [_ | N]; [ exact IH | congruence ].
Qed.

End RegistrationDocument.

(** X24.  The registration document is built on one base address: the
    public domain of the environment behind "https://" when the variable is
    set and not empty, the production address otherwise.  The web endpoint
    is the base address, and the image and the agent card extend it, so
    every address of the document starts with "https://". *)
Theorem registration_addresses (domain : option string) :
  let doc := Registration.document domain in
  let base := Registration.baseUrl domain in
  (domain = None \/ domain = Some EmptyString ->
   base = "https://bitcoin-intel-production.up.railway.app")
  /\ (forall d, domain = Some d -> d <> EmptyString -> base = "https://" ++ d)
  /\ String.prefix "https://" base = true
  /\ map Registration.endpoint (Registration.services doc)
     = [base; base ++ "/.well-known/agent.json"]
  /\ Registration.image doc = base ++ "/icon.png"
  /\ Forall (fun s => String.prefix "https://" (Registration.endpoint s) = true)
       (Registration.services doc)
  /\ String.prefix "https://" (Registration.image doc) = true.
Proof.
  cbv zeta.
  assert (B : exists rest, Registration.baseUrl domain = "https://" ++ rest).
  { unfold Registration.baseUrl. destruct domain as [d | ].
    - destruct (JS.Boolean (Some d)); eexists; reflexivity.
    - eexists; reflexivity. }
  split; [ | split; [ | split; [ | split; [ | split; [ | split ] ] ] ] ].
  - intros [-> | ->]; reflexivity.
  - intros d -> Hd. unfold Registration.baseUrl, JS.Boolean.
    apply String.eqb_neq in Hd. rewrite Hd. reflexivity.
  - destruct B as [rest ->]. apply prefix_app.
  - reflexivity.
  - reflexivity.
  - cbn [Registration.document Registration.services].
    destruct B as [rest ->].
    repeat constructor; cbn [Registration.endpoint];
      [ apply prefix_app | apply prefix_app_app ].
  - cbn [Registration.document Registration.image].
    destruct B as [rest ->]. apply prefix_app_app.
Qed.
